(** * CSV import of the Excel tools add-in: routing, decoding and placement

    A shallow embedding of [src/features/csv/importer.ts].  Two versions of
    the importer live in the repository: the card importer (many files, one
    sheet per month) and the single-file importer that writes a table at A1.
    The card importer is embedded at the top level, the single-file one in
    [Module Simple]; what they share (the JavaScript string helpers, the
    platform's UTF-8 decoder, thrown values, the two libraries) comes
    first.  The definitions come first, the statements about them after. *)

From Stdlib Require Import ZArith String Ascii List Bool Lia DecimalString.
From stdpp Require Import gmap strings list fin_maps.

Local Open Scope string_scope.
Local Open Scope list_scope.
Local Open Scope Z_scope.

(** ** JavaScript values the importer handles *)

(** Decoded text and cell contents: a sequence of code points. *)
Abbreviation Text := (list Z).

(** Raw file contents: the elements of a [Uint8Array], each in [0, 255]. *)
Abbreviation Bytes := (list Z).

Definition text_of_string (s : string) : Text :=
  List.map (fun c => Z.of_nat (nat_of_ascii c)) (list_ascii_of_string s).

(** A thrown value: an [Error] object (name and message) or any other value,
    kept through its [String(...)] rendering. *)
Inductive Exn : Type :=
| ErrorObj (ename emessage : string)
| Thrown (rendering : string).

(** [new Error(msg)] *)
Definition new_Error (msg : string) : Exn := ErrorObj "Error" msg.

(** [error instanceof Error ? error.message : String(error)] *)
Definition errorMessage (e : Exn) : string :=
  match e with
  | ErrorObj _ m => m
  | Thrown r => r
  end.

(** [String(error)], which for an [Error] object is [Error.prototype.toString]. *)
Definition String_of_exn (e : Exn) : string :=
  match e with
  | ErrorObj n m =>
      if String.eqb n "" then m
      else if String.eqb m "" then n
      else (n ++ ": " ++ m)%string
  | Thrown r => r
  end.

(** The outcome of a call that may throw. *)
Inductive result (A : Type) : Type :=
| Ok (a : A)
| Throw (e : Exn).
Arguments Ok {A} a.
Arguments Throw {A} e.

(** ** String helpers of the JavaScript runtime *)

Definition is_digit (c : ascii) : bool :=
  (48 <=? nat_of_ascii c)%nat && (nat_of_ascii c <=? 57)%nat.

Definition digit_value (c : ascii) : Z := Z.of_nat (nat_of_ascii c) - 48.

(** ASCII letters compared without case, as a regular expression with the
    [i] flag and no [u] flag compares them. *)
Definition to_lower (c : ascii) : ascii :=
  let n := nat_of_ascii c in
  if (65 <=? n)%nat && (n <=? 90)%nat then ascii_of_nat (n + 32) else c.

Definition eqb_nocase (a b : ascii) : bool :=
  Ascii.eqb (to_lower a) (to_lower b).

Fixpoint string_eqb_nocase (s t : string) : bool :=
  match s, t with
  | EmptyString, EmptyString => true
  | String a s', String b t' => eqb_nocase a b && string_eqb_nocase s' t'
  | _, _ => false
  end.

(** [s.substring(from, to)] for [from <= to]. *)
Definition js_substring (from to : nat) (s : string) : string :=
  String.substring from (to - from) s.

(** [s.substring(from)] *)
Definition js_substring_from (from : nat) (s : string) : string :=
  String.substring from (String.length s - from) s.

(** The longest prefix of decimal digits, read as a number: the digit loop
    of [parseInt(s, 10)]. [None] when there is no digit at all. *)
Fixpoint digits_prefix (s : string) (acc : option Z) : option Z :=
  match s with
  | EmptyString => acc
  | String c s' =>
      if is_digit c
      then digits_prefix s' (Some (10 * default 0 acc + digit_value c))
      else acc
  end.

Definition is_js_space (c : ascii) : bool :=
  let n := nat_of_ascii c in
  ((9 <=? n)%nat && (n <=? 13)%nat) || (n =? 32)%nat.

Fixpoint trim_start (s : string) : string :=
  match s with
  | String c s' => if is_js_space c then trim_start s' else s
  | EmptyString => s
  end.

(** [parseInt(s, 10)]: leading white space is skipped, a sign is read, then
    the digits; [None] stands for [NaN]. *)
Definition parseInt (s : string) : option Z :=
  match trim_start s with
  | String "-" s' => Z.opp <$> digits_prefix s' None
  | String "+" s' => digits_prefix s' None
  | s' => digits_prefix s' None
  end.

(** [n.toString()] for an integer [n]. *)
Definition Number_toString (n : Z) : string :=
  NilZero.string_of_int (Z.to_int n).

(** [a >= b] and [a <= b] where [a] may be [NaN]: false on [NaN]. *)
Definition js_ge (a : option Z) (b : Z) : bool :=
  match a with Some x => b <=? x | None => false end.
Definition js_le (a : option Z) (b : Z) : bool :=
  match a with Some x => x <=? b | None => false end.

(** ** Sheet routing: [extractMonthFromFileName]

    A file name is kept as a string of bytes.  The two regular expressions
    only look at ASCII characters, at the head and at the tail of the name,
    so they read a name with other characters in it the same way. *)

(** [fileName.replace(/\.csv$/i, '')] *)
Definition strip_csv (fileName : string) : string :=
  let n := String.length fileName in
  if (4 <=? n)%nat && string_eqb_nocase (String.substring (n - 4) 4 fileName) ".csv"
  then String.substring 0 (n - 4) fileName
  else fileName.

Fixpoint starts_with (p s : string) : bool :=
  match p, s with
  | EmptyString, _ => true
  | String a p', String b s' => Ascii.eqb a b && starts_with p' s'
  | String _ _, EmptyString => false
  end.

(** [s.match(/^enavi(\d{6})\(/)], giving the captured group [match[1]]. *)
Definition match_enavi (s : string) : option string :=
  if starts_with "enavi" s then
    let digits := String.substring 5 6 s in
    if (String.length digits =? 6)%nat
       && forallb is_digit (list_ascii_of_string digits)
       && (match String.get 11 s with Some c => Ascii.eqb c "(" | None => false end)
    then Some digits
    else None
  else None.

Definition extractMonthFromFileName (fileName : string) : option string :=
  let nameWithoutExt := strip_csv fileName in
  match match_enavi nameWithoutExt with
  | None => None
  | Some digits =>
      let first4Digits := parseInt (js_substring 0 4 digits) in
      if js_ge first4Digits 2000 then
        let month := js_substring_from 4 digits in
        let monthNum := parseInt month in
        if js_ge monthNum 1 && js_le monthNum 12
        then Number_toString <$> monthNum
        else None
      else
        let month := js_substring 2 4 digits in
        let monthNum := parseInt month in
        if js_ge monthNum 1 && js_le monthNum 12
        then Number_toString <$> monthNum
        else None
  end.


(** ** The platform's UTF-8 decoder ([TextDecoder])

    [TextDecoder] belongs to the host platform, not to the repository; it is
    written out here after the UTF-8 decoder of the Encoding Standard, so
    that the importer can be run on concrete bytes.  In fatal mode an
    invalid sequence throws a [TypeError] ([None] below); otherwise it is
    replaced by U+FFFD. *)

Record Utf8State : Type := {
  code_point : Z;
  bytes_seen : Z;
  bytes_needed : Z;
  lower_boundary : Z;
  upper_boundary : Z;
}.

Definition utf8_init : Utf8State :=
  {| code_point := 0; bytes_seen := 0; bytes_needed := 0;
     lower_boundary := 0x80; upper_boundary := 0xBF |}.

Inductive Utf8Out : Type :=
| Continue
| Emit (cp : Z)
| Invalid.

Definition in_range (lo hi b : Z) : bool := (lo <=? b) && (b <=? hi).

(** A byte read when no sequence is open. *)
Definition utf8_lead (b : Z) : Utf8State * Utf8Out :=
  if in_range 0x00 0x7F b then (utf8_init, Emit b)
  else if in_range 0xC2 0xDF b then
    ({| code_point := Z.land b 0x1F; bytes_seen := 0; bytes_needed := 1;
        lower_boundary := 0x80; upper_boundary := 0xBF |}, Continue)
  else if in_range 0xE0 0xEF b then
    ({| code_point := Z.land b 0xF; bytes_seen := 0; bytes_needed := 2;
        lower_boundary := if b =? 0xE0 then 0xA0 else 0x80;
        upper_boundary := if b =? 0xED then 0x9F else 0xBF |}, Continue)
  else if in_range 0xF0 0xF4 b then
    ({| code_point := Z.land b 0x7; bytes_seen := 0; bytes_needed := 3;
        lower_boundary := if b =? 0xF0 then 0x90 else 0x80;
        upper_boundary := if b =? 0xF4 then 0x8F else 0xBF |}, Continue)
  else (utf8_init, Invalid).

Definition REPLACEMENT : Z := 0xFFFD.

Fixpoint utf8_run (fatal : bool) (st : Utf8State) (input : Bytes) : option Text :=
  match input with
  | [] =>
      if bytes_needed st =? 0 then Some []
      else if fatal then None else Some [REPLACEMENT]
  | b :: rest =>
      let lead (prefix : Text) :=
        let '(st', out) := utf8_lead b in
        match out with
        | Continue => (prefix ++.) <$> utf8_run fatal st' rest
        | Emit cp => (fun t => prefix ++ cp :: t) <$> utf8_run fatal st' rest
        | Invalid =>
            if fatal then None
            else (fun t => prefix ++ REPLACEMENT :: t) <$> utf8_run fatal st' rest
        end in
      if bytes_needed st =? 0 then lead []
      else if negb (in_range (lower_boundary st) (upper_boundary st) b) then
        (* the open sequence is invalid; the byte is read again as a lead *)
        if fatal then None else lead [REPLACEMENT]
      else
        let cp := Z.lor (Z.shiftl (code_point st) 6) (Z.land b 0x3F) in
        let seen := bytes_seen st + 1 in
        if seen =? bytes_needed st
        then (cp ::.) <$> utf8_run fatal utf8_init rest
        else utf8_run fatal
               {| code_point := cp; bytes_seen := seen;
                  bytes_needed := bytes_needed st;
                  lower_boundary := 0x80; upper_boundary := 0xBF |} rest
  end.

(** [uint8Array.length >= 3 && uint8Array[0] === 0xEF && uint8Array[1] === 0xBB
    && uint8Array[2] === 0xBF] *)
Definition has_bom (uint8Array : Bytes) : bool :=
  match uint8Array with
  | b0 :: b1 :: b2 :: _ => (b0 =? 0xEF) && (b1 =? 0xBB) && (b2 =? 0xBF)
  | _ => false
  end.

(** [new TextDecoder('utf-8', { fatal }).decode(input)].  The decoder is
    made with the default [ignoreBOM: false], so a byte-order mark at the
    head of its input is consumed and does not reach the text. *)
Definition TextDecoder_decode (fatal : bool) (input : Bytes) : option Text :=
  utf8_run fatal utf8_init (if has_bom input then drop 3 input else input).

(** ** The two libraries: encoding-japanese and papaparse

    Neither is code of the repository; the importer is parametric in what
    they return.  Every call may throw (the modules are loaded by a dynamic
    [import], which can itself reject). *)

(** [Encoding.Convert] returns a string or an array of codes. *)
Inductive ConvertResult : Type :=
| ResString (s : Text)
| ResCodes (codes : list Z).

Inductive SkipEmptyLines : Type :=
| SkipGreedy
| SkipNone.

Record ParseResult : Type := {
  data : list (list Text);
  errors : list string;
}.

Record Libs : Type := {
  (** [Encoding.Convert(bytes, { to: 'UNICODE', from: 'SJIS', type: 'string' })] *)
  Encoding_Convert : Bytes -> result ConvertResult;
  Encoding_codeToString : list Z -> Text;
  (** [Papa.parse(text, { header: false, skipEmptyLines })] *)
  Papa_parse : SkipEmptyLines -> Text -> result ParseResult;
}.

Record Decoded : Type := {
  text : Text;
  encoding : string;
}.

Record File : Type := {
  name : string;
  bytes : Bytes;   (* what [file.arrayBuffer()] resolves to *)
}.

(** ** The card importer *)

(** [readCsvFile], lines 60-92. *)
Definition readCsvFile (libs : Libs) (file : File) : result Decoded :=
  let uint8Array := bytes file in
  if has_bom uint8Array then
    match TextDecoder_decode false (drop 3 uint8Array) with
    | Some t => Ok {| text := t; encoding := "UTF-8" |}
    | None => Throw (ErrorObj "TypeError" "The encoded data was not valid.")
    end
  else
    match TextDecoder_decode true uint8Array with
    | Some t => Ok {| text := t; encoding := "UTF-8" |}
    | None =>
        match Encoding_Convert libs uint8Array with
        | Throw e => Throw e
        | Ok (ResString s) => Ok {| text := s; encoding := "SJIS" |}
        | Ok (ResCodes codes) =>
            Ok {| text := Encoding_codeToString libs codes; encoding := "SJIS" |}
        end
    end.

(** What the importer asks of the workbook, one constructor per
    [Excel.run] batch that changes it. *)
Inductive HostCall : Type :=
| ClearRange (sheet : string)
    (* contents and fill of A4:L200 *)
| PutRows (sheet : string) (fileNameRowNum : Z)
          (fileNameRow : list Text) (actualDataRows : list (list Text)).
    (* the file-name row at [fileNameRowNum], coloured, and the data rows
       from [fileNameRowNum + 1] on, when there are any *)

(** The workbook: the sheets it has, and for each batch whether the host
    carries it out ([None]) or throws. *)
Record Workbook : Type := {
  worksheets : list string;
  Excel_run : HostCall -> option Exn;
}.

Record State : Type := {
  sheetRowPtr : gmap string Z;
  sheetCleared : gmap string bool;
  warnings : list string;
  grid : list HostCall;   (* the batches carried out so far, oldest first *)
}.

Definition initial : State :=
  {| sheetRowPtr := ∅; sheetCleared := ∅; warnings := []; grid := [] |}.

Definition MAX_COLS : nat := 12.
Definition MAX_ROW : Z := 200.

(** [warnings.push(w)] *)
Definition warn (st : State) (w : string) : State :=
  {| sheetRowPtr := sheetRowPtr st; sheetCleared := sheetCleared st;
     warnings := warnings st ++ [w]; grid := grid st |}.

Definition file_label (file : File) : string :=
  ("ファイル「" ++ name file ++ "」: ")%string.

(** The [catch] of the loop body, lines 295-299. *)
Definition caught (st : State) (file : File) (error : Exn) : State :=
  warn st (file_label file ++ errorMessage error)%string.

(** [x || ''] on a string *)
Definition or_empty (x : Text) : Text :=
  match x with
  | [] => []
  | _ => x
  end.

(** Lines 239-243: one row cut or padded to [MAX_COLS] cells. *)
Definition normalizeRow (row : list Text) : list Text :=
  List.map (fun i => if (i <? length row)%nat then or_empty (nth i row []) else [])
           (seq 0 MAX_COLS).

(** [l.slice(0, stop)] *)
Definition slice0 {A : Type} (l : list A) (stop : Z) : list A :=
  let len := Z.of_nat (length l) in
  let k := if stop <? 0 then Z.max (len + stop) 0 else Z.min stop len in
  take (Z.to_nat k) l.

(** Lines 252-267: where the rows of one file go. *)
Record Placement : Type := {
  fileNameRowNum : Z;
  dataStartRow : Z;
  dataEndRow : Z;
  actualDataRows : list (list Text);
  truncated : bool;
}.

Definition place (rowPtr : Z) (dataRowsNormalized : list (list Text)) : Placement :=
  let fileNameRowNum := rowPtr in
  let dataStartRow := rowPtr + 1 in
  let dataEndRow := dataStartRow + Z.of_nat (length dataRowsNormalized) - 1 in
  if dataEndRow >? MAX_ROW then
    let maxDataRows := MAX_ROW - dataStartRow + 1 in
    {| fileNameRowNum := fileNameRowNum; dataStartRow := dataStartRow;
       dataEndRow := dataEndRow;
       actualDataRows := slice0 dataRowsNormalized maxDataRows;
       truncated := true |}
  else
    {| fileNameRowNum := fileNameRowNum; dataStartRow := dataStartRow;
       dataEndRow := dataEndRow;
       actualDataRows := dataRowsNormalized;
       truncated := false |}.

(** Line 291: the row pointer after the write. *)
Definition nextRowPtr (p : Placement) : Z :=
  if truncated p then MAX_ROW
  else dataStartRow p + Z.of_nat (length (actualDataRows p)) - 1.

(** The window of a placement as the completion message of line 294 names
    it: from the file-name row to the row pointer after the write, which is
    the last row written. *)
Definition startRow (p : Placement) : Z := fileNameRowNum p.
Definition endRow (p : Placement) : Z := nextRowPtr p.

(** The last row of the sheet that the write of lines 270-288 reaches. *)
Definition lastRowWritten (p : Placement) : Z :=
  fileNameRowNum p + Z.of_nat (length (actualDataRows p)).

(** [sheetRowPtr[month] || 4] *)
Definition rowPtr_of (st : State) (month : string) : Z :=
  match sheetRowPtr st !! month with
  | Some v => if v =? 0 then 4 else v
  | None => 4
  end.

(** [!sheetCleared[month]] *)
Definition not_cleared (st : State) (month : string) : bool :=
  negb (default false (sheetCleared st !! month)).

Definition msg_no_month : string := "月を抽出できませんでした".
Definition msg_no_sheet (month : string) : string :=
  ("該当シート「" ++ month ++ "」が存在しません")%string.
Definition msg_empty : string := "CSVファイルが空です".
Definition msg_no_data : string := "データ行がありません".
Definition msg_truncated : string := "L200を超える分は切り捨てられました".

(** Lines 169-180: the sheet is looked up under exactly the name [month]. *)
Definition sheetExists (wb : Workbook) (month : string) : bool :=
  existsb (String.eqb month) (worksheets wb).

(** Lines 187-201: the target range is cleared once per sheet, before the
    file is read. *)
Definition clearOnce (wb : Workbook) (st : State) (month : string) : State + Exn :=
  if not_cleared st month then
    match Excel_run wb (ClearRange month) with
    | Some e => inr e
    | None =>
        inl {| sheetRowPtr := <[month := 4]> (sheetRowPtr st);
               sheetCleared := <[month := true]> (sheetCleared st);
               warnings := warnings st;
               grid := grid st ++ [ClearRange month] |}
    end
  else inl st.

(** The body of the loop over the files, lines 160-300. *)
Definition processFile (libs : Libs) (wb : Workbook) (st : State) (file : File) : State :=
  let month := extractMonthFromFileName (name file) in
  match month with
  | None => warn st (file_label file ++ msg_no_month)%string
  | Some month =>
  (* [!month] also holds of the empty string *)
  if String.eqb month "" then warn st (file_label file ++ msg_no_month)%string else
  if negb (sheetExists wb month) then
    warn st (file_label file ++ msg_no_sheet month)%string
  else
  match clearOnce wb st month with
  | inr e => caught st file e
  | inl st =>
  let rowPtr := rowPtr_of st month in
  match readCsvFile libs file with
  | Throw e => caught st file e
  | Ok decoded =>
  match Papa_parse libs SkipGreedy (text decoded) with
  | Throw e => caught st file e
  | Ok parseResult =>
  let rows := data parseResult in
  if (length rows =? 0)%nat then warn st (file_label file ++ msg_empty)%string else
  let dataRows := if (2 <=? length rows)%nat then drop 1 rows else [] in
  if (length dataRows =? 0)%nat then warn st (file_label file ++ msg_no_data)%string else
  let dataRowsNormalized := List.map normalizeRow dataRows in
  let fileNameRow := text_of_string (name file) :: repeat [] (MAX_COLS - 1) in
  let p := place rowPtr dataRowsNormalized in
  let st := if truncated p
            then warn st (file_label file ++ msg_truncated)%string
            else st in
  match Excel_run wb (PutRows month (fileNameRowNum p) fileNameRow (actualDataRows p)) with
  | Some e => caught st file e
  | None =>
      {| sheetRowPtr := <[month := nextRowPtr p]> (sheetRowPtr st);
         sheetCleared := sheetCleared st;
         warnings := warnings st;
         grid := grid st ++ [PutRows month (fileNameRowNum p) fileNameRow (actualDataRows p)] |}
  end end end end end.

Definition processFiles (libs : Libs) (wb : Workbook) (st : State) (files : list File) : State :=
  fold_left (processFile libs wb) files st.

Definition newline : string := String (ascii_of_nat 10) EmptyString.

(** [warnings.join('\n')] *)
Fixpoint join_lines (ws : list string) : string :=
  match ws with
  | [] => ""
  | [w] => w
  | w :: ws' => (w ++ newline ++ join_lines ws')%string
  end.

Definition import_failed (error : Exn) : Exn :=
  new_Error ("CSVのインポートに失敗しました: " ++ errorMessage error)%string.

(** [importCsvQuick], lines 98-320, from the moment the file dialog settles:
    [selection] is the list of files chosen, or what the dialog rejected
    with (time-out, cancellation, nothing chosen). *)
Definition importCsvQuick (libs : Libs) (wb : Workbook)
    (selection : result (list File)) : State * result unit :=
  match selection with
  | Throw e => (initial, Throw (import_failed e))
  | Ok files =>
      let st := processFiles libs wb initial files in
      if (0 <? length (warnings st))%nat then
        (st, Throw (import_failed
                      (new_Error ("以下の警告がありました:" ++ newline
                                  ++ join_lines (warnings st))%string)))
      else (st, Ok tt)
  end.

(** ** The single-file importer (second version of [importer.ts]) *)

Module Simple.

(** [getColumnName], lines 529-538; the loop runs at most [colIndex + 1]
    times, since [colIndex] goes down at every turn. *)
Fixpoint getColumnName_loop (turns : nat) (colIndex : Z) (result : string) : string :=
  match turns with
  | O => result
  | S turns' =>
      if 0 <? colIndex then
        let colIndex := colIndex - 1 in
        let result := String (ascii_of_nat (Z.to_nat (65 + colIndex mod 26))) result in
        getColumnName_loop turns' (colIndex / 26) result
      else result
  end.

Definition getColumnName (colIndex : Z) : string :=
  getColumnName_loop (Z.to_nat (colIndex + 1)) (colIndex + 1) "".

(** Lines 400-447: the encoding is settled inline, and a failure of the
    Shift-JIS conversion is thrown again under a message of its own. *)
Definition msg_encoding : string := "文字エンコーディングの判定に失敗しました: ".

Definition decode (libs : Libs) (uint8Array : Bytes) : result Decoded :=
  if has_bom uint8Array then
    match TextDecoder_decode false (drop 3 uint8Array) with
    | Some t => Ok {| text := t; encoding := "UTF-8" |}
    | None => Throw (ErrorObj "TypeError" "The encoded data was not valid.")
    end
  else
    match TextDecoder_decode true uint8Array with
    | Some t => Ok {| text := t; encoding := "UTF-8" |}
    | None =>
        match Encoding_Convert libs uint8Array with
        | Throw sjisError =>
            Throw (new_Error (msg_encoding ++ String_of_exn sjisError)%string)
        | Ok (ResString s) => Ok {| text := s; encoding := "SJIS" |}
        | Ok (ResCodes codes) =>
            Ok {| text := Encoding_codeToString libs codes; encoding := "SJIS" |}
        end
    end.

(** The one batch of this importer: the values at [rangeAddress], made a table. *)
Record TableWrite : Type := {
  rangeAddress : string;
  values : list (list Text);
}.

(** [importCsvQuick], lines 334-523, from the moment the file dialog
    settles.  [Excel_run] tells whether the host carries the batch out. *)
Definition importCsvQuick (libs : Libs) (Excel_run : TableWrite -> option Exn)
    (selection : result File) : result TableWrite :=
  let body : result TableWrite :=
    match selection with
    | Throw e => Throw e
    | Ok file =>
    match decode libs (bytes file) with
    | Throw e => Throw e
    | Ok decoded =>
    match Papa_parse libs SkipNone (text decoded) with
    | Throw e => Throw e
    | Ok parseResult =>
    let rows := data parseResult in
    if (length rows =? 0)%nat then Throw (new_Error "CSVファイルが空です") else
    let colCount := fold_right Z.max 0 (List.map (fun row => Z.of_nat (length row)) rows) in
    let rowCount := Z.of_nat (length rows) in
    let rangeAddress :=
      ("A1:" ++ getColumnName (colCount - 1) ++ Number_toString rowCount)%string in
    let values :=
      List.map (fun row => List.map (fun i => or_empty (nth i row []))
                                    (seq 0 (Z.to_nat colCount))) rows in
    let w := {| rangeAddress := rangeAddress; values := values |} in
    match Excel_run w with
    | Some e => Throw e
    | None => Ok w
    end end end end in
  match body with
  | Ok w => Ok w
  | Throw error => Throw (import_failed error)
  end.

End Simple.

(** The shape the routing pattern asks of a name: [enavi], six digits, an
    opening parenthesis, then anything. *)
Definition enavi_shape (s : string) (d : list ascii) : Prop :=
  List.length d = 6%nat /\
  Forall (fun c => is_digit c = true) d /\
  exists rest : string,
    s = ("enavi" ++ string_of_list_ascii d ++ String "(" rest)%string.

(** The month the six digits stand for, by the two layouts: the first four
    digits read as a number decide between YYYYMM and YYMMDD. *)
Definition month_of_digits (d : list ascii) : Z :=
  let v (i : nat) := digit_value (nth i d "0"%char) in
  if 2000 <=? 1000 * v 0%nat + 100 * v 1%nat + 10 * v 2%nat + v 3%nat
  then 10 * v 4%nat + v 5%nat
  else 10 * v 2%nat + v 3%nat.


(** The names a routing key can take. *)
Definition month_names : list string :=
  ["1"; "2"; "3"; "4"; "5"; "6"; "7"; "8"; "9"; "10"; "11"; "12"].

(** The state after a successful clear of [month], lines 189-200. *)
Definition cleared_state (st : State) (month : string) : State :=
  {| sheetRowPtr := <[month := 4]> (sheetRowPtr st);
     sheetCleared := <[month := true]> (sheetCleared st);
     warnings := warnings st;
     grid := grid st ++ [ClearRange month] |}.

(** The state after a successful write, lines 270-292. *)
Definition written_state (st : State) (month : string) (file : File) (p : Placement) : State :=
  {| sheetRowPtr := <[month := nextRowPtr p]> (sheetRowPtr st);
     sheetCleared := sheetCleared st;
     warnings := warnings st;
     grid := grid st ++ [PutRows month (fileNameRowNum p)
                           (text_of_string (name file) :: repeat [] (MAX_COLS - 1))
                           (actualDataRows p)] |}.

(** The data rows of a parsed table, cut to the twelve columns. *)
Definition data_rows (parseResult : ParseResult) : list (list Text) :=
  List.map normalizeRow (drop 1 (data parseResult)).

(** Every row pointer lies between the start row and the last row of the
    target range, and belongs to a sheet of the workbook that was cleared. *)
Definition cursors_ok (wb : Workbook) (st : State) : Prop :=
  forall k v, sheetRowPtr st !! k = Some v ->
              4 <= v <= MAX_ROW /\ sheetCleared st !! k = Some true
              /\ In k (worksheets wb).

(** Every batch went to a sheet of the workbook named by a month, and
    stayed within rows 4 to 200. *)
Definition call_ok (wb : Workbook) (c : HostCall) : Prop :=
  match c with
  | ClearRange sheet => In sheet month_names /\ In sheet (worksheets wb)
  | PutRows sheet row _ rows =>
      In sheet month_names /\ In sheet (worksheets wb)
      /\ 4 <= row <= MAX_ROW /\ row + Z.of_nat (length rows) <= MAX_ROW
  end.

Definition Inv (wb : Workbook) (st : State) : Prop :=
  cursors_ok wb st /\ Forall (call_ok wb) (grid st).

(** A file that contributes no data row: whatever it decodes and parses to
    has at most the header row. *)
Definition no_data_rows (libs : Libs) (file : File) : Prop :=
  forall decoded parseResult,
    readCsvFile libs file = Ok decoded ->
    Papa_parse libs SkipGreedy (text decoded) = Ok parseResult ->
    (length (data parseResult) <= 1)%nat.

(** What the sheet holds in a row after the batches of [calls], the latest
    batch winning: [None] when the row was cleared or never written. *)
Fixpoint row_content (calls : list HostCall) (sheet : string) (row : Z)
    (acc : option (list Text)) : option (list Text) :=
  match calls with
  | [] => acc
  | ClearRange s :: calls' =>
      row_content calls' sheet row
        (if String.eqb s sheet && (4 <=? row) && (row <=? MAX_ROW) then None else acc)
  | PutRows s r fileNameRow rows :: calls' =>
      row_content calls' sheet row
        (if String.eqb s sheet then
           if row =? r then Some fileNameRow
           else if (r <? row) && (row <=? r + Z.of_nat (length rows))
                then rows !! Z.to_nat (row - r - 1)
                else acc
         else acc)
  end.

(** From [st] to [st'] no row pointer went back and no cleared mark was lost. *)
Definition advances (st st' : State) : Prop :=
  forall k,
    (forall v, sheetRowPtr st !! k = Some v ->
               exists v', sheetRowPtr st' !! k = Some v' /\ v <= v')
    /\ rowPtr_of st k <= rowPtr_of st' k
    /\ (sheetCleared st !! k = Some true -> sheetCleared st' !! k = Some true).

(** The claim C7 as the specification words it: after the mark the rest is
    decoded strictly, so a rest that is not UTF-8 makes the call throw. *)
Definition C7_strict_after_mark : Prop :=
  forall (libs : Libs) (file : File) (rest : Bytes),
    bytes file = 0xEF :: 0xBB :: 0xBF :: rest ->
    TextDecoder_decode true rest = None ->
    exists e, readCsvFile libs file = Throw e.

(** The claim C4 as the specification words it: a file without data rows
    on a key not seen yet leaves the sheet uncleared and the tables of the
    import as they were. *)
Definition C4_unseen_key_untouched : Prop :=
  forall (libs : Libs) (wb : Workbook) (st : State) (file : File) (month : string),
    no_data_rows libs file ->
    extractMonthFromFileName (name file) = Some month ->
    sheetCleared st !! month = None ->
    let st' := processFile libs wb st file in
    grid st' = grid st
    /\ sheetRowPtr st' !! month = sheetRowPtr st !! month
    /\ sheetCleared st' !! month = None.

(** The file's turn ended in a write of all its data rows, with no warning. *)
Definition written_in_full (libs : Libs) (wb : Workbook) (st : State) (file : File) : Prop :=
  exists month st1 decoded parseResult,
    extractMonthFromFileName (name file) = Some month
    /\ clearOnce wb st month = inl st1
    /\ readCsvFile libs file = Ok decoded
    /\ Papa_parse libs SkipGreedy (text decoded) = Ok parseResult
    /\ (2 <= length (data parseResult))%nat
    /\ truncated (place (rowPtr_of st1 month) (data_rows parseResult)) = false
    /\ processFile libs wb st file =
         written_state st1 month file
           (place (rowPtr_of st1 month) (data_rows parseResult)).

(** A warning of the loop starts with the name of the file it is about. *)
Definition labelled (file : File) (w : string) : Prop :=
  exists rest : string, w = (file_label file ++ rest)%string.


(** The ways a turn of the loop can end. *)
Inductive Turn (libs : Libs) (wb : Workbook) (st : State) (file : File) : State -> Prop :=
| turn_rejected (w : string) :
    (* no key, no sheet, or the clear threw: nothing but a warning *)
    labelled file w ->
    Turn libs wb st file (warn st w)
| turn_skipped (month : string) (st1 : State) (w : string) :
    (* the sheet was there and cleared if need be; the file gave no rows *)
    labelled file w ->
    extractMonthFromFileName (name file) = Some month ->
    In month (worksheets wb) ->
    clearOnce wb st month = inl st1 ->
    (forall decoded parseResult,
        readCsvFile libs file = Ok decoded ->
        Papa_parse libs SkipGreedy (text decoded) = Ok parseResult ->
        (length (data parseResult) <= 1)%nat) ->
    Turn libs wb st file (warn st1 w)
| turn_write_failed (month : string) (st1 : State) decoded parseResult (e : Exn) :
    extractMonthFromFileName (name file) = Some month ->
    In month (worksheets wb) ->
    clearOnce wb st month = inl st1 ->
    readCsvFile libs file = Ok decoded ->
    Papa_parse libs SkipGreedy (text decoded) = Ok parseResult ->
    (2 <= length (data parseResult))%nat ->
    let p := place (rowPtr_of st1 month) (data_rows parseResult) in
    let st2 := if truncated p
               then warn st1 (file_label file ++ msg_truncated)%string else st1 in
    Excel_run wb (PutRows month (fileNameRowNum p)
                    (text_of_string (name file) :: repeat [] (MAX_COLS - 1))
                    (actualDataRows p)) = Some e ->
    Turn libs wb st file (caught st2 file e)
| turn_placed (month : string) (st1 : State) decoded parseResult :
    extractMonthFromFileName (name file) = Some month ->
    In month (worksheets wb) ->
    clearOnce wb st month = inl st1 ->
    readCsvFile libs file = Ok decoded ->
    Papa_parse libs SkipGreedy (text decoded) = Ok parseResult ->
    (2 <= length (data parseResult))%nat ->
    let p := place (rowPtr_of st1 month) (data_rows parseResult) in
    let st2 := if truncated p
               then warn st1 (file_label file ++ msg_truncated)%string else st1 in
    Excel_run wb (PutRows month (fileNameRowNum p)
                    (text_of_string (name file) :: repeat [] (MAX_COLS - 1))
                    (actualDataRows p)) = None ->
    Turn libs wb st file (written_state st2 month file p).


(** The libraries with a parser that reports no errors: the same rows, an
    empty [errors] list. *)
Definition without_parse_errors (libs : Libs) : Libs :=
  {| Encoding_Convert := Encoding_Convert libs;
     Encoding_codeToString := Encoding_codeToString libs;
     Papa_parse := fun mode t =>
       match Papa_parse libs mode t with
       | Ok r => Ok {| data := data r; errors := [] |}
       | Throw e => Throw e
       end |}.

(** The claim C5 in the part that fails: a file that the error message of
    the import names was not written. *)
Definition C5_only_failed_files_named : Prop :=
  forall (libs : Libs) (wb : Workbook) (files : list File) (file : File) (w : string),
    In file files ->
    In w (warnings (processFiles libs wb initial files)) ->
    labelled file w ->
    forall sheet row rows,
      ~ In (PutRows sheet row (text_of_string (name file) :: repeat [] (MAX_COLS - 1)) rows)
           (grid (processFiles libs wb initial files)).


(** The last write to a sheet among the batches of [calls]: the number of
    its file-name row, that row, and its data rows. *)
Fixpoint last_put (calls : list HostCall) (sheet : string)
    (acc : option (Z * list Text * list (list Text)))
  : option (Z * list Text * list (list Text)) :=
  match calls with
  | [] => acc
  | ClearRange _ :: calls' => last_put calls' sheet acc
  | PutRows s r fileNameRow rows :: calls' =>
      last_put calls' sheet
        (if String.eqb s sheet then Some (r, fileNameRow, rows) else acc)
  end.

(** The last row a write reached: its last data row, or its file-name row
    when it had no data row. *)
Definition bottom_row (fileNameRow : list Text) (rows : list (list Text)) : list Text :=
  match last rows with
  | Some dataRow => dataRow
  | None => fileNameRow
  end.

(** The row pointer of a sheet stands on the last row of the last write to
    the sheet, and that row still holds what the write put there; a sheet
    not cleared yet has no write. *)
Definition pointer_on_last_write (st : State) : Prop :=
  (forall k, not_cleared st k = true -> last_put (grid st) k None = None)
  /\ forall k v, sheetRowPtr st !! k = Some v ->
       match last_put (grid st) k None with
       | None => v = 4
       | Some (r, fileNameRow, rows) =>
           v = r + Z.of_nat (length rows) /\ 4 <= r
           /\ row_content (grid st) k v None = Some (bottom_row fileNameRow rows)
       end.

(** The claim C9 as the specification words it: a file with data rows that
    comes to a key whose row pointer is 200 finds in row 200 the last data
    row written by the file before it on that sheet. *)
Definition C9_overwrites_data_row : Prop :=
  forall (libs : Libs) (wb : Workbook) (earlier : list File) (file : File)
         (month : string) (decoded : Decoded) (parseResult : ParseResult),
    let st := processFiles libs wb initial earlier in
    sheetRowPtr st !! month = Some MAX_ROW ->
    extractMonthFromFileName (name file) = Some month ->
    readCsvFile libs file = Ok decoded ->
    Papa_parse libs SkipGreedy (text decoded) = Ok parseResult ->
    (2 <= length (data parseResult))%nat ->
    exists r prevNameRow rows dataRow,
      last_put (grid st) month None = Some (r, prevNameRow, rows)
      /\ last rows = Some dataRow
      /\ row_content (grid st) month MAX_ROW None = Some dataRow.

(** ** Sample collaborators and inputs, used to run the importer *)

(** A Shift-JIS converter that hands back the bytes as codes, and a parser
    that splits at line feeds and commas. *)
Fixpoint split_at (sep : Z) (t : Text) (cur : Text) : list Text :=
  match t with
  | [] => [cur]
  | c :: t' => if c =? sep then cur :: split_at sep t' [] else split_at sep t' (cur ++ [c])
  end.

Definition sample_parse (_ : SkipEmptyLines) (t : Text) : result ParseResult :=
  let lines := List.filter (fun l => negb (length l =? 0)%nat) (split_at 10 t []) in
  Ok {| data := List.map (fun l => split_at 44 l []) lines; errors := [] |}.

Definition sample_libs : Libs :=
  {| Encoding_Convert := fun b => Ok (ResCodes b);
     Encoding_codeToString := fun codes => codes;
     Papa_parse := sample_parse |}.

(** The same, with a Shift-JIS module that cannot be loaded. *)
Definition load_error : Exn :=
  ErrorObj "TypeError" "Failed to fetch dynamically imported module".

Definition failing_libs : Libs :=
  {| Encoding_Convert := fun _ => Throw load_error;
     Encoding_codeToString := fun codes => codes;
     Papa_parse := sample_parse |}.

(** A workbook with the sheets 6 and 7 whose host carries every batch out. *)
Definition sample_workbook : Workbook :=
  {| worksheets := ["6"; "7"]; Excel_run := fun _ => None |}.

(** A file of one header line and [n] data lines ["a,b"]. *)
Definition lines_file (fileName : string) (n : nat) : File :=
  {| name := fileName;
     bytes := [104; 49; 44; 104; 50] ++ concat (repeat [10; 97; 44; 98] n) |}.

(** What [lines_file] decodes and parses to with the sample libraries. *)
Definition lines_decoded (n : nat) : Decoded :=
  {| text := [104; 49; 44; 104; 50] ++ concat (repeat [10; 97; 44; 98] n);
     encoding := "UTF-8" |}.

Definition lines_parsed (n : nat) : ParseResult :=
  {| data := [[104; 49]; [104; 50]] :: repeat [[97]; [98]] n; errors := [] |}.

(** ** What the runtime can refuse

    Three steps of the importers can throw for reasons of their own: the
    read of the chosen file, the conversion of an array of codes to a
    string, and a call that spreads an array into its arguments, which
    throws a [RangeError] past the limit of the engine.  Each is given as
    the error thrown, if any. *)
Record Runtime : Type := {
  (** [await file.arrayBuffer()] *)
  arrayBuffer_rejects : File -> option Exn;
  (** [Encoding.codeToString(codes)] *)
  codeToString_throws : list Z -> option Exn;
  (** [f(...args)] with that many arguments *)
  spread_throws : nat -> option Exn;
}.

(** [readCsvFile], lines 60-92 of [importer.ts], with the read of the file
    (line 61) and [codeToString] (line 85) able to throw. *)
Definition readCsvFile_in (rt : Runtime) (libs : Libs) (file : File) : result Decoded :=
  match arrayBuffer_rejects rt file with
  | Some e => Throw e
  | None =>
      let uint8Array := bytes file in
      if has_bom uint8Array then
        match TextDecoder_decode false (drop 3 uint8Array) with
        | Some t => Ok {| text := t; encoding := "UTF-8" |}
        | None => Throw (ErrorObj "TypeError" "The encoded data was not valid.")
        end
      else
        match TextDecoder_decode true uint8Array with
        | Some t => Ok {| text := t; encoding := "UTF-8" |}
        | None =>
            match Encoding_Convert libs uint8Array with
            | Throw e => Throw e
            | Ok (ResString s) => Ok {| text := s; encoding := "SJIS" |}
            | Ok (ResCodes codes) =>
                match codeToString_throws rt codes with
                | Some e => Throw e
                | None =>
                    Ok {| text := Encoding_codeToString libs codes; encoding := "SJIS" |}
                end
            end
        end
  end.

(** ** The ribbon importer ([public/csv-import.js])

    The third copy of the single-file import.  It settles the encoding like
    the other two, except that a failure of the Shift-JIS conversion is
    answered by decoding as UTF-8 without the fatal flag; and it parses the
    text itself, by splitting at line ends and commas. *)

Module Ribbon.

(** [getColumnName], lines 9-18: the same text as in [importer.ts]. *)
Definition getColumnName (colIndex : Z) : string := Simple.getColumnName colIndex.

(** Lines 86-127. *)
Definition decode (libs : Libs) (uint8Array : Bytes) : result Decoded :=
  if has_bom uint8Array then
    match TextDecoder_decode false (drop 3 uint8Array) with
    | Some t => Ok {| text := t; encoding := "UTF-8" |}
    | None => Throw (ErrorObj "TypeError" "The encoded data was not valid.")
    end
  else
    match TextDecoder_decode true uint8Array with
    | Some t => Ok {| text := t; encoding := "UTF-8" |}
    | None =>
        match Encoding_Convert libs uint8Array with
        | Ok (ResString s) => Ok {| text := s; encoding := "SJIS" |}
        | Ok (ResCodes codes) =>
            Ok {| text := Encoding_codeToString libs codes; encoding := "SJIS" |}
        | Throw sjisError =>
            match TextDecoder_decode false uint8Array with
            | Some t => Ok {| text := t; encoding := "UTF-8 (強制)" |}
            | None => Throw (ErrorObj "TypeError" "The encoded data was not valid.")
            end
        end
    end.

(** The characters [String.prototype.trim] removes: white space and line
    terminators of ECMAScript. *)
Definition is_white (c : Z) : bool :=
  in_range 0x9 0xD c || (c =? 0x20) || (c =? 0xA0) || (c =? 0x1680)
  || in_range 0x2000 0x200A c || (c =? 0x2028) || (c =? 0x2029)
  || (c =? 0x202F) || (c =? 0x205F) || (c =? 0x3000) || (c =? 0xFEFF).

Fixpoint drop_white (t : Text) : Text :=
  match t with
  | c :: t' => if is_white c then drop_white t' else t
  | [] => []
  end.

(** [s.trim()] *)
Definition js_trim (t : Text) : Text :=
  rev (drop_white (rev (drop_white t))).

(** [line.split(',')]: the pieces between the separators, [cur] being the
    piece under way. *)
Fixpoint split_char (sep : Z) (t : Text) (cur : Text) : list Text :=
  match t with
  | [] => [cur]
  | c :: t' =>
      if c =? sep then cur :: split_char sep t' []
      else split_char sep t' (cur ++ [c])
  end.

(** A piece that ends before a line feed loses the carriage return the
    pattern [\r?\n] takes with it. *)
Definition strip_cr (piece : Text) : Text :=
  match rev piece with
  | c :: r => if c =? 13 then rev r else piece
  | [] => piece
  end.

(** [text.split(/\r?\n/)] *)
Fixpoint split_lines (t : Text) (cur : Text) : list Text :=
  match t with
  | [] => [cur]
  | c :: t' =>
      if c =? 10 then strip_cr cur :: split_lines t' []
      else split_lines t' (cur ++ [c])
  end.

(** [cell.replace(/^"|"$/g, '')]: a quote at the head and a quote at the
    tail are removed. *)
Definition strip_quotes (t : Text) : Text :=
  let t1 := match t with
            | c :: r => if c =? 34 then r else t
            | [] => t
            end in
  match rev t1 with
  | c :: r => if c =? 34 then rev r else t1
  | [] => t1
  end.

Definition parse_line (line : Text) : list Text :=
  List.map (fun cell => strip_quotes (js_trim cell)) (split_char 44 line []).

(** Lines 132-140: blank lines are skipped, the others are cut at commas. *)
Definition parse (text : Text) : list (list Text) :=
  List.map parse_line
    (List.filter (fun line => negb (length (js_trim line) =? 0)%nat)
                 (split_lines text [])).

(** Lines 86-127 with [codeToString] able to throw: the inner [catch]
    (lines 119-125) answers it like a failure of the conversion. *)
Definition decode_in (rt : Runtime) (libs : Libs) (uint8Array : Bytes) : result Decoded :=
  if has_bom uint8Array then
    match TextDecoder_decode false (drop 3 uint8Array) with
    | Some t => Ok {| text := t; encoding := "UTF-8" |}
    | None => Throw (ErrorObj "TypeError" "The encoded data was not valid.")
    end
  else
    match TextDecoder_decode true uint8Array with
    | Some t => Ok {| text := t; encoding := "UTF-8" |}
    | None =>
        let forced :=
          match TextDecoder_decode false uint8Array with
          | Some t => Ok {| text := t; encoding := "UTF-8 (強制)" |}
          | None => Throw (ErrorObj "TypeError" "The encoded data was not valid.")
          end in
        match Encoding_Convert libs uint8Array with
        | Ok (ResString s) => Ok {| text := s; encoding := "SJIS" |}
        | Ok (ResCodes codes) =>
            match codeToString_throws rt codes with
            | Some sjisError => forced
            | None =>
                Ok {| text := Encoding_codeToString libs codes; encoding := "SJIS" |}
            end
        | Throw sjisError => forced
        end
    end.

(** [importCsvFromRibbon], lines 21-193, from the moment the file dialog
    settles.  The [catch] throws the error again as it is. *)
Definition importCsvFromRibbon (rt : Runtime) (libs : Libs)
    (Excel_run : Simple.TableWrite -> option Exn)
    (selection : result File) : result Simple.TableWrite :=
  match selection with
  | Throw e => Throw e
  | Ok file =>
  match arrayBuffer_rejects rt file with
  | Some e => Throw e
  | None =>
  match decode_in rt libs (bytes file) with
  | Throw e => Throw e
  | Ok decoded =>
  let rows := parse (text decoded) in
  if (length rows =? 0)%nat then Throw (new_Error "CSVファイルが空です") else
  (* [Math.max(...rows.map(row => row.length), 0)], line 149 *)
  match spread_throws rt (S (length rows)) with
  | Some e => Throw e
  | None =>
  let colCount := fold_right Z.max 0 (List.map (fun row => Z.of_nat (length row)) rows) in
  let rowCount := Z.of_nat (length rows) in
  let rangeAddress :=
    ("A1:" ++ getColumnName (colCount - 1) ++ Number_toString rowCount)%string in
  let values :=
    List.map (fun row => List.map (fun i => or_empty (nth i row []))
                                  (seq 0 (Z.to_nat colCount))) rows in
  let w := {| Simple.rangeAddress := rangeAddress; Simple.values := values |} in
  match Excel_run w with
  | Some e => Throw e
  | None => Ok w
  end end end end end.

End Ribbon.

(** ** The feature registry (the module [features/feature-registry] that
    [App.tsx] imports) *)

Module Registry.

Inductive FeatureCategory : Type :=
| sheet
| text
| search
| csv.

Definition category_eqb (a b : FeatureCategory) : bool :=
  match a, b with
  | sheet, sheet | text, text | search, search | csv, csv => true
  | _, _ => false
  end.

(** A feature; [E] is the type of what [execute] holds. *)
Record Feature (E : Type) : Type := {
  id : string;
  name : string;
  category : FeatureCategory;
  description : string;
  execute : E;
}.
Arguments id {E} _.
Arguments name {E} _.
Arguments category {E} _.
Arguments description {E} _.
Arguments execute {E} _.

(** [array.findIndex(pred)]: the first index that satisfies [pred], or -1. *)
Fixpoint findIndex {A : Type} (pred : A -> bool) (l : list A) : Z :=
  match l with
  | [] => -1
  | x :: l' =>
      if pred x then 0
      else let i := findIndex pred l' in
           if i <? 0 then -1 else i + 1
  end.

(** [registerFeature]: the registry array before and after. *)
Definition registerFeature {E : Type} (feature : Feature E)
    (features : list (Feature E)) : list (Feature E) :=
  let existingIndex := findIndex (fun f => String.eqb (id f) (id feature)) features in
  if 0 <=? existingIndex
  then <[Z.to_nat existingIndex := feature]> features
  else features ++ [feature].

(** The loop of [getFeaturesByCategory]: [seenIds] and [result] as they
    stand, over the features still to visit. *)
Fixpoint collect {E : Type} (features : list (Feature E)) (seenIds : gset string)
    (result : FeatureCategory -> list (Feature E)) : FeatureCategory -> list (Feature E) :=
  match features with
  | [] => result
  | feature :: rest =>
      if decide (id feature ∈ seenIds) then collect rest seenIds result
      else collect rest ({[id feature]} ∪ seenIds)
             (fun c => if category_eqb c (category feature)
                       then result c ++ [feature] else result c)
  end.

Definition getFeaturesByCategory {E : Type} (features : list (Feature E))
    : FeatureCategory -> list (Feature E) :=
  collect features ∅ (fun _ => []).

(** [getAllFeatures]: a copy of the array. *)
Definition getAllFeatures {E : Type} (features : list (Feature E)) : list (Feature E) :=
  features.

End Registry.

(** ** Notions the further statements use *)

(** The number a column name stands for: A is 1, Z is 26, AA is 27. *)
Fixpoint column_number (s : string) (acc : Z) : Z :=
  match s with
  | EmptyString => acc
  | String c s' => column_number s' (26 * acc + (Z.of_nat (nat_of_ascii c) - 64))
  end.

Definition is_upper (c : ascii) : bool :=
  (65 <=? nat_of_ascii c)%nat && (nat_of_ascii c <=? 90)%nat.

(** The batches of a log come in order: a sheet is cleared at most once,
    and written only after it was cleared. *)
Definition clears_first (calls : list HostCall) : Prop :=
  forall pre c post, calls = pre ++ c :: post ->
    match c with
    | ClearRange s => ~ In (ClearRange s) pre
    | PutRows s _ _ _ => In (ClearRange s) pre
    end.

(** Every row of every write has the twelve cells of columns A to L. *)
Definition twelve_wide (c : HostCall) : Prop :=
  match c with
  | ClearRange _ => True
  | PutRows _ _ fileNameRow rows =>
      length fileNameRow = MAX_COLS /\ Forall (fun r => length r = MAX_COLS) rows
  end.

(** The registry after a run of calls of [registerFeature], from the empty
    array the module starts with. *)
Definition registerAll {E : Type} (calls : list (Registry.Feature E))
    : list (Registry.Feature E) :=
  fold_left (fun features feature => Registry.registerFeature feature features) calls [].

(** The part of the state a file can see: the entries of its own sheet,
    with no warnings and no batches yet. *)
Definition own_view (k : string) (st : State) : State :=
  {| sheetRowPtr := match sheetRowPtr st !! k with
                    | Some v => {[k := v]}
                    | None => ∅
                    end;
     sheetCleared := match sheetCleared st !! k with
                     | Some b => {[k := b]}
                     | None => ∅
                     end;
     warnings := [];
     grid := [] |}.

(** The state [st] after the changes [r] made on a view of it. *)
Definition merged (st r : State) : State :=
  {| sheetRowPtr := sheetRowPtr r ∪ sheetRowPtr st;
     sheetCleared := sheetCleared r ∪ sheetCleared st;
     warnings := warnings st ++ warnings r;
     grid := grid st ++ grid r |}.

(** The sheet a file is for; the empty name when it has none. *)
Definition key_of (file : File) : string :=
  default "" (extractMonthFromFileName (name file)).

Definition on_sheet (k : string) (c : HostCall) : Prop :=
  match c with
  | ClearRange s => s = k
  | PutRows s _ _ _ => s = k
  end.

(** ** Full width to half width ([toHankaku], the module [features/text/convert]
    that [App.tsx] imports) *)

Module Hankaku.

(** A cell of a range: a string, or a value of another kind (number,
    boolean, null), which the conversion passes on. *)
Inductive CellValue (V : Type) : Type :=
| CellString (s : Text)
| CellOther (v : V).
Arguments CellString {V} s.
Arguments CellOther {V} v.

(** The callback of [replace(/[！-～]/g, ...)]: the class holds U+FF01 to
    U+FF5E, and the callback tests the same bounds again. *)
Definition shift_ascii (c : Z) : Z :=
  if in_range 0xFF01 0xFF5E c then
    let code := c in
    if (0xFF01 <=? code) && (code <=? 0xFF5E) then code - 0xFEE0 else c
  else c.

(** [replace(/　/g, ' ')]: the ideographic space U+3000. *)
Definition narrow_space (c : Z) : Z := if c =? 0x3000 then 0x20 else c.

(** [kanaMap], in the order of the source: the plain katakana, the small
    ones, then the voiced and half-voiced ones with their marks. *)
Definition kanaMap : list (Z * Text) :=
  [(0x30A2, [0xFF71]); (0x30A4, [0xFF72]); (0x30A6, [0xFF73]); (0x30A8, [0xFF74]);
   (0x30AA, [0xFF75]); (0x30AB, [0xFF76]); (0x30AD, [0xFF77]); (0x30AF, [0xFF78]);
   (0x30B1, [0xFF79]); (0x30B3, [0xFF7A]); (0x30B5, [0xFF7B]); (0x30B7, [0xFF7C]);
   (0x30B9, [0xFF7D]); (0x30BB, [0xFF7E]); (0x30BD, [0xFF7F]); (0x30BF, [0xFF80]);
   (0x30C1, [0xFF81]); (0x30C4, [0xFF82]); (0x30C6, [0xFF83]); (0x30C8, [0xFF84]);
   (0x30CA, [0xFF85]); (0x30CB, [0xFF86]); (0x30CC, [0xFF87]); (0x30CD, [0xFF88]);
   (0x30CE, [0xFF89]); (0x30CF, [0xFF8A]); (0x30D2, [0xFF8B]); (0x30D5, [0xFF8C]);
   (0x30D8, [0xFF8D]); (0x30DB, [0xFF8E]); (0x30DE, [0xFF8F]); (0x30DF, [0xFF90]);
   (0x30E0, [0xFF91]); (0x30E1, [0xFF92]); (0x30E2, [0xFF93]); (0x30E4, [0xFF94]);
   (0x30E6, [0xFF95]); (0x30E8, [0xFF96]); (0x30E9, [0xFF97]); (0x30EA, [0xFF98]);
   (0x30EB, [0xFF99]); (0x30EC, [0xFF9A]); (0x30ED, [0xFF9B]); (0x30EF, [0xFF9C]);
   (0x30F2, [0xFF66]); (0x30F3, [0xFF9D]); (0x30A1, [0xFF67]); (0x30A3, [0xFF68]);
   (0x30A5, [0xFF69]); (0x30A7, [0xFF6A]); (0x30A9, [0xFF6B]); (0x30C3, [0xFF6F]);
   (0x30E3, [0xFF6C]); (0x30E5, [0xFF6D]); (0x30E7, [0xFF6E]);
   (0x30AC, [0xFF76; 0xFF9E]); (0x30AE, [0xFF77; 0xFF9E]); (0x30B0, [0xFF78; 0xFF9E]);
   (0x30B2, [0xFF79; 0xFF9E]); (0x30B4, [0xFF7A; 0xFF9E]); (0x30B6, [0xFF7B; 0xFF9E]);
   (0x30B8, [0xFF7C; 0xFF9E]); (0x30BA, [0xFF7D; 0xFF9E]); (0x30BC, [0xFF7E; 0xFF9E]);
   (0x30BE, [0xFF7F; 0xFF9E]); (0x30C0, [0xFF80; 0xFF9E]); (0x30C2, [0xFF81; 0xFF9E]);
   (0x30C5, [0xFF82; 0xFF9E]); (0x30C7, [0xFF83; 0xFF9E]); (0x30C9, [0xFF84; 0xFF9E]);
   (0x30D0, [0xFF8A; 0xFF9E]); (0x30D3, [0xFF8B; 0xFF9E]); (0x30D6, [0xFF8C; 0xFF9E]);
   (0x30D9, [0xFF8D; 0xFF9E]); (0x30DC, [0xFF8E; 0xFF9E]);
   (0x30D1, [0xFF8A; 0xFF9F]); (0x30D4, [0xFF8B; 0xFF9F]); (0x30D7, [0xFF8C; 0xFF9F]);
   (0x30DA, [0xFF8D; 0xFF9F]); (0x30DD, [0xFF8E; 0xFF9F]);
   (0x30F4, [0xFF73; 0xFF9E])].

(** [s.replace(new RegExp(zenkaku, 'g'), hankaku)] for a one-character
    [zenkaku]. *)
Definition replace_all (zenkaku : Z) (hankaku : Text) (s : Text) : Text :=
  flat_map (fun c => if c =? zenkaku then hankaku else [c]) s.

(** The conversion of one string cell, lines 161-203. *)
Definition convert (cell : Text) : Text :=
  let converted := List.map shift_ascii cell in
  let converted := List.map narrow_space converted in
  fold_left (fun converted entry => replace_all (fst entry) (snd entry) converted)
            kanaMap converted.

(** The values written back, lines 153-211. *)
Definition toHankaku {V : Type} (values : list (list (CellValue V)))
    : list (list (CellValue V)) :=
  List.map (List.map (fun cell =>
                        match cell with
                        | CellString s => CellString (convert s)
                        | CellOther v => CellOther v
                        end)) values.

End Hankaku.

(** The first entry of a table with the key [c]. *)
Fixpoint assoc (c : Z) (table : list (Z * Text)) : option Text :=
  match table with
  | [] => None
  | (z, h) :: rest => if c =? z then Some h else assoc c rest
  end.

(** What the conversion makes of one character, taken alone. *)
Definition convert_char (c : Z) : Text :=
  if in_range 0xFF01 0xFF5E c then [c - 0xFEE0]
  else if c =? 0x3000 then [0x20]
  else match assoc c Hankaku.kanaMap with
       | Some h => h
       | None => [c]
       end.

(** * Sheet operations

    [src/features/sheet/category-auto-set.ts] holds two documents: the
    consumption category setter (lines 1-138) and the blank row remover
    (lines 141-208).  Both read a block of cells of a worksheet in one go,
    decide in memory and queue their changes; the worksheet is the state
    they pass on. *)

(** A cell value as Office.js hands it over:
    [string | number | boolean | null]. *)
Inductive Cell (Num : Type) : Type :=
| CNull
| CString (s : Text)
| CNumber (n : Num)
| CBoolean (b : bool).
Arguments CNull {Num}.
Arguments CString {Num} s.
Arguments CNumber {Num} n.
Arguments CBoolean {Num} b.

(** The cells of a worksheet, by zero-based row and column index. *)
Definition Sheet (Num : Type) : Type := Z -> Z -> Cell Num.

(** [range.values] of the block of [rowCount] by [columnCount] cells whose
    first cell is at ([rowIndex], [columnIndex]). *)
Definition range_values {Num : Type} (sheet : Sheet Num)
    (rowIndex columnIndex rowCount columnCount : Z) : list (list (Cell Num)) :=
  List.map (fun i => List.map (fun j => sheet (rowIndex + i) (columnIndex + j))
                              (seqZ 0 columnCount))
           (seqZ 0 rowCount).

Module BlankOps.
Section Blank.
Context {Num : Type}.

(** [row.every(cell => cell === null || cell === '' || cell === undefined)],
    line 176; a loaded value is never [undefined]. *)
Definition isEmpty (row : list (Cell Num)) : bool :=
  forallb (fun cell => match cell with
                       | CNull => true
                       | CString [] => true
                       | _ => false
                       end) row.

(** The loop of lines 173-180, from index [i] on. *)
Fixpoint blankRowIndices_from (i : Z) (values : list (list (Cell Num))) : list Z :=
  match values with
  | [] => []
  | row :: rest =>
      if isEmpty row then i :: blankRowIndices_from (i + 1) rest
      else blankRowIndices_from (i + 1) rest
  end.

Definition blankRowIndices (values : list (list (Cell Num))) : list Z :=
  blankRowIndices_from 0 values.

(** [sheet.getRangeByIndexes(row, col, rowCount, colCount)
      .delete(Excel.DeleteShiftDirection.up)]: in the columns of the range,
    the cells below it move up by its height; the other columns stay. *)
Definition delete_up (sheet : Sheet Num) (row col rowCount colCount : Z) : Sheet Num :=
  fun r c =>
    if (col <=? c) && (c <? col + colCount) && (row <=? r)
    then sheet (r + rowCount) c
    else sheet r c.

(** The selected range, as loaded at line 155. *)
Record Selection : Type := {
  rowIndex : Z;
  rowCount : Z;
  columnIndex : Z;
  columnCount : Z
}.

(** Lines 153-202, the batch run to its end: the worksheet after it. *)
Definition removeBlankRowsInSelection (range : Selection) (sheet : Sheet Num) : Sheet Num :=
  let startRow := rowIndex range in
  let startCol := columnIndex range in
  let colCount := columnCount range in
  let values := range_values sheet startRow startCol (rowCount range) colCount in
  let blankRowIndices := blankRowIndices values in
  if (length blankRowIndices =? 0)%nat then sheet
  else
    fold_left (fun sheet relativeRowIndex =>
                 let actualRowIndex := startRow + relativeRowIndex in
                 delete_up sheet actualRowIndex startCol 1 colCount)
              (rev blankRowIndices) sheet.

End Blank.
End BlankOps.

Module Category.

(** A JavaScript [Map] from keyword to type: its entries in the order the
    keys were first set. *)
Definition ConsumptionMap : Type := list (Text * Text).

Fixpoint text_eqb (a b : Text) : bool :=
  match a, b with
  | [], [] => true
  | x :: a', y :: b' => (x =? y) && text_eqb a' b'
  | _, _ => false
  end.

(** [map.set(key, value)]: a key already there keeps its place and takes
    the new value. *)
Fixpoint Map_set (key value : Text) (m : ConsumptionMap) : ConsumptionMap :=
  match m with
  | [] => [(key, value)]
  | (k, v) :: rest =>
      if text_eqb k key then (k, value) :: rest
      else (k, v) :: Map_set key value rest
  end.

(** A row of [type.csv] parsed with [header: true]: a field is [undefined]
    when the row or the header lacks it. *)
Record CsvRow : Type := {
  keyword : option Text;
  type : option Text
}.

(** Truthiness of [row.keyword] and [row.type]. *)
Definition truthy (field : option Text) : bool :=
  match field with
  | Some (_ :: _) => true
  | _ => false
  end.

Definition field_text (field : option Text) : Text :=
  match field with
  | Some t => t
  | None => []
  end.

(** Lines 32-38. *)
Definition buildMap (data : list CsvRow) : ConsumptionMap :=
  fold_left (fun consumptionMap row =>
               if truthy (keyword row) && truthy (type row)
               then Map_set (Ribbon.js_trim (field_text (keyword row)))
                            (Ribbon.js_trim (field_text (type row))) consumptionMap
               else consumptionMap)
            data [].

(** The answer of [fetch('/type.csv')]. *)
Record Response : Type := {
  ok : bool;
  text : result Text
}.

(** What the setter takes from outside: the fetch, the dynamic import of
    the parser with its [Papa.parse(text, {header: true, ...}).data], and
    whether the batch handed to [Excel.run] fails. *)
Record Env : Type := {
  fetch : result Response;
  Papa_default : result (Text -> list CsvRow);
  Excel_run : option Exn
}.

Definition msg_load : string := "type.csvの読み込みに失敗しました".
Definition msg_no_mapping : string := "type.csvに有効なマッピングがありません".
Definition msg_failed : string := "消費種類の自動設定に失敗しました".

(** The [catch] of lines 42-45. *)
Definition load_failed {A : Type} (error : Exn) : result A :=
  Throw (new_Error (msg_load ++ ": " ++ errorMessage error)%string).

(** [loadConsumptionMap], lines 13-46. *)
Definition loadConsumptionMap (env : Env) : result ConsumptionMap :=
  match fetch env with
  | Throw e => load_failed e
  | Ok response =>
      if negb (ok response) then load_failed (new_Error msg_load)
      else
        match text response with
        | Throw e => load_failed e
        | Ok text =>
            match Papa_default env with
            | Throw e => load_failed e
            | Ok parse => Ok (buildMap (parse text))
            end
        end
  end.

Fixpoint text_starts_with (p s : Text) : bool :=
  match p, s with
  | [], _ => true
  | x :: p', y :: s' => (x =? y) && text_starts_with p' s'
  | _ :: _, [] => false
  end.

(** [s.includes(keyword)] *)
Fixpoint includes (s keyword : Text) : bool :=
  text_starts_with keyword s
  || match s with
     | [] => false
     | _ :: s' => includes s' keyword
     end.

(** The loop of lines 108-114: the type of the first keyword, in the order
    of the map, that the value holds. *)
Fixpoint matchedType (bValue : Text) (entries : ConsumptionMap) : option Text :=
  match entries with
  | [] => None
  | (keyword, type) :: rest =>
      if includes bValue keyword then Some type else matchedType bValue rest
  end.

Section Setter.
Context {Num : Type}.
(** Truthiness of a number and its [String(...)]. *)
Variable Number_truthy : Num -> bool.
Variable Number_toString : Num -> Text.

(** [String(cell || '')], line 97. *)
Definition String_or_empty (cell : Cell Num) : Text :=
  match cell with
  | CNull => []
  | CString s => s
  | CNumber n => if Number_truthy n then Number_toString n else []
  | CBoolean b => if b then text_of_string "true" else []
  end.

(** One turn of the loop of lines 96-122: the new value of the K cell and
    whether a keyword matched. *)
Definition classify (consumptionMap : ConsumptionMap) (b currentKValue : Cell Num)
  : Cell Num * bool :=
  let bValue := Ribbon.js_trim (String_or_empty b) in
  match bValue with
  | [] => (currentKValue, false)
  | _ :: _ =>
      match matchedType bValue consumptionMap with
      | Some type => (CString type, true)
      | None => (currentKValue, false)
      end
  end.

(** The values of a column over the rows numbered [startRow] to [endRow]
    in the address, which counts rows from one: [sheet.getRange(`B4:B9`)]. *)
Definition column_values (sheet : Sheet Num) (col startRow endRow : Z) : list (Cell Num) :=
  List.map (fun n => sheet (n - 1) col) (seqZ startRow (endRow - startRow + 1)).

(** [range.values = newValues] on such a column. *)
Definition write_column (sheet : Sheet Num) (col startRow : Z) (newValues : list (Cell Num))
  : Sheet Num :=
  fun r c =>
    if (c =? col) && (startRow - 1 <=? r) then
      match newValues !! Z.to_nat (r - (startRow - 1)) with
      | Some v => v
      | None => sheet r c
      end
    else sheet r c.

Definition column_B : Z := 1.
Definition column_K : Z := 10.

(** The batch of lines 63-132, for a used range that starts at the
    zero-based row [rowIndex] and has [rowCount] rows. *)
Definition batch (consumptionMap : ConsumptionMap) (rowIndex rowCount : Z)
    (sheet : Sheet Num) : Sheet Num :=
  let startRow := 4 in
  let endRow := rowIndex + rowCount - 1 in
  if endRow <? startRow then sheet
  else
    let bValues := column_values sheet column_B startRow endRow in
    let kValues := column_values sheet column_K startRow endRow in
    let turns := List.map (fun bk => classify consumptionMap (fst bk) (snd bk))
                          (combine bValues kValues) in
    let newKValues := List.map fst turns in
    let matchedCount := Z.of_nat (length (List.filter snd turns)) in
    if 0 <? matchedCount then write_column sheet column_K startRow newKValues
    else sheet.

(** The [catch] of lines 133-137. *)
Definition set_failed {A : Type} (error : Exn) : result A :=
  Throw (new_Error (msg_failed ++ ": " ++ errorMessage error)%string).

(** [setConsumptionCategory], lines 52-138. *)
Definition setConsumptionCategory (env : Env) (rowIndex rowCount : Z)
    (sheet : Sheet Num) : result (Sheet Num) :=
  match loadConsumptionMap env with
  | Throw e => set_failed e
  | Ok consumptionMap =>
      if (length consumptionMap =? 0)%nat then set_failed (new_Error msg_no_mapping)
      else
        match Excel_run env with
        | Some e => set_failed e
        | None => Ok (batch consumptionMap rowIndex rowCount sheet)
        end
  end.

End Setter.
End Category.

(** * Notions used in the statements on the other operations *)

(** The log is in order, and it holds the clear of exactly the sheets marked
    cleared. *)
Definition log_ok (st : State) : Prop :=
  clears_first (grid st)
  /\ forall s, In (ClearRange s) (grid st) <-> not_cleared st s = false.

(** One replacement of the table of [toHankaku]. *)
Definition kana_step (converted : Text) (entry : Z * Text) : Text :=
  Hankaku.replace_all (fst entry) (snd entry) converted.

(** The block of the full-width katakana. *)
Definition in_kana_block (c : Z) : bool := in_range 0x30A1 0x30F4 c.

(** A character the conversion leaves as it is. *)
Definition settled (c : Z) : Prop := convert_char c = [c].

(** The row that ends at place [k] when the rows flagged in [flags] are
    taken out and the others move up. *)
Fixpoint src_pos (flags : list bool) (k : nat) : nat :=
  match flags with
  | [] => k
  | true :: flags' => S (src_pos flags' k)
  | false :: flags' =>
      match k with
      | O => O
      | S k' => S (src_pos flags' k')
      end
  end.

Definition not_blank {Num : Type} (row : list (Cell Num)) : bool := negb (BlankOps.isEmpty row).

Definition delete_row {Num : Type} (startRow startCol colCount : Z) (sheet : Sheet Num)
    (relativeRowIndex : Z) : Sheet Num :=
  BlankOps.delete_up sheet (startRow + relativeRowIndex) startCol 1 colCount.

(** [map.get(key)] *)
Fixpoint Map_get (key : Text) (m : Category.ConsumptionMap) : option Text :=
  match m with
  | [] => None
  | (k, v) :: rest => if Category.text_eqb k key then Some v else Map_get key rest
  end.

(** A row of [type.csv] that enters the map. *)
Definition usable (row : Category.CsvRow) : bool :=
  Category.truthy (Category.keyword row) && Category.truthy (Category.type row).

Definition key_of_row (row : Category.CsvRow) : Text :=
  Ribbon.js_trim (Category.field_text (Category.keyword row)).

Definition type_of_row (row : Category.CsvRow) : Text :=
  Ribbon.js_trim (Category.field_text (Category.type row)).

(** One turn of the loop of [loadConsumptionMap]. *)
Definition map_step (consumptionMap : Category.ConsumptionMap) (row : Category.CsvRow)
  : Category.ConsumptionMap :=
  if usable row then Category.Map_set (key_of_row row) (type_of_row row) consumptionMap
  else consumptionMap.


(** The lines of a text that are not blank, counted on the text itself: a
    line ends at a line feed, and is blank when every character of it is
    white space.  [seen] tells whether the line under way has shown a
    character that is not white space. *)
Fixpoint nonblank_lines (t : Text) (seen : bool) : nat :=
  match t with
  | [] => if seen then 1 else 0
  | c :: t' =>
      if c =? 10 then ((if seen then 1 else 0) + nonblank_lines t' false)%nat
      else nonblank_lines t' (seen || negb (Ribbon.is_white c))
  end.
(** *** Facts about the string helpers *)

Lemma is_digit_parse (c : ascii) (s : string) :
  is_digit c = true -> parseInt (String c s) = digits_prefix (String c s) None.
Proof.
  destruct c as [[] [] [] [] [] [] [] []]; intros H; try discriminate H; reflexivity.
Qed.

Lemma digit_value_range (c : ascii) :
  is_digit c = true -> 0 <= digit_value c <= 9.
Proof.
  unfold is_digit, digit_value. intros H.
  apply andb_true_iff in H as [H1 H2].
  apply Nat.leb_le in H1, H2. lia.
Qed.

Lemma parseInt_2 (a b : ascii) :
  is_digit a = true -> is_digit b = true ->
  parseInt (String a (String b EmptyString)) = Some (10 * digit_value a + digit_value b).
Proof.
  intros Ha Hb. rewrite is_digit_parse by assumption.
  simpl. rewrite Ha, Hb. f_equal; lia.
Qed.

Lemma parseInt_4 (a b c d : ascii) :
  is_digit a = true -> is_digit b = true -> is_digit c = true -> is_digit d = true ->
  parseInt (String a (String b (String c (String d EmptyString)))) =
  Some (1000 * digit_value a + 100 * digit_value b + 10 * digit_value c + digit_value d).
Proof.
  intros Ha Hb Hc Hd. rewrite is_digit_parse by assumption.
  simpl. rewrite Ha, Hb, Hc, Hd. f_equal; lia.
Qed.

Lemma prefix_enavi (s : string) :
  starts_with "enavi" s = true -> exists r, s = ("enavi" ++ r)%string.
Proof.
  intros H.
  do 5 (destruct s as [|? s]; [discriminate H|];
        cbn [starts_with] in H; apply andb_true_iff in H as [Hc H];
        apply Ascii.eqb_eq in Hc as <-).
  exists s. reflexivity.
Qed.

Lemma match_enavi_shape (s digits : string) :
  match_enavi s = Some digits ->
  enavi_shape s (list_ascii_of_string digits).
Proof.
  unfold match_enavi. destruct (starts_with "enavi" s) eqn:Hp; [|discriminate].
  apply prefix_enavi in Hp as [r ->].
  change (String.substring 5 6 ("enavi" ++ r)) with (String.substring 0 6 r).
  change (String.get 11 ("enavi" ++ r)) with (String.get 6 r).
  do 6 (destruct r as [|? r]; [discriminate|]).
  cbn [String.substring String.length Nat.eqb andb list_ascii_of_string].
  destruct r as [|p r]; cbn [String.get]; [rewrite andb_false_r; discriminate|].
  destruct (forallb _ _) eqn:Hd; [|discriminate].
  destruct (Ascii.eqb p "(") eqn:Hq; [|discriminate].
  apply Ascii.eqb_eq in Hq as ->.
  intros [= <-]. split; [reflexivity|]. split.
  - apply List.Forall_forall. intros c Hc.
    rewrite forallb_forall in Hd. apply Hd. exact Hc.
  - exists r. reflexivity.
Qed.

Lemma shape_match_enavi (s : string) (d : list ascii) :
  enavi_shape s d -> match_enavi s = Some (string_of_list_ascii d).
Proof.
  intros (Hlen & Hd & rest & ->).
  do 6 (destruct d as [|? d]; [discriminate Hlen|]).
  destruct d; [|discriminate Hlen].
  repeat match goal with
         | H : Forall _ (_ :: _) |- _ => apply Forall_cons_1 in H as [? H]
         end.
  unfold match_enavi. cbv [String.append string_of_list_ascii]. cbn.
  repeat match goal with H : is_digit _ = true |- _ => rewrite H; clear H end.
  reflexivity.
Qed.

Lemma substring_app_r (base ext : string) :
  String.substring (String.length base) (String.length ext) (base ++ ext) = ext.
Proof.
  induction base as [|c base IH].
  - cbv [String.append]. cbn [String.length].
    induction ext as [|e ext IHe]; [reflexivity|].
    cbn [String.length String.substring]. f_equal. exact IHe.
  - exact IH.
Qed.

Lemma substring_app_l (base ext : string) :
  String.substring 0 (String.length base) (base ++ ext) = base.
Proof.
  induction base as [|c base IH].
  - destruct ext; reflexivity.
  - change (String c (String.substring 0 (String.length base) (base ++ ext)) = String c base).
    f_equal. exact IH.
Qed.

Lemma length_app_string (a b : string) :
  String.length (a ++ b) = (String.length a + String.length b)%nat.
Proof.
  induction a as [|c a IH]; [reflexivity|].
  change (S (String.length (a ++ b)) = S (String.length a + String.length b)).
  f_equal. exact IH.
Qed.

(** A trailing [.csv], in any letter case, is removed. *)
Lemma strip_csv_ext (base ext : string) :
  String.length ext = 4%nat ->
  string_eqb_nocase ext ".csv" = true ->
  strip_csv (base ++ ext) = base.
Proof.
  intros Hlen Hext. unfold strip_csv.
  rewrite length_app_string, Hlen.
  replace (String.length base + 4 - 4)%nat with (String.length base) by lia.
  pose proof (substring_app_r base ext) as Hr. rewrite Hlen in Hr.
  rewrite Hr, Hext.
  replace (4 <=? String.length base + 4)%nat with true
    by (symmetry; apply Nat.leb_le; lia).
  apply substring_app_l.
Qed.

(** Any other name is left as it is. *)
Lemma strip_csv_other (fileName : string) :
  (forall base ext, fileName = (base ++ ext)%string ->
                    String.length ext = 4%nat ->
                    string_eqb_nocase ext ".csv" = false) ->
  strip_csv fileName = fileName.
Proof.
  intros H. unfold strip_csv.
  destruct (4 <=? String.length fileName)%nat eqn:Hn; [|reflexivity].
  apply Nat.leb_le in Hn.
  assert (Hsplit : forall (n : nat) (s : string), (n <= String.length s)%nat ->
            s = (String.substring 0 n s ++ String.substring n (String.length s - n) s)%string
            /\ String.length (String.substring n (String.length s - n) s) = (String.length s - n)%nat).
  { induction n as [|n IH]; intros s Hs.
    - rewrite Nat.sub_0_r. clear. split.
      + replace (String.substring 0 0 s) with EmptyString by (destruct s; reflexivity).
        change (s = String.substring 0 (String.length s) s).
        induction s as [|c s IHs]; [reflexivity|].
        cbn [String.length String.substring]. f_equal. exact IHs.
      + induction s as [|c s IHs]; [reflexivity|].
        cbn [String.length String.substring]. f_equal. exact IHs.
    - destruct s as [|c s]; [cbn in Hs; lia|].
      cbn [String.length] in Hs. destruct (IH s ltac:(lia)) as [E1 E2].
      cbn [String.length String.substring Nat.sub]. split; [|exact E2].
      change (String c s = String c (String.substring 0 n s ++ String.substring n (String.length s - n) s)).
      f_equal. exact E1. }
  destruct (Hsplit (String.length fileName - 4)%nat fileName ltac:(lia)) as [E1 E2].
  replace (String.length fileName - (String.length fileName - 4))%nat with 4%nat in * by lia.
  rewrite (H _ _ E1 E2). reflexivity.
Qed.

Lemma extract_of_shape (fileName : string) (d : list ascii) :
  enavi_shape (strip_csv fileName) d ->
  extractMonthFromFileName fileName =
    if (1 <=? month_of_digits d) && (month_of_digits d <=? 12)
    then Some (Number_toString (month_of_digits d))
    else None.
Proof.
  intros Hs. unfold extractMonthFromFileName.
  rewrite (shape_match_enavi _ _ Hs).
  destruct Hs as (Hlen & Hd & _).
  do 6 (destruct d as [|? d]; [discriminate Hlen|]).
  destruct d; [|discriminate Hlen].
  repeat match goal with
         | H : Forall _ (_ :: _) |- _ => apply Forall_cons_1 in H as [? H]
         end.
  cbn [string_of_list_ascii js_substring js_substring_from String.substring
       String.length Nat.sub].
  rewrite parseInt_4 by assumption.
  rewrite !parseInt_2 by assumption.
  unfold month_of_digits. cbn [nth js_ge js_le fmap option_fmap option_map].
  destruct (2000 <=? _); reflexivity.
Qed.

Lemma extract_not_shape (fileName : string) :
  (forall d, ~ enavi_shape (strip_csv fileName) d) ->
  extractMonthFromFileName fileName = None.
Proof.
  intros Hn. unfold extractMonthFromFileName.
  destruct (match_enavi (strip_csv fileName)) as [digits|] eqn:Hm; [|reflexivity].
  exfalso. exact (Hn _ (match_enavi_shape _ _ Hm)).
Qed.

Lemma month_of_digits_range (d : list ascii) :
  Forall (fun c => is_digit c = true) d -> 0 <= month_of_digits d <= 99.
Proof.
  intros Hd.
  assert (Hv : forall i, 0 <= digit_value (nth i d "0"%char) <= 9).
  { intros i. apply digit_value_range.
    destruct (nth_in_or_default i d "0"%char) as [Hin| ->]; [|reflexivity].
    rewrite List.Forall_forall in Hd. apply Hd, Hin. }
  unfold month_of_digits. destruct (2000 <=? _).
  - pose proof (Hv 4%nat). pose proof (Hv 5%nat). lia.
  - pose proof (Hv 2%nat). pose proof (Hv 3%nat). lia.
Qed.

Example route_yyyymm : extractMonthFromFileName "enavi202506(3034).csv" = Some "6".
Proof. reflexivity. Qed.

Example route_yymmdd_2025 : extractMonthFromFileName "enavi250615(3034).csv" = None.
Proof. reflexivity. Qed.

Example route_yymmdd_2019 : extractMonthFromFileName "enavi190615(3034).CSV" = Some "6".
Proof. reflexivity. Qed.

Example route_bogus : extractMonthFromFileName "bogus.csv" = None.
Proof. reflexivity. Qed.



(** ** The UTF-8 decoder *)

Example decode_ascii : TextDecoder_decode true [0x41; 0x2C; 0x42] = Some [0x41; 0x2C; 0x42].
Proof. reflexivity. Qed.

Example decode_hiragana : TextDecoder_decode true [0xE3; 0x81; 0x82] = Some [0x3042].
Proof. reflexivity. Qed.

Example decode_sjis_bytes_fatal : TextDecoder_decode true [0x82; 0xA0] = None.
Proof. reflexivity. Qed.

Example decode_sjis_bytes_replace :
  TextDecoder_decode false [0x82; 0xA0] = Some [REPLACEMENT; REPLACEMENT].
Proof. reflexivity. Qed.

Example decode_truncated_replace :
  TextDecoder_decode false [0x41; 0xE3; 0x81] = Some [0x41; REPLACEMENT].
Proof. reflexivity. Qed.

Example decode_surrogate_fatal : TextDecoder_decode true [0xED; 0xA0; 0x80] = None.
Proof. reflexivity. Qed.

Example decode_skips_mark : TextDecoder_decode false [0xEF; 0xBB; 0xBF; 0x41] = Some [0x41].
Proof. reflexivity. Qed.

Example decode_skips_one_mark_only :
  TextDecoder_decode false [0xEF; 0xBB; 0xBF; 0xEF; 0xBB; 0xBF; 0x41] = Some [0xFEFF; 0x41].
Proof. reflexivity. Qed.

(** Without the fatal flag the decoder always returns a text. *)
Lemma utf8_run_replace_total (input : Bytes) :
  forall st, exists t, utf8_run false st input = Some t.
Proof.
  induction input as [|b rest IH]; intros st; cbn [utf8_run].
  - destruct (bytes_needed st =? 0); eauto.
  - assert (Hlead : forall prefix, exists t,
              (let '(st', out) := utf8_lead b in
               match out with
               | Continue => (prefix ++.) <$> utf8_run false st' rest
               | Emit cp => (fun t => prefix ++ cp :: t) <$> utf8_run false st' rest
               | Invalid => (fun t => prefix ++ REPLACEMENT :: t) <$> utf8_run false st' rest
               end) = Some t).
    { intros prefix. destruct (utf8_lead b) as [st' out].
      destruct (IH st') as [t Ht]. destruct out; rewrite Ht; cbn; eauto. }
    destruct (bytes_needed st =? 0); [apply Hlead|].
    destruct (negb _); [apply Hlead|].
    destruct (_ =? _).
    + destruct (IH utf8_init) as [t Ht]. rewrite Ht. cbn. eauto.
    + apply IH.
Qed.

(** Where the fatal decoder returns a text, the replacing one returns the same. *)
Lemma utf8_run_fatal_agrees (input : Bytes) :
  forall st t, utf8_run true st input = Some t -> utf8_run false st input = Some t.
Proof.
  induction input as [|b rest IH]; intros st t; cbn [utf8_run].
  - destruct (bytes_needed st =? 0); [trivial|discriminate].
  - destruct (bytes_needed st =? 0).
    + destruct (utf8_lead b) as [st' out]. destruct out; [| |discriminate].
      * destruct (utf8_run true st' rest) as [t0|] eqn:E; [|discriminate].
        rewrite (IH _ _ E). trivial.
      * destruct (utf8_run true st' rest) as [t0|] eqn:E; [|discriminate].
        rewrite (IH _ _ E). trivial.
    + destruct (negb _); [discriminate|].
      destruct (_ =? _).
      * destruct (utf8_run true utf8_init rest) as [t0|] eqn:E; [|discriminate].
        rewrite (IH _ _ E). trivial.
      * apply IH.
Qed.

Lemma TextDecoder_replace_total (input : Bytes) :
  exists t, TextDecoder_decode false input = Some t.
Proof. apply utf8_run_replace_total. Qed.

Lemma TextDecoder_fatal_agrees (input : Bytes) (t : Text) :
  TextDecoder_decode true input = Some t -> TextDecoder_decode false input = Some t.
Proof. apply utf8_run_fatal_agrees. Qed.

(** ** The encoding resolver *)

Lemma has_bom_cons (rest : Bytes) : has_bom (0xEF :: 0xBB :: 0xBF :: rest) = true.
Proof. reflexivity. Qed.

(** Valid UTF-8 without a mark is decoded as such. *)
Lemma readCsvFile_utf8 (libs : Libs) (file : File) (t : Text) :
  has_bom (bytes file) = false ->
  TextDecoder_decode true (bytes file) = Some t ->
  readCsvFile libs file = Ok {| text := t; encoding := "UTF-8" |}.
Proof. intros Hb Hd. unfold readCsvFile. rewrite Hb, Hd. reflexivity. Qed.

(** Bytes that are not UTF-8 go to the Shift-JIS converter, and what it
    returns is reported as SJIS; both importers agree on this. *)
Lemma readCsvFile_sjis (libs : Libs) (file : File) (r : ConvertResult) :
  has_bom (bytes file) = false ->
  TextDecoder_decode true (bytes file) = None ->
  Encoding_Convert libs (bytes file) = Ok r ->
  readCsvFile libs file =
    Ok {| text := match r with
                  | ResString s => s
                  | ResCodes codes => Encoding_codeToString libs codes
                  end;
          encoding := "SJIS" |}
  /\ Simple.decode libs (bytes file) = readCsvFile libs file.
Proof.
  intros Hb Hd Hc. unfold readCsvFile, Simple.decode.
  rewrite Hb, Hd, Hc. destruct r; split; reflexivity.
Qed.

(** C7 (counterexample): the mark followed by the byte FF, which no UTF-8
    text holds, is not refused: the text is the single character U+FFFD. *)
Lemma C7_counterexample :
  TextDecoder_decode true [0xFF] = None
  /\ readCsvFile sample_libs {| name := "a.csv"; bytes := [0xEF; 0xBB; 0xBF; 0xFF] |}
     = Ok {| text := [REPLACEMENT]; encoding := "UTF-8" |}
  /\ ~ C7_strict_after_mark.
Proof.
  split; [reflexivity|]. split; [reflexivity|].
  intros H.
  destruct (H sample_libs {| name := "a.csv"; bytes := [0xEF; 0xBB; 0xBF; 0xFF] |}
              [0xFF] eq_refl eq_refl) as [e He].
  discriminate He.
Qed.

(** C7 (amended): for bytes that begin with the UTF-8 mark, [readCsvFile]
    drops exactly the three bytes of the mark, hands the rest to the UTF-8
    decoder in its replacing (not fatal) mode, and reports UTF-8.  It never
    throws; where the rest is strict UTF-8 the text is its strict decoding. *)
Theorem C7_bom_decoding (libs : Libs) (file : File) (rest : Bytes) :
  bytes file = 0xEF :: 0xBB :: 0xBF :: rest ->
  exists t,
    TextDecoder_decode false rest = Some t
    /\ readCsvFile libs file = Ok {| text := t; encoding := "UTF-8" |}
    /\ forall t', TextDecoder_decode true rest = Some t' -> t' = t.
Proof.
  intros Hb. destruct (TextDecoder_replace_total rest) as [t Ht].
  exists t. split; [exact Ht|]. split.
  - unfold readCsvFile. rewrite Hb, has_bom_cons.
    change (drop 3 (0xEF :: 0xBB :: 0xBF :: rest)) with rest.
    rewrite Ht. reflexivity.
  - intros t' Ht'. apply TextDecoder_fatal_agrees in Ht'. congruence.
Qed.

Lemma C7_bom_decoding_witness :
  exists t,
    TextDecoder_decode false [0xE3; 0x81; 0x82; 0x2C; 0x41] = Some t
    /\ readCsvFile sample_libs
         {| name := "a.csv"; bytes := [0xEF; 0xBB; 0xBF; 0xE3; 0x81; 0x82; 0x2C; 0x41] |}
       = Ok {| text := t; encoding := "UTF-8" |}
    /\ forall t', TextDecoder_decode true [0xE3; 0x81; 0x82; 0x2C; 0x41] = Some t' -> t' = t.
Proof.
  apply (C7_bom_decoding sample_libs
           {| name := "a.csv"; bytes := [0xEF; 0xBB; 0xBF; 0xE3; 0x81; 0x82; 0x2C; 0x41] |}).
  reflexivity.
Defined.

(** ** Routing keys *)

Lemma month_string (m : Z) : 1 <= m <= 12 -> In (Number_toString m) month_names.
Proof.
  intros H.
  assert (Hm : m = 1 \/ m = 2 \/ m = 3 \/ m = 4 \/ m = 5 \/ m = 6 \/ m = 7 \/ m = 8
               \/ m = 9 \/ m = 10 \/ m = 11 \/ m = 12) by lia.
  repeat (destruct Hm as [-> | Hm]; [vm_compute; tauto|]).
  subst m. vm_compute. tauto.
Qed.

Lemma extract_some (fileName k : string) :
  extractMonthFromFileName fileName = Some k ->
  exists d m, enavi_shape (strip_csv fileName) d /\ m = month_of_digits d
              /\ 1 <= m <= 12 /\ k = Number_toString m.
Proof.
  intros H.
  destruct (match_enavi (strip_csv fileName)) as [digits|] eqn:Hm.
  - pose proof (match_enavi_shape _ _ Hm) as Hs.
    rewrite (extract_of_shape _ _ Hs) in H.
    destruct (_ && _) eqn:Hr; [|discriminate].
    apply andb_true_iff in Hr as [H1 H2]. injection H as <-.
    exists (list_ascii_of_string digits), (month_of_digits (list_ascii_of_string digits)).
    apply Z.leb_le in H1, H2.
    split; [exact Hs|]. split; [reflexivity|]. split; [lia|reflexivity].
  - unfold extractMonthFromFileName in H. rewrite Hm in H. discriminate.
Qed.

Lemma extract_month_names (fileName k : string) :
  extractMonthFromFileName fileName = Some k -> In k month_names.
Proof.
  intros H. destruct (extract_some _ _ H) as (d & m & _ & _ & Hr & ->).
  apply month_string, Hr.
Qed.

Lemma month_not_empty (k : string) : In k month_names -> String.eqb k "" = false.
Proof.
  intros H. cbn in H.
  repeat (destruct H as [<- | H]; [reflexivity|]). destruct H.
Qed.

Lemma sheetExists_In (wb : Workbook) (month : string) :
  sheetExists wb month = true <-> In month (worksheets wb).
Proof.
  unfold sheetExists. rewrite existsb_exists. split.
  - intros (x & Hx & He). apply String.eqb_eq in He. subst. exact Hx.
  - intros H. exists month. split; [exact H|]. apply String.eqb_refl.
Qed.

(** ** Placement *)

Lemma slice0_take {A : Type} (l : list A) (k : Z) :
  0 <= k <= Z.of_nat (length l) -> slice0 l k = take (Z.to_nat k) l.
Proof.
  intros H. unfold slice0.
  destruct (k <? 0) eqn:E; [apply Z.ltb_lt in E; lia|].
  f_equal. lia.
Qed.

Lemma place_fits (rowPtr : Z) (rows : list (list Text)) :
  rowPtr + Z.of_nat (length rows) <= MAX_ROW ->
  place rowPtr rows =
    {| fileNameRowNum := rowPtr; dataStartRow := rowPtr + 1;
       dataEndRow := rowPtr + 1 + Z.of_nat (length rows) - 1;
       actualDataRows := rows; truncated := false |}.
Proof.
  intros H. unfold place.
  destruct (_ >? MAX_ROW) eqn:E; [|reflexivity].
  apply Z.gtb_lt in E. lia.
Qed.

Lemma place_overflow (rowPtr : Z) (rows : list (list Text)) :
  rowPtr <= MAX_ROW ->
  rowPtr + Z.of_nat (length rows) > MAX_ROW ->
  place rowPtr rows =
    {| fileNameRowNum := rowPtr; dataStartRow := rowPtr + 1;
       dataEndRow := rowPtr + 1 + Z.of_nat (length rows) - 1;
       actualDataRows := take (Z.to_nat (MAX_ROW - rowPtr)) rows; truncated := true |}.
Proof.
  intros H1 H2. unfold place.
  destruct (_ >? MAX_ROW) eqn:E.
  - rewrite slice0_take by lia. do 2 f_equal. lia.
  - rewrite Z.gtb_ltb in E. apply Z.ltb_ge in E. lia.
Qed.

(** The placement of at least one row from a pointer within the range. *)
Lemma place_bounds (rowPtr : Z) (rows : list (list Text)) :
  4 <= rowPtr <= MAX_ROW -> (1 <= length rows)%nat ->
  let p := place rowPtr rows in
  fileNameRowNum p = rowPtr
  /\ lastRowWritten p <= MAX_ROW
  /\ rowPtr <= nextRowPtr p <= MAX_ROW
  /\ (truncated p = false -> actualDataRows p = rows /\ nextRowPtr p = lastRowWritten p
                             /\ rowPtr < nextRowPtr p)
  /\ (truncated p = true -> lastRowWritten p = MAX_ROW /\ nextRowPtr p = MAX_ROW).
Proof.
  intros Hr Hn.
  destruct (Z_le_gt_dec (rowPtr + Z.of_nat (length rows)) MAX_ROW) as [Hfit|Hover].
  - rewrite (place_fits _ _ Hfit). unfold lastRowWritten, nextRowPtr. cbn.
    repeat split; try discriminate; lia.
  - rewrite (place_overflow _ _ (proj2 Hr) Hover). unfold lastRowWritten, nextRowPtr.
    cbn [fileNameRowNum dataStartRow actualDataRows truncated].
    rewrite length_take. unfold MAX_ROW in *.
    repeat split; try discriminate; lia.
Qed.

Lemma data_rows_length (parseResult : ParseResult) :
  length (data_rows parseResult) = (length (data parseResult) - 1)%nat.
Proof. unfold data_rows. rewrite length_map, length_drop. reflexivity. Qed.

(** ** One turn of the loop *)

Section Loop.

Variable libs : Libs.
Variable wb : Workbook.

Lemma clearOnce_shape (st st1 : State) (month : string) :
  clearOnce wb st month = inl st1 ->
  (not_cleared st month = false /\ st1 = st)
  \/ (not_cleared st month = true /\ Excel_run wb (ClearRange month) = None
      /\ st1 = cleared_state st month).
Proof.
  unfold clearOnce. destruct (not_cleared st month).
  - destruct (Excel_run wb (ClearRange month)); [discriminate|].
    intros [= <-]. right. repeat split.
  - intros [= <-]. left. split; reflexivity.
Qed.

Lemma clearOnce_throws (st : State) (month : string) (e : Exn) :
  clearOnce wb st month = inr e ->
  not_cleared st month = true /\ Excel_run wb (ClearRange month) = Some e.
Proof.
  unfold clearOnce. destruct (not_cleared st month); [|discriminate].
  destruct (Excel_run wb (ClearRange month)); [|discriminate].
  intros [= <-]. split; reflexivity.
Qed.

Lemma processFile_turn (st : State) (file : File) :
  Turn libs wb st file (processFile libs wb st file).
Proof.
  unfold processFile.
  assert (Hlab : forall m : string, labelled file (file_label file ++ m))
    by (intros m; exists m; reflexivity).
  destruct (extractMonthFromFileName (name file)) as [month|] eqn:Hroute;
    [|apply turn_rejected, Hlab].
  rewrite (month_not_empty _ (extract_month_names _ _ Hroute)).
  destruct (sheetExists wb month) eqn:Hsheet; cbn [negb]; [|apply turn_rejected, Hlab].
  apply sheetExists_In in Hsheet.
  destruct (clearOnce wb st month) as [st1|e] eqn:Hclear; [|apply turn_rejected, Hlab].
  destruct (readCsvFile libs file) as [decoded|e] eqn:Hread.
  2:{ apply (turn_skipped libs wb st file month st1); try assumption; try apply Hlab.
      intros d' p' Hd'. rewrite Hread in Hd'. discriminate. }
  destruct (Papa_parse libs SkipGreedy (text decoded)) as [parseResult|e] eqn:Hparse.
  2:{ apply (turn_skipped libs wb st file month st1); try assumption; try apply Hlab.
      intros d' p' Hd' Hp'. rewrite Hread in Hd'. injection Hd' as <-.
      rewrite Hparse in Hp'. discriminate. }
  assert (Hsame : forall d' p', readCsvFile libs file = Ok d' ->
            Papa_parse libs SkipGreedy (text d') = Ok p' -> p' = parseResult).
  { intros d' p' Hd' Hp'. rewrite Hread in Hd'. injection Hd' as <-.
    rewrite Hparse in Hp'. injection Hp' as <-. reflexivity. }
  destruct (length (data parseResult) =? 0)%nat eqn:Hlen0.
  { apply Nat.eqb_eq in Hlen0.
    apply (turn_skipped libs wb st file month st1); try assumption; try apply Hlab.
    intros d' p' Hd' Hp'. rewrite (Hsame _ _ Hd' Hp'). lia. }
  destruct (2 <=? length (data parseResult))%nat eqn:Hlen2.
  2:{ apply Nat.leb_gt in Hlen2. cbn.
      apply (turn_skipped libs wb st file month st1); try assumption; try apply Hlab.
      intros d' p' Hd' Hp'. rewrite (Hsame _ _ Hd' Hp'). lia. }
  apply Nat.leb_le in Hlen2.
  destruct (length (drop 1 (data parseResult)) =? 0)%nat eqn:Hd0.
  { apply Nat.eqb_eq in Hd0. rewrite length_drop in Hd0. lia. }
  fold (data_rows parseResult).
  destruct (Excel_run wb _) as [e|] eqn:Hput.
  - eapply turn_write_failed; eassumption.
  - eapply turn_placed; eassumption.
Qed.

(** *** What a turn keeps *)

Lemma cleared_state_ok (st : State) (month : string) :
  In month month_names -> In month (worksheets wb) ->
  Inv wb st -> Inv wb (cleared_state st month).
Proof.
  intros Hm Hw [Hc Hg]. split.
  - intros k v. cbn. destruct (decide (month = k)) as [<-|Hne].
    + rewrite !lookup_insert_eq. intros [= <-]. unfold MAX_ROW.
      split; [lia|]. split; [reflexivity|exact Hw].
    + rewrite !lookup_insert_ne by assumption. apply Hc.
  - cbn. apply Forall_app. split; [exact Hg|].
    constructor; [split; assumption|constructor].
Qed.

Lemma clearOnce_ok (st st1 : State) (month : string) :
  In month month_names -> In month (worksheets wb) ->
  clearOnce wb st month = inl st1 -> Inv wb st -> Inv wb st1.
Proof.
  intros Hm Hw Hclear HI.
  destruct (clearOnce_shape _ _ _ Hclear) as [[_ ->] | (_ & _ & ->)];
    [exact HI | apply cleared_state_ok; assumption].
Qed.

Lemma warn_ok (st : State) (w : string) : Inv wb st -> Inv wb (warn st w).
Proof. intros H. exact H. Qed.

Lemma rowPtr_of_range (st : State) (month : string) :
  cursors_ok wb st -> 4 <= rowPtr_of st month <= MAX_ROW.
Proof.
  intros Hc. unfold rowPtr_of.
  destruct (sheetRowPtr st !! month) as [v|] eqn:E; [|unfold MAX_ROW; lia].
  destruct (Hc _ _ E) as [Hv _].
  destruct (v =? 0) eqn:E0; [apply Z.eqb_eq in E0; lia|exact Hv].
Qed.

Lemma rowPtr_of_Some (st : State) (month : string) (v : Z) :
  cursors_ok wb st -> sheetRowPtr st !! month = Some v -> rowPtr_of st month = v.
Proof.
  intros Hc E. unfold rowPtr_of. rewrite E.
  destruct (Hc _ _ E) as [Hv _].
  destruct (v =? 0) eqn:E0; [apply Z.eqb_eq in E0; lia|reflexivity].
Qed.

(** After [clearOnce] the sheet of the file is marked cleared. *)
Lemma clearOnce_cleared (st st1 : State) (month : string) :
  clearOnce wb st month = inl st1 -> sheetCleared st1 !! month = Some true.
Proof.
  intros Hclear.
  destruct (clearOnce_shape _ _ _ Hclear) as [[Hn ->] | (_ & _ & ->)].
  - unfold not_cleared in Hn.
    destruct (sheetCleared st !! month) as [[]|]; cbn in Hn; congruence.
  - cbn. apply lookup_insert_eq.
Qed.

Lemma written_state_ok (st : State) (month : string) (file : File)
    (rows : list (list Text)) :
  In month month_names -> In month (worksheets wb) ->
  sheetCleared st !! month = Some true ->
  (1 <= length rows)%nat ->
  Inv wb st ->
  Inv wb (written_state st month file (place (rowPtr_of st month) rows)).
Proof.
  intros Hm Hw Hcl Hn [Hc Hg].
  pose proof (rowPtr_of_range st month Hc) as Hr.
  destruct (place_bounds _ rows Hr Hn) as (Hf & Hlast & Hnext & _).
  split.
  - intros k v. cbn. destruct (decide (month = k)) as [<-|Hne].
    + rewrite lookup_insert_eq. intros [= <-]. split; [lia|]. split; [exact Hcl|exact Hw].
    + rewrite lookup_insert_ne by assumption. apply Hc.
  - cbn. apply Forall_app. split; [exact Hg|]. constructor; [|constructor].
    cbn. unfold lastRowWritten in Hlast. rewrite Hf in *. repeat split; try assumption; lia.
Qed.

Theorem processFile_ok (st : State) (file : File) :
  Inv wb st -> Inv wb (processFile libs wb st file).
Proof.
  intros HI.
  destruct (processFile_turn st file)
    as [w _ | month st1 w _ Hroute Hw Hclear _
        | month st1 decoded parseResult e Hroute Hw Hclear _ _ _ p st2 _
        | month st1 decoded parseResult Hroute Hw Hclear _ _ Hlen p st2 _].
  - exact HI.
  - apply warn_ok. eapply clearOnce_ok; eauto using extract_month_names.
  - unfold caught. apply warn_ok. subst st2.
    destruct (truncated p); [apply warn_ok|];
      eapply clearOnce_ok; eauto using extract_month_names.
  - pose proof (extract_month_names _ _ Hroute) as Hm.
    pose proof (clearOnce_ok _ _ _ Hm Hw Hclear HI) as HI1.
    pose proof (clearOnce_cleared _ _ _ Hclear) as Hcl.
    assert (Hn : (1 <= length (data_rows parseResult))%nat)
      by (rewrite data_rows_length; lia).
    pose proof (written_state_ok st1 month file _ Hm Hw Hcl Hn HI1) as HW.
    subst st2 p. destruct (truncated _); exact HW.
Qed.

Lemma initial_ok : Inv wb initial.
Proof.
  split; [|constructor]. intros k v. cbn. rewrite lookup_empty. discriminate.
Qed.

Lemma processFiles_ok (files : list File) (st : State) :
  Inv wb st -> Inv wb (processFiles libs wb st files).
Proof.
  revert st. induction files as [|f files IH]; intros st HI; [exact HI|].
  cbn. apply IH, processFile_ok, HI.
Qed.

Lemma processFiles_app (files1 files2 : list File) (st : State) :
  processFiles libs wb st (files1 ++ files2) =
  processFiles libs wb (processFiles libs wb st files1) files2.
Proof. apply fold_left_app. Qed.

End Loop.

(** ** The claims about routing *)

(** C1: for a name that, once a trailing [.csv] in any letter case is
    removed, reads [enavi], six digits and an opening parenthesis, the first
    four digits are read as a number; from 2000 on the month is the last two
    digits, below 2000 it is the third and fourth; the month is returned
    when it lies in 1..12, and in every other case, names of another shape
    included, the result is [None].  The function is total: it never
    throws.  (The last two parts say what removing the extension does.) *)
Theorem C1_route_month (fileName : string) :
  (forall d, enavi_shape (strip_csv fileName) d ->
     extractMonthFromFileName fileName =
       if (1 <=? month_of_digits d) && (month_of_digits d <=? 12)
       then Some (Number_toString (month_of_digits d))
       else None)
  /\ ((forall d, ~ enavi_shape (strip_csv fileName) d) ->
      extractMonthFromFileName fileName = None)
  /\ (forall k, extractMonthFromFileName fileName = Some k ->
        exists m, 1 <= m <= 12 /\ k = Number_toString m)
  /\ (forall base ext, fileName = (base ++ ext)%string ->
        String.length ext = 4%nat -> string_eqb_nocase ext ".csv" = true ->
        strip_csv fileName = base)
  /\ ((forall base ext, fileName = (base ++ ext)%string ->
         String.length ext = 4%nat -> string_eqb_nocase ext ".csv" = false) ->
      strip_csv fileName = fileName).
Proof.
  split; [|split; [|split; [|split]]].
  - intros d Hs. apply extract_of_shape, Hs.
  - apply extract_not_shape.
  - intros k Hk. destruct (extract_some _ _ Hk) as (d & m & _ & _ & Hr & ->).
    exists m. split; [exact Hr|reflexivity].
  - intros base ext -> Hlen Hext. apply strip_csv_ext; assumption.
  - apply strip_csv_other.
Qed.

Lemma shape_202506 :
  enavi_shape (strip_csv "enavi202506(3034).csv")
    ["2"; "0"; "2"; "5"; "0"; "6"]%char.
Proof.
  split; [reflexivity|]. split.
  - repeat constructor.
  - exists "3034)". reflexivity.
Defined.

Lemma C1_route_month_witness :
  extractMonthFromFileName "enavi202506(3034).csv" = Some "6"
  /\ extractMonthFromFileName "enavi191231(1).CSV" = Some "12"
  /\ extractMonthFromFileName "enavi201306(1)" = Some "6".
Proof.
  split; [|split; reflexivity].
  exact (proj1 (C1_route_month "enavi202506(3034).csv") _ shape_202506).
Defined.

(** ** Row pointers only move forward *)

Lemma advances_refl (st : State) : advances st st.
Proof. intros k. split; [eauto with lia|]. split; [lia|trivial]. Qed.

Lemma advances_trans (a b c : State) : advances a b -> advances b c -> advances a c.
Proof.
  intros Hab Hbc k.
  destruct (Hab k) as (H1 & H2 & H3). destruct (Hbc k) as (H4 & H5 & H6).
  split; [|split; [lia|auto]].
  intros v Hv. destruct (H1 _ Hv) as (v' & Hv' & Hle).
  destruct (H4 _ Hv') as (v'' & Hv'' & Hle'). exists v''. split; [exact Hv''|lia].
Qed.

Lemma advances_warn (st : State) (w : string) : advances st (warn st w).
Proof. exact (advances_refl st). Qed.

Lemma advances_clearOnce (wb : Workbook) (st st1 : State) (month : string) :
  Inv wb st -> clearOnce wb st month = inl st1 -> advances st st1.
Proof.
  intros [Hc _] Hclear.
  destruct (clearOnce_shape _ _ _ _ Hclear) as [[_ ->] | (Hn & _ & ->)];
    [apply advances_refl|].
  assert (Hnone : sheetRowPtr st !! month = None).
  { destruct (sheetRowPtr st !! month) as [v|] eqn:E; [|reflexivity].
    destruct (Hc _ _ E) as (_ & Hcl & _). unfold not_cleared in Hn.
    rewrite Hcl in Hn. discriminate Hn. }
  intros k. unfold rowPtr_of. cbn.
  destruct (decide (month = k)) as [<-|Hne].
  - rewrite !lookup_insert_eq, Hnone. cbn. split; [discriminate|]. split; [lia|trivial].
  - rewrite !lookup_insert_ne by assumption.
    split; [eauto with lia|]. split; [lia|trivial].
Qed.

Lemma advances_written (wb : Workbook) (st : State) (month : string) (file : File)
    (rows : list (list Text)) :
  cursors_ok wb st -> (1 <= length rows)%nat ->
  advances st (written_state st month file (place (rowPtr_of st month) rows)).
Proof.
  intros Hc Hn.
  pose proof (rowPtr_of_range wb st month Hc) as Hr.
  destruct (place_bounds _ rows Hr Hn) as (_ & _ & Hnext & _).
  set (p := place (rowPtr_of st month) rows) in *.
  intros k.
  assert (Hk : rowPtr_of (written_state st month file p) k
               = if decide (month = k) then nextRowPtr p else rowPtr_of st k).
  { unfold rowPtr_of. cbn [written_state sheetRowPtr].
    destruct (decide (month = k)) as [<-|Hne].
    - rewrite lookup_insert_eq.
      destruct (nextRowPtr p =? 0) eqn:E0; [apply Z.eqb_eq in E0; lia|reflexivity].
    - rewrite lookup_insert_ne by assumption. reflexivity. }
  rewrite Hk. cbn [written_state sheetRowPtr sheetCleared].
  destruct (decide (month = k)) as [<-|Hne].
  - rewrite lookup_insert_eq. split; [|split; [lia|trivial]].
    intros v Hv. rewrite (rowPtr_of_Some wb _ _ _ Hc Hv) in Hnext.
    exists (nextRowPtr p). split; [reflexivity|lia].
  - rewrite lookup_insert_ne by assumption.
    split; [eauto with lia|]. split; [lia|trivial].
Qed.

Lemma processFile_advances (libs : Libs) (wb : Workbook) (st : State) (file : File) :
  Inv wb st -> advances st (processFile libs wb st file).
Proof.
  intros HI.
  destruct (processFile_turn libs wb st file)
    as [w _ | month st1 w _ Hroute Hw Hclear _
        | month st1 decoded parseResult e Hroute Hw Hclear _ _ _ p st2 _
        | month st1 decoded parseResult Hroute Hw Hclear _ _ Hlen p st2 _].
  - apply advances_warn.
  - eapply advances_trans; [eapply advances_clearOnce; eassumption|apply advances_warn].
  - eapply advances_trans; [eapply advances_clearOnce; eassumption|].
    subst st2. destruct (truncated p); exact (advances_refl st1).
  - eapply advances_trans; [eapply advances_clearOnce; eassumption|].
    pose proof (extract_month_names _ _ Hroute) as Hm.
    destruct (clearOnce_ok wb _ _ _ Hm Hw Hclear HI) as [Hc1 _].
    assert (Hn : (1 <= length (data_rows parseResult))%nat)
      by (rewrite data_rows_length; lia).
    pose proof (advances_written wb st1 month file _ Hc1 Hn) as HA.
    subst st2 p. destruct (truncated _); exact HA.
Qed.

Lemma processFiles_advances (libs : Libs) (wb : Workbook) (files : list File) (st : State) :
  Inv wb st -> advances st (processFiles libs wb st files).
Proof.
  revert st. induction files as [|f files IH]; intros st HI; [apply advances_refl|].
  cbn. eapply advances_trans; [apply processFile_advances, HI|].
  apply IH, processFile_ok, HI.
Qed.

(** C8: within one import, for every routing key, the row pointer never
    goes back as more files are processed: once it has a value it keeps
    one, at least as large, and read with its default ([|| 4]) it is
    non-decreasing from the start; and a sheet marked cleared stays marked
    cleared to the end of the import. *)
Theorem C8_cursor_monotone (libs : Libs) (wb : Workbook)
    (files later : list File) (k : string) :
  let st := processFiles libs wb initial files in
  let st' := processFiles libs wb initial (files ++ later) in
  (forall v, sheetRowPtr st !! k = Some v ->
             exists v', sheetRowPtr st' !! k = Some v' /\ v <= v')
  /\ rowPtr_of st k <= rowPtr_of st' k
  /\ (sheetCleared st !! k = Some true -> sheetCleared st' !! k = Some true).
Proof.
  cbv zeta. rewrite processFiles_app.
  apply processFiles_advances, processFiles_ok, initial_ok.
Qed.

(** ** What a turn of the loop does, case by case *)

Lemma processFile_front (libs : Libs) (wb : Workbook) (st : State) (file : File)
    (month : string) :
  extractMonthFromFileName (name file) = Some month ->
  In month (worksheets wb) ->
  processFile libs wb st file =
    match clearOnce wb st month with
    | inr e => caught st file e
    | inl st1 =>
        match readCsvFile libs file with
        | Throw e => caught st1 file e
        | Ok decoded =>
            match Papa_parse libs SkipGreedy (text decoded) with
            | Throw e => caught st1 file e
            | Ok parseResult =>
                if (length (data parseResult) =? 0)%nat
                then warn st1 (file_label file ++ msg_empty)%string
                else if (length (data parseResult) <? 2)%nat
                then warn st1 (file_label file ++ msg_no_data)%string
                else
                  let p := place (rowPtr_of st1 month) (data_rows parseResult) in
                  let st2 := if truncated p
                             then warn st1 (file_label file ++ msg_truncated)%string
                             else st1 in
                  match Excel_run wb (PutRows month (fileNameRowNum p)
                                        (text_of_string (name file) :: repeat [] (MAX_COLS - 1))
                                        (actualDataRows p)) with
                  | Some e => caught st2 file e
                  | None => written_state st2 month file p
                  end
            end
        end
    end.
Proof.
  intros Hroute Hw. unfold processFile. rewrite Hroute.
  rewrite (month_not_empty _ (extract_month_names _ _ Hroute)).
  apply sheetExists_In in Hw. rewrite Hw. cbn [negb].
  destruct (clearOnce wb st month) as [st1|e]; [|reflexivity].
  destruct (readCsvFile libs file) as [decoded|e]; [|reflexivity].
  destruct (Papa_parse libs SkipGreedy (text decoded)) as [parseResult|e]; [|reflexivity].
  destruct (length (data parseResult) =? 0)%nat eqn:H0; [reflexivity|].
  apply Nat.eqb_neq in H0.
  destruct (length (data parseResult) <? 2)%nat eqn:H2.
  - apply Nat.ltb_lt in H2.
    replace (2 <=? length (data parseResult))%nat with false
      by (symmetry; apply Nat.leb_gt; lia).
    reflexivity.
  - apply Nat.ltb_ge in H2.
    replace (2 <=? length (data parseResult))%nat with true
      by (symmetry; apply Nat.leb_le; lia).
    replace (length (drop 1 (data parseResult)) =? 0)%nat with false
      by (symmetry; apply Nat.eqb_neq; rewrite length_drop; lia).
    reflexivity.
Qed.

Lemma processFile_placed (libs : Libs) (wb : Workbook) (st st1 : State) (file : File)
    (month : string) (decoded : Decoded) (parseResult : ParseResult) :
  extractMonthFromFileName (name file) = Some month ->
  In month (worksheets wb) ->
  clearOnce wb st month = inl st1 ->
  readCsvFile libs file = Ok decoded ->
  Papa_parse libs SkipGreedy (text decoded) = Ok parseResult ->
  (2 <= length (data parseResult))%nat ->
  let p := place (rowPtr_of st1 month) (data_rows parseResult) in
  let st2 := if truncated p
             then warn st1 (file_label file ++ msg_truncated)%string else st1 in
  Excel_run wb (PutRows month (fileNameRowNum p)
                  (text_of_string (name file) :: repeat [] (MAX_COLS - 1))
                  (actualDataRows p)) = None ->
  processFile libs wb st file = written_state st2 month file p.
Proof.
  intros Hroute Hw Hclear Hread Hparse Hlen p st2 Hput.
  rewrite (processFile_front _ _ _ _ _ Hroute Hw), Hclear, Hread, Hparse.
  replace (length (data parseResult) =? 0)%nat with false
    by (symmetry; apply Nat.eqb_neq; lia).
  replace (length (data parseResult) <? 2)%nat with false
    by (symmetry; apply Nat.ltb_ge; lia).
  cbv zeta. fold p. rewrite Hput. reflexivity.
Qed.

(** A file without data rows ends its turn in one warning, added to the
    state the clear left. *)
Lemma processFile_no_rows (libs : Libs) (wb : Workbook) (st st1 : State) (file : File)
    (month : string) :
  no_data_rows libs file ->
  extractMonthFromFileName (name file) = Some month ->
  In month (worksheets wb) ->
  clearOnce wb st month = inl st1 ->
  exists w, processFile libs wb st file = warn st1 w.
Proof.
  intros Hno Hroute Hw Hclear.
  rewrite (processFile_front _ _ _ _ _ Hroute Hw), Hclear.
  destruct (readCsvFile libs file) as [decoded|e] eqn:Hread; [|unfold caught; eauto].
  destruct (Papa_parse libs SkipGreedy (text decoded)) as [parseResult|e] eqn:Hparse;
    [|unfold caught; eauto].
  pose proof (Hno _ _ Hread Hparse) as Hlen.
  destruct (length (data parseResult) =? 0)%nat; [eauto|].
  replace (length (data parseResult) <? 2)%nat with true
    by (symmetry; apply Nat.ltb_lt; lia).
  eauto.
Qed.

Lemma processFile_not_routed (libs : Libs) (wb : Workbook) (st : State) (file : File) :
  (forall month, extractMonthFromFileName (name file) = Some month ->
                 ~ In month (worksheets wb)) ->
  exists w, processFile libs wb st file = warn st w.
Proof.
  intros H. unfold processFile.
  destruct (extractMonthFromFileName (name file)) as [month|] eqn:Hroute; [|eauto].
  destruct (String.eqb month ""); [eauto|].
  destruct (sheetExists wb month) eqn:E; [|cbn; eauto].
  apply sheetExists_In in E. destruct (H _ eq_refl E).
Qed.

Lemma row_content_app (a b : list HostCall) (sheet : string) (row : Z)
    (acc : option (list Text)) :
  row_content (a ++ b) sheet row acc = row_content b sheet row (row_content a sheet row acc).
Proof.
  revert acc. induction a as [|c a IH]; intros acc; [reflexivity|].
  destruct c; cbn [app row_content]; apply IH.
Qed.

(** ** The sheet of a file *)

Lemma key_of_route (file : File) (month : string) :
  extractMonthFromFileName (name file) = Some month -> key_of file = month.
Proof. intros H. unfold key_of. rewrite H. reflexivity. Qed.

(** A turn leaves the entries of the other sheets alone and asks the host
    for its own sheet only. *)
Lemma processFile_own_sheet (libs : Libs) (wb : Workbook) (st : State) (file : File) :
  (forall j, j <> key_of file ->
     sheetRowPtr (processFile libs wb st file) !! j = sheetRowPtr st !! j
     /\ sheetCleared (processFile libs wb st file) !! j = sheetCleared st !! j)
  /\ exists cs, grid (processFile libs wb st file) = grid st ++ cs
                /\ Forall (on_sheet (key_of file)) cs.
Proof.
  assert (Hclr : forall month st1, clearOnce wb st month = inl st1 ->
            (forall j, j <> month ->
               sheetRowPtr st1 !! j = sheetRowPtr st !! j
               /\ sheetCleared st1 !! j = sheetCleared st !! j)
            /\ exists cs, grid st1 = grid st ++ cs /\ Forall (on_sheet month) cs).
  { intros month st1 Hclear.
    destruct (clearOnce_shape _ _ _ _ Hclear) as [[_ ->] | (_ & _ & ->)].
    - split; [intros; split; reflexivity|]. exists []. rewrite app_nil_r.
      split; [reflexivity|constructor].
    - split.
      + intros j Hj. cbn. rewrite !lookup_insert_ne by congruence. split; reflexivity.
      + exists [ClearRange month]. split; [reflexivity|]. repeat constructor. }
  destruct (processFile_turn libs wb st file)
    as [w _ | month st1 w _ Hroute _ Hclear _
        | month st1 decoded parseResult e Hroute _ Hclear _ _ _ p st2 _
        | month st1 decoded parseResult Hroute _ Hclear _ _ _ p st2 _].
  - split; [intros; split; reflexivity|]. exists []. cbn. rewrite app_nil_r.
    split; [reflexivity|constructor].
  - rewrite (key_of_route _ _ Hroute). exact (Hclr _ _ Hclear).
  - rewrite (key_of_route _ _ Hroute). subst st2.
    destruct (truncated p); exact (Hclr _ _ Hclear).
  - rewrite (key_of_route _ _ Hroute).
    destruct (Hclr _ _ Hclear) as [Hother (cs & Hcs & Hon)]. split.
    + intros j Hj. destruct (Hother j Hj) as [H1 H2].
      subst st2. destruct (truncated p); cbn;
        rewrite lookup_insert_ne by congruence; split; assumption.
    + exists (cs ++ [PutRows month (fileNameRowNum p)
                       (text_of_string (name file) :: repeat [] (MAX_COLS - 1))
                       (actualDataRows p)]).
      split.
      * subst st2. destruct (truncated p); cbn; rewrite Hcs, <- app_assoc; reflexivity.
      * apply Forall_app. split; [exact Hon|]. repeat constructor.
Qed.




(** ** The claims about placement *)

Lemma clearOnce_unseen (wb : Workbook) (st : State) (month : string) :
  not_cleared st month = true ->
  Excel_run wb (ClearRange month) = None ->
  clearOnce wb st month = inl (cleared_state st month).
Proof. intros Hn Hrun. unfold clearOnce. rewrite Hn, Hrun. reflexivity. Qed.

Lemma rowPtr_of_cleared (st : State) (month : string) :
  rowPtr_of (cleared_state st month) month = 4.
Proof. unfold rowPtr_of. cbn. rewrite lookup_insert_eq. reflexivity. Qed.

(** C2 (counterexample): a header and five data rows on the unseen key 6.
    The file-name row goes to row 4 and the data to rows 5-9, the row pointer
    becomes 9, and the window ends at row 9, not at row 10. *)
Lemma C2_counterexample :
  let file := lines_file "enavi202506(3034).csv" 5 in
  let st' := processFile sample_libs sample_workbook initial file in
  (exists fileNameRow rows,
      grid st' = [ClearRange "6"; PutRows "6" 4 fileNameRow rows]
      /\ length rows = 5%nat
      /\ endRow (place 4 rows) = 9
      /\ dataEndRow (place 4 rows) = 9)
  /\ sheetRowPtr st' !! "6" = Some 9
  /\ ~ (exists fileNameRow rows,
          In (PutRows "6" 4 fileNameRow rows) (grid st')
          /\ endRow (place 4 rows) = 10).
Proof.
  cbv zeta. split; [|split].
  - eexists _, _. vm_compute. repeat split.
  - vm_compute. reflexivity.
  - intros (r & rows & Hin & He).
    assert (Hlen : length rows = 5%nat).
    { vm_compute in Hin. destruct Hin as [Hin|[Hin|[]]]; [discriminate Hin|].
      injection Hin as _ <-. reflexivity. }
    rewrite place_fits in He by (rewrite Hlen; unfold MAX_ROW; lia).
    unfold endRow, nextRowPtr in He. cbn in He. lia.
Qed.

(** C2 (amended): a table of a header row and exactly five data rows, placed
    on a key not yet seen in the import (start row 4, last row 200), has its
    file-name row at row 4 and its data rows at rows 5 to 9; the window is
    startRow = 4 to endRow = 9, nothing is truncated and nothing is warned
    of, and the row pointer of the key is 9 afterwards. *)
Theorem C2_first_placement (libs : Libs) (wb : Workbook) (st : State) (file : File)
    (month : string) (decoded : Decoded) (parseResult : ParseResult) :
  extractMonthFromFileName (name file) = Some month ->
  In month (worksheets wb) ->
  not_cleared st month = true ->
  Excel_run wb (ClearRange month) = None ->
  readCsvFile libs file = Ok decoded ->
  Papa_parse libs SkipGreedy (text decoded) = Ok parseResult ->
  length (data parseResult) = 6%nat ->
  let rows := data_rows parseResult in
  let fileNameRow := text_of_string (name file) :: repeat [] (MAX_COLS - 1) in
  Excel_run wb (PutRows month 4 fileNameRow rows) = None ->
  let p := place 4 rows in
  let st' := processFile libs wb st file in
  length rows = 5%nat
  /\ fileNameRowNum p = 4 /\ dataStartRow p = 5 /\ dataEndRow p = 9
  /\ actualDataRows p = rows
  /\ startRow p = 4 /\ endRow p = 9 /\ truncated p = false
  /\ grid st' = grid st ++ [ClearRange month; PutRows month 4 fileNameRow rows]
  /\ warnings st' = warnings st
  /\ sheetRowPtr st' !! month = Some 9.
Proof.
  intros Hroute Hw Hn Hclr Hread Hparse Hlen rows fileNameRow Hput p st'.
  assert (Hrows : length rows = 5%nat)
    by (unfold rows; rewrite data_rows_length, Hlen; reflexivity).
  assert (Hp : p = {| fileNameRowNum := 4; dataStartRow := 5; dataEndRow := 9;
                      actualDataRows := rows; truncated := false |}).
  { unfold p. rewrite place_fits by (rewrite Hrows; unfold MAX_ROW; lia).
    rewrite Hrows. reflexivity. }
  assert (Hst : st' = written_state (cleared_state st month) month file p).
  { unfold st'.
    rewrite (processFile_placed libs wb st (cleared_state st month) file month
               decoded parseResult Hroute Hw (clearOnce_unseen _ _ _ Hn Hclr)
               Hread Hparse ltac:(lia)).
    - rewrite rowPtr_of_cleared. fold rows. fold p. rewrite Hp. reflexivity.
    - rewrite rowPtr_of_cleared. fold rows. fold p. rewrite Hp. exact Hput. }
  rewrite Hst, Hp. unfold startRow, endRow, nextRowPtr. cbn.
  rewrite Hrows, lookup_insert_eq, <- app_assoc.
  repeat split.
Qed.

Lemma C2_first_placement_witness :
  let file := lines_file "enavi202506(3034).csv" 5 in
  let st' := processFile sample_libs sample_workbook initial file in
  warnings st' = [] /\ sheetRowPtr st' !! "6" = Some 9.
Proof.
  cbv zeta.
  pose proof (C2_first_placement sample_libs sample_workbook initial
                (lines_file "enavi202506(3034).csv" 5) "6"
                {| text := [104; 49; 44; 104; 50] ++ concat (repeat [10; 97; 44; 98] 5);
                   encoding := "UTF-8" |}
                {| data := List.map (fun l => split_at 44 l [])
                             ([104; 49; 44; 104; 50] :: repeat [97; 44; 98] 5);
                   errors := [] |}
                eq_refl (or_introl eq_refl) eq_refl eq_refl eq_refl eq_refl eq_refl eq_refl)
    as H.
  cbv zeta in H. destruct H as (_ & _ & _ & _ & _ & _ & _ & _ & _ & Hwarn & Hptr).
  split; [exact Hwarn|exact Hptr].
Defined.

(** C3: in an import, whenever the data of a file would end past row 200
    (the row pointer plus the number of data rows is more than 200), the
    rows kept are the first ones that fit, so that the last row written is
    row 200; the warning that names the truncation is recorded, the
    placement is marked truncated, and the row pointer becomes exactly 200.
    When the data fit, all the rows are written, there is no warning and
    the pointer is left on the last of them.  In every placement the end
    row and the last row written stay within row 200.  (The host is taken
    to carry the write out; a write that throws leaves the pointer where it
    was.) *)
Theorem C3_truncation (libs : Libs) (wb : Workbook) (earlier : list File)
    (file : File) (month : string) (st1 : State)
    (decoded : Decoded) (parseResult : ParseResult) :
  let st := processFiles libs wb initial earlier in
  extractMonthFromFileName (name file) = Some month ->
  In month (worksheets wb) ->
  clearOnce wb st month = inl st1 ->
  readCsvFile libs file = Ok decoded ->
  Papa_parse libs SkipGreedy (text decoded) = Ok parseResult ->
  (2 <= length (data parseResult))%nat ->
  let rowPtr := rowPtr_of st1 month in
  let rows := data_rows parseResult in
  let p := place rowPtr rows in
  let fileNameRow := text_of_string (name file) :: repeat [] (MAX_COLS - 1) in
  Excel_run wb (PutRows month (fileNameRowNum p) fileNameRow (actualDataRows p)) = None ->
  let st' := processFile libs wb st file in
  (dataEndRow p = rowPtr + Z.of_nat (length rows)
   /\ endRow p <= MAX_ROW /\ lastRowWritten p <= MAX_ROW
   /\ sheetRowPtr st' !! month = Some (endRow p)
   /\ exists written, grid st' = grid st1 ++ [PutRows month rowPtr fileNameRow written]
                      /\ rowPtr + Z.of_nat (length written) <= MAX_ROW)
  /\ (rowPtr + Z.of_nat (length rows) > MAX_ROW ->
      let kept := take (Z.to_nat (MAX_ROW - rowPtr)) rows in
      truncated p = true
      /\ actualDataRows p = kept
      /\ rowPtr + Z.of_nat (length kept) = MAX_ROW
      /\ lastRowWritten p = MAX_ROW
      /\ endRow p = MAX_ROW
      /\ warnings st' = warnings st1 ++ [(file_label file ++ msg_truncated)%string]
      /\ warnings st1 = warnings st
      /\ grid st' = grid st1 ++ [PutRows month rowPtr fileNameRow kept]
      /\ sheetRowPtr st' !! month = Some MAX_ROW)
  /\ (rowPtr + Z.of_nat (length rows) <= MAX_ROW ->
      truncated p = false
      /\ warnings st' = warnings st
      /\ grid st' = grid st1 ++ [PutRows month rowPtr fileNameRow rows]
      /\ sheetRowPtr st' !! month = Some (rowPtr + Z.of_nat (length rows))).
Proof.
  intros st Hroute Hw Hclear Hread Hparse Hlen rowPtr rows p fileNameRow Hput st'.
  pose proof (extract_month_names _ _ Hroute) as Hm.
  assert (HI : Inv wb st) by apply processFiles_ok, initial_ok.
  destruct (clearOnce_ok wb _ _ _ Hm Hw Hclear HI) as [Hc1 _].
  pose proof (rowPtr_of_range wb st1 month Hc1) as Hr. fold rowPtr in Hr.
  assert (Hn : (1 <= length rows)%nat)
    by (unfold rows; rewrite data_rows_length; lia).
  destruct (place_bounds _ rows Hr Hn) as (Hf & Hlast & Hnext & _ & _).
  fold p in Hf, Hlast, Hnext.
  assert (Hst : st' = written_state
                        (if truncated p
                         then warn st1 (file_label file ++ msg_truncated)%string
                         else st1) month file p).
  { unfold st'. apply (processFile_placed libs wb st st1 file month decoded parseResult);
      assumption. }
  assert (Hptr : sheetRowPtr st' !! month = Some (endRow p)).
  { rewrite Hst. cbn. apply lookup_insert_eq. }
  assert (Hgrid : grid st' = grid st1 ++ [PutRows month rowPtr fileNameRow (actualDataRows p)]).
  { rewrite Hst. cbn. rewrite Hf. destruct (truncated p); reflexivity. }
  assert (Hwarn1 : warnings st1 = warnings st).
  { destruct (clearOnce_shape _ _ _ _ Hclear) as [[_ ->] | (_ & _ & ->)]; reflexivity. }
  split; [|split].
  - split.
    { unfold p, place. destruct (_ >? MAX_ROW); cbn; lia. }
    unfold endRow. split; [lia|]. split; [exact Hlast|]. split; [exact Hptr|].
    exists (actualDataRows p). split; [exact Hgrid|].
    unfold lastRowWritten in Hlast. rewrite Hf in Hlast. exact Hlast.
  - intros Hover kept.
    assert (Hp : p = {| fileNameRowNum := rowPtr; dataStartRow := rowPtr + 1;
                        dataEndRow := rowPtr + 1 + Z.of_nat (length rows) - 1;
                        actualDataRows := kept; truncated := true |})
      by (apply place_overflow; lia).
    assert (Hk : rowPtr + Z.of_nat (length kept) = MAX_ROW).
    { unfold kept. rewrite length_take. unfold MAX_ROW in *. lia. }
    rewrite Hptr, Hgrid, Hst. unfold endRow, lastRowWritten, nextRowPtr. rewrite Hp.
    cbn [truncated actualDataRows fileNameRowNum written_state warnings warn].
    repeat split; try reflexivity; assumption.
  - intros Hfit.
    assert (Hp : p = {| fileNameRowNum := rowPtr; dataStartRow := rowPtr + 1;
                        dataEndRow := rowPtr + 1 + Z.of_nat (length rows) - 1;
                        actualDataRows := rows; truncated := false |})
      by (apply place_fits; exact Hfit).
    rewrite Hptr, Hgrid, Hst. unfold endRow, nextRowPtr. rewrite Hp.
    cbn [truncated actualDataRows dataStartRow written_state warnings].
    repeat split; try reflexivity; try assumption. f_equal. lia.
Qed.

Lemma C3_truncation_witness :
  let file := lines_file "enavi202506(3034).csv" 200 in
  let st' := processFile sample_libs sample_workbook initial file in
  sheetRowPtr st' !! "6" = Some MAX_ROW
  /\ warnings st' = [(file_label file ++ msg_truncated)%string].
Proof.
  cbv zeta.
  pose proof (C3_truncation sample_libs sample_workbook []
                (lines_file "enavi202506(3034).csv" 200) "6"
                (cleared_state initial "6") (lines_decoded 200) (lines_parsed 200)
                eq_refl (or_introl eq_refl) eq_refl
                ltac:(vm_compute; reflexivity) ltac:(vm_compute; reflexivity)
                ltac:(vm_compute; lia) eq_refl) as H.
  cbv zeta in H. destruct H as (_ & H & _).
  destruct (H ltac:(vm_compute; reflexivity)) as (_ & _ & _ & _ & _ & Hwarn & _ & _ & Hptr).
  split; [exact Hptr|exact Hwarn].
Defined.

(** After a truncating placement from a pointer below row 200, row 200
    holds the last data row that was kept. *)
Lemma truncated_last_row (st : State) (month : string) (file : File)
    (rowPtr : Z) (rows : list (list Text)) :
  4 <= rowPtr < MAX_ROW ->
  rowPtr + Z.of_nat (length rows) > MAX_ROW ->
  row_content (grid (written_state st month file (place rowPtr rows))) month MAX_ROW None
  = rows !! Z.to_nat (MAX_ROW - rowPtr - 1).
Proof.
  intros Hr Hover. rewrite place_overflow by lia.
  cbn [written_state grid fileNameRowNum actualDataRows].
  rewrite row_content_app. cbn [row_content]. rewrite String.eqb_refl.
  destruct (MAX_ROW =? rowPtr) eqn:E; [apply Z.eqb_eq in E; lia|].
  rewrite length_take.
  replace ((rowPtr <? MAX_ROW) && (MAX_ROW <=? rowPtr + _)) with true
    by (symmetry; apply andb_true_iff; split; [apply Z.ltb_lt|apply Z.leb_le]; lia).
  apply lookup_take_lt. lia.
Qed.

(** *** The row under the pointer *)

Lemma last_put_app (a b : list HostCall) (sheet : string)
    (acc : option (Z * list Text * list (list Text))) :
  last_put (a ++ b) sheet acc = last_put b sheet (last_put a sheet acc).
Proof.
  revert acc. induction a as [|c a IH]; intros acc; [reflexivity|].
  destruct c; cbn [app last_put]; apply IH.
Qed.

Lemma initial_pointer : pointer_on_last_write initial.
Proof.
  split; [reflexivity|]. intros k v. cbn. rewrite lookup_empty. discriminate.
Qed.

Lemma cleared_state_pointer (st : State) (month : string) :
  not_cleared st month = true ->
  pointer_on_last_write st -> pointer_on_last_write (cleared_state st month).
Proof.
  intros Hn [Hnone Hptr]. split.
  - intros k Hk. cbn [cleared_state grid]. rewrite last_put_app. cbn [last_put].
    apply Hnone. destruct (decide (month = k)) as [<-|Hne]; [exact Hn|].
    unfold not_cleared in Hk |- *. cbn in Hk.
    rewrite lookup_insert_ne in Hk by assumption. exact Hk.
  - intros k v. cbn [cleared_state grid sheetRowPtr].
    rewrite last_put_app, row_content_app. cbn [last_put row_content].
    destruct (decide (month = k)) as [<-|Hne].
    + rewrite lookup_insert_eq. intros [= <-]. rewrite (Hnone _ Hn). reflexivity.
    + rewrite lookup_insert_ne by assumption.
      replace (String.eqb month k) with false
        by (symmetry; apply String.eqb_neq; exact Hne).
      cbn [andb]. apply Hptr.
Qed.

Lemma clearOnce_pointer (wb : Workbook) (st st1 : State) (month : string) :
  clearOnce wb st month = inl st1 ->
  pointer_on_last_write st -> pointer_on_last_write st1.
Proof.
  intros Hclear HP.
  destruct (clearOnce_shape _ _ _ _ Hclear) as [[_ ->] | (Hn & _ & ->)];
    [exact HP | apply cleared_state_pointer; assumption].
Qed.

Lemma written_state_pointer (wb : Workbook) (st : State) (month : string) (file : File)
    (rows : list (list Text)) :
  sheetCleared st !! month = Some true ->
  (1 <= length rows)%nat ->
  cursors_ok wb st ->
  pointer_on_last_write st ->
  pointer_on_last_write (written_state st month file (place (rowPtr_of st month) rows)).
Proof.
  intros Hcl Hn Hc [Hnone Hptr].
  pose proof (rowPtr_of_range wb st month Hc) as Hr.
  destruct (place_bounds _ rows Hr Hn) as (Hf & Hlast & Hnext & Hfalse & Htrue).
  set (p := place (rowPtr_of st month) rows) in *.
  assert (Hnx : nextRowPtr p = fileNameRowNum p + Z.of_nat (length (actualDataRows p))).
  { destruct (truncated p) eqn:E.
    - destruct (Htrue eq_refl) as [H1 H2]. unfold lastRowWritten in H1. lia.
    - destruct (Hfalse eq_refl) as (_ & H1 & _). exact H1. }
  split.
  - intros k Hk. cbn [written_state grid]. rewrite last_put_app. cbn [last_put].
    destruct (decide (month = k)) as [<-|Hne].
    + unfold not_cleared in Hk. cbn in Hk. rewrite Hcl in Hk. discriminate Hk.
    + replace (String.eqb month k) with false
        by (symmetry; apply String.eqb_neq; exact Hne).
      apply Hnone. exact Hk.
  - intros k v. cbn [written_state grid sheetRowPtr].
    rewrite last_put_app, row_content_app. cbn [last_put row_content].
    destruct (decide (month = k)) as [<-|Hne].
    + rewrite lookup_insert_eq, String.eqb_refl. intros [= <-].
      split; [exact Hnx|]. split; [lia|].
      unfold bottom_row. rewrite last_lookup, Hnx.
      destruct (actualDataRows p) as [|row0 rest] eqn:Ea.
      * cbn [length]. rewrite Z.add_0_r, Z.eqb_refl. reflexivity.
      * set (n := length (row0 :: rest)).
        assert (Hpos : (1 <= n)%nat) by (unfold n; cbn; lia).
        replace (fileNameRowNum p + Z.of_nat n =? fileNameRowNum p) with false
          by (symmetry; apply Z.eqb_neq; lia).
        replace ((fileNameRowNum p <? fileNameRowNum p + Z.of_nat n)
                 && (fileNameRowNum p + Z.of_nat n <=? fileNameRowNum p + Z.of_nat n))
          with true
          by (symmetry; apply andb_true_iff; split; [apply Z.ltb_lt|apply Z.leb_le]; lia).
        replace (Z.to_nat (fileNameRowNum p + Z.of_nat n - fileNameRowNum p - 1))
          with (pred n) by lia.
        destruct ((row0 :: rest) !! pred n) as [d|] eqn:El; [reflexivity|].
        apply lookup_ge_None in El. fold n in El. lia.
    + rewrite lookup_insert_ne by assumption.
      replace (String.eqb month k) with false
        by (symmetry; apply String.eqb_neq; exact Hne).
      apply Hptr.
Qed.

Lemma processFile_pointer (libs : Libs) (wb : Workbook) (st : State) (file : File) :
  Inv wb st -> pointer_on_last_write st ->
  pointer_on_last_write (processFile libs wb st file).
Proof.
  intros HI HP.
  destruct (processFile_turn libs wb st file)
    as [w _ | month st1 w _ Hroute Hw Hclear _
        | month st1 decoded parseResult e Hroute Hw Hclear _ _ _ p st2 _
        | month st1 decoded parseResult Hroute Hw Hclear _ _ Hlen p st2 _].
  - exact HP.
  - exact (clearOnce_pointer wb _ _ _ Hclear HP).
  - subst st2. destruct (truncated p); exact (clearOnce_pointer wb _ _ _ Hclear HP).
  - pose proof (extract_month_names _ _ Hroute) as Hm.
    destruct (clearOnce_ok wb _ _ _ Hm Hw Hclear HI) as [Hc1 _].
    pose proof (clearOnce_cleared wb _ _ _ Hclear) as Hcl.
    assert (Hn : (1 <= length (data_rows parseResult))%nat)
      by (rewrite data_rows_length; lia).
    pose proof (written_state_pointer wb st1 month file _ Hcl Hn Hc1
                  (clearOnce_pointer wb _ _ _ Hclear HP)) as HW.
    subst st2 p. destruct (truncated _); exact HW.
Qed.

Lemma processFiles_pointer (libs : Libs) (wb : Workbook) (files : list File) (st : State) :
  Inv wb st -> pointer_on_last_write st ->
  pointer_on_last_write (processFiles libs wb st files).
Proof.
  revert st. induction files as [|f files IH]; intros st HI HP; [exact HP|].
  cbn. apply IH; [apply processFile_ok, HI|apply processFile_pointer; assumption].
Qed.

(** The claim as worded fails on three files for one sheet: the first
    fills the sheet to row 200, the second puts its name in row 200 and
    writes no data row, so the third finds in row 200 the file-name row of
    the second, not a data row. *)
Lemma C9_counterexample :
  let a := lines_file "enavi202506(3034).csv" 200 in
  let b := lines_file "enavi202506(9999).csv" 1 in
  let st := processFiles sample_libs sample_workbook initial [a; b] in
  let nameRow := text_of_string (name b) :: repeat [] (MAX_COLS - 1) in
  sheetRowPtr st !! "6" = Some MAX_ROW
  /\ last_put (grid st) "6" None = Some (MAX_ROW, nameRow, [])
  /\ row_content (grid st) "6" MAX_ROW None = Some nameRow
  /\ ~ C9_overwrites_data_row.
Proof.
  cbv zeta. split; [vm_compute; reflexivity|].
  assert (Hlast : last_put
            (grid (processFiles sample_libs sample_workbook initial
                     [lines_file "enavi202506(3034).csv" 200;
                      lines_file "enavi202506(9999).csv" 1])) "6" None
          = Some (MAX_ROW,
                  text_of_string (name (lines_file "enavi202506(9999).csv" 1))
                    :: repeat [] (MAX_COLS - 1), []))
    by (vm_compute; reflexivity).
  split; [exact Hlast|]. split; [vm_compute; reflexivity|].
  intros H.
  destruct (H sample_libs sample_workbook
              [lines_file "enavi202506(3034).csv" 200;
               lines_file "enavi202506(9999).csv" 1]
              (lines_file "enavi202506(0001).csv" 1) "6"
              (lines_decoded 1) (lines_parsed 1)
              ltac:(vm_compute; reflexivity) eq_refl
              ltac:(vm_compute; reflexivity) ltac:(vm_compute; reflexivity)
              ltac:(vm_compute; lia))
    as (r & prevNameRow & rows & dataRow & Hl & Hd & _).
  rewrite Hlast in Hl. injection Hl as _ _ <-. discriminate Hd.
Qed.

(** C9 (amended): when the row pointer of a key is already 200, the next
    file with data rows for that key has its file-name row written at row
    200, over the last row of the last write to that sheet: the last data
    row of that write or, when that write was itself made at row 200 and
    so had no data row, its file-name row.  None of the data rows of the
    new file is written, the truncation warning is recorded, and the
    pointer stays at 200.  In the whole import no file-name row is placed
    past row 200. *)
Theorem C9_marker_at_capacity (libs : Libs) (wb : Workbook) (earlier : list File)
    (file : File) (month : string) (decoded : Decoded) (parseResult : ParseResult) :
  let st := processFiles libs wb initial earlier in
  sheetRowPtr st !! month = Some MAX_ROW ->
  extractMonthFromFileName (name file) = Some month ->
  readCsvFile libs file = Ok decoded ->
  Papa_parse libs SkipGreedy (text decoded) = Ok parseResult ->
  (2 <= length (data parseResult))%nat ->
  let fileNameRow := text_of_string (name file) :: repeat [] (MAX_COLS - 1) in
  Excel_run wb (PutRows month MAX_ROW fileNameRow []) = None ->
  let st' := processFile libs wb st file in
  grid st' = grid st ++ [PutRows month MAX_ROW fileNameRow []]
  /\ warnings st' = warnings st ++ [(file_label file ++ msg_truncated)%string]
  /\ sheetRowPtr st' !! month = Some MAX_ROW
  /\ row_content (grid st') month MAX_ROW None = Some fileNameRow
  /\ (exists r prevNameRow rows,
        last_put (grid st) month None = Some (r, prevNameRow, rows)
        /\ 4 <= r /\ r + Z.of_nat (length rows) = MAX_ROW
        /\ row_content (grid st) month MAX_ROW None
           = Some (match last rows with
                   | Some dataRow => dataRow
                   | None => prevNameRow
                   end))
  /\ Forall (call_ok wb) (grid st').
Proof.
  intros st Hptr Hroute Hread Hparse Hlen fileNameRow Hput st'.
  assert (HI : Inv wb st) by apply processFiles_ok, initial_ok.
  assert (HP : pointer_on_last_write st)
    by (apply processFiles_pointer; [apply initial_ok|apply initial_pointer]).
  destruct HI as [Hc Hg]. destruct (Hc _ _ Hptr) as (_ & Hcl & Hw).
  assert (Hclear : clearOnce wb st month = inl st).
  { unfold clearOnce, not_cleared. rewrite Hcl. reflexivity. }
  assert (Hrp : rowPtr_of st month = MAX_ROW) by (apply (rowPtr_of_Some wb); assumption).
  assert (Hp : place (rowPtr_of st month) (data_rows parseResult) =
               {| fileNameRowNum := MAX_ROW; dataStartRow := MAX_ROW + 1;
                  dataEndRow := MAX_ROW + 1 + Z.of_nat (length (data_rows parseResult)) - 1;
                  actualDataRows := []; truncated := true |}).
  { rewrite Hrp, place_overflow; [|lia|rewrite data_rows_length; lia].
    rewrite Z.sub_diag. reflexivity. }
  assert (Hst : st' = written_state (warn st (file_label file ++ msg_truncated)%string)
                        month file (place (rowPtr_of st month) (data_rows parseResult))).
  { unfold st'.
    rewrite (processFile_placed libs wb st st file month decoded parseResult
               Hroute Hw Hclear Hread Hparse Hlen).
    - rewrite Hp. reflexivity.
    - rewrite Hp. exact Hput. }
  assert (Hgrid : grid st' = grid st ++ [PutRows month MAX_ROW fileNameRow []]).
  { rewrite Hst, Hp. reflexivity. }
  split; [exact Hgrid|]. split; [rewrite Hst; reflexivity|].
  split; [rewrite Hst, Hp; cbn; apply lookup_insert_eq|].
  split; [|split].
  - rewrite Hgrid, row_content_app. cbn [row_content].
    rewrite String.eqb_refl, Z.eqb_refl. reflexivity.
  - pose proof (proj2 HP _ _ Hptr) as Hlast.
    destruct (last_put (grid st) month None) as [[[r prevNameRow] rows]|];
      [|unfold MAX_ROW in Hlast; discriminate Hlast].
    destruct Hlast as (Hv & Hr & Hrow).
    exists r, prevNameRow, rows. split; [reflexivity|]. split; [exact Hr|].
    split; [symmetry; exact Hv|exact Hrow].
  - apply (processFile_ok libs wb st file). split; assumption.
Qed.

(** The scenario of C9 run on two files: the first fills the sheet up to
    row 200, where its last kept data row lands; the second puts its name
    in that row. *)
Lemma C9_marker_witness :
  let a := lines_file "enavi202506(3034).csv" 200 in
  let b := lines_file "enavi202506(9999).csv" 1 in
  let st := processFiles sample_libs sample_workbook initial [a] in
  let st' := processFile sample_libs sample_workbook st b in
  row_content (grid st) "6" MAX_ROW None = Some (normalizeRow [[97]; [98]])
  /\ row_content (grid st') "6" MAX_ROW None
     = Some (text_of_string (name b) :: repeat [] (MAX_COLS - 1))
  /\ sheetRowPtr st' !! "6" = Some MAX_ROW.
Proof.
  cbv zeta. split; [vm_compute; reflexivity|].
  pose proof (C9_marker_at_capacity sample_libs sample_workbook
                [lines_file "enavi202506(3034).csv" 200]
                (lines_file "enavi202506(9999).csv" 1) "6"
                (lines_decoded 1) (lines_parsed 1)
                ltac:(vm_compute; reflexivity) eq_refl
                ltac:(vm_compute; reflexivity) ltac:(vm_compute; reflexivity)
                ltac:(vm_compute; lia) eq_refl) as H.
  cbv zeta in H. destruct H as (_ & _ & Hptr & Hrow & _ & _).
  split; [exact Hrow|exact Hptr].
Defined.

(** ** Files without data rows *)

Lemma empty_file_no_data (fileName : string) :
  no_data_rows sample_libs {| name := fileName; bytes := [] |}.
Proof.
  intros decoded parseResult Hd Hp.
  vm_compute in Hd. injection Hd as <-.
  vm_compute in Hp. injection Hp as <-. cbn. lia.
Defined.

(** C4 (counterexample): an empty file named for June, as the first file of
    an import into a workbook that has the sheet 6.  The file is skipped
    with a warning, but the sheet has been cleared and its row pointer set
    to 4 on the way. *)
Lemma C4_counterexample :
  let file := {| name := "enavi202506(3034).csv"; bytes := [] |} in
  let st' := processFile sample_libs sample_workbook initial file in
  warnings st' = [(file_label file ++ msg_empty)%string]
  /\ grid st' = [ClearRange "6"]
  /\ sheetCleared st' !! "6" = Some true
  /\ sheetRowPtr st' !! "6" = Some 4
  /\ sheetRowPtr initial !! "6" = None
  /\ ~ C4_unseen_key_untouched.
Proof.
  cbv zeta. repeat (split; [vm_compute; reflexivity|]).
  intros H.
  destruct (H sample_libs sample_workbook initial
              {| name := "enavi202506(3034).csv"; bytes := [] |} "6"
              (empty_file_no_data _) eq_refl eq_refl) as [Hg _].
  vm_compute in Hg. discriminate Hg.
Qed.

(** C4 (amended): a file that contributes no data row (empty, or a header
    only) ends its turn with exactly one more warning and no write.  The
    row pointer and the cleared mark of every key already cleared are left
    as they were.  The clear, however, comes before the file is read: when
    the file routes to a sheet of the workbook that the import has not
    cleared yet and the host carries the clear out, the sheet is cleared,
    marked cleared and its pointer set to 4; in every other case the turn
    changes nothing but the warnings. *)
Theorem C4_no_data_rows (libs : Libs) (wb : Workbook) (st : State) (file : File) :
  no_data_rows libs file ->
  let st' := processFile libs wb st file in
  (exists w, warnings st' = warnings st ++ [w])
  /\ (forall c, In c (grid st') -> In c (grid st) \/ exists sheet, c = ClearRange sheet)
  /\ (forall k, sheetCleared st !! k = Some true ->
        sheetRowPtr st' !! k = sheetRowPtr st !! k
        /\ sheetCleared st' !! k = Some true)
  /\ (forall month,
        extractMonthFromFileName (name file) = Some month ->
        In month (worksheets wb) ->
        not_cleared st month = true ->
        Excel_run wb (ClearRange month) = None ->
        exists w, st' = warn (cleared_state st month) w)
  /\ ((forall month,
         extractMonthFromFileName (name file) = Some month ->
         In month (worksheets wb) ->
         not_cleared st month = true ->
         Excel_run wb (ClearRange month) <> None) ->
      exists w, st' = warn st w).
Proof.
  intros Hno st'.
  assert (Hcases :
    (exists w, st' = warn st w)
    \/ (exists month w,
          extractMonthFromFileName (name file) = Some month
          /\ In month (worksheets wb)
          /\ not_cleared st month = true
          /\ Excel_run wb (ClearRange month) = None
          /\ st' = warn (cleared_state st month) w)).
  { unfold st'.
    destruct (extractMonthFromFileName (name file)) as [month|] eqn:Hroute.
    2:{ left. apply processFile_not_routed. intros m Hm. rewrite Hroute in Hm. discriminate. }
    destruct (in_dec String.string_dec month (worksheets wb)) as [Hw|Hw].
    2:{ left. apply processFile_not_routed. intros m Hm.
        rewrite Hroute in Hm. injection Hm as <-. exact Hw. }
    destruct (clearOnce wb st month) as [st1|e] eqn:Hclear.
    - destruct (processFile_no_rows libs wb st st1 file month Hno Hroute Hw Hclear)
        as [w Hw'].
      destruct (clearOnce_shape _ _ _ _ Hclear) as [[_ ->] | (Hn & Hrun & ->)].
      + left. eauto.
      + right. exists month, w. repeat split; assumption.
    - left. rewrite (processFile_front _ _ _ _ _ Hroute Hw), Hclear.
      unfold caught. eauto. }
  split; [|split; [|split; [|split]]].
  - destruct Hcases as [[w ->] | (month & w & _ & _ & _ & _ & ->)]; exists w; reflexivity.
  - intros c Hc.
    destruct Hcases as [[w Hs] | (month & w & _ & _ & _ & _ & Hs)];
      rewrite Hs in Hc; cbn in Hc; [left; exact Hc|].
    apply in_app_or in Hc as [Hc|[<-|[]]]; [left; exact Hc|right; eauto].
  - intros k Hk.
    destruct Hcases as [[w ->] | (month & w & _ & _ & Hn & _ & ->)]; cbn;
      [split; [reflexivity|exact Hk]|].
    assert (Hne : month <> k).
    { intros ->. unfold not_cleared in Hn. rewrite Hk in Hn. discriminate Hn. }
    rewrite !lookup_insert_ne by assumption. split; [reflexivity|exact Hk].
  - intros month Hroute Hw Hn Hrun. unfold st'.
    apply (processFile_no_rows libs wb st _ file month Hno Hroute Hw).
    apply clearOnce_unseen; assumption.
  - intros Hnone.
    destruct Hcases as [H | (month & w & Hroute & Hw & Hn & Hrun & _)]; [exact H|].
    destruct (Hnone month Hroute Hw Hn Hrun).
Qed.

Lemma C4_no_data_rows_witness :
  let file := {| name := "enavi202507(3034).csv"; bytes := [] |} in
  let st := processFiles sample_libs sample_workbook initial
              [lines_file "enavi202507(1).csv" 3] in
  let st' := processFile sample_libs sample_workbook st file in
  (exists w, warnings st' = warnings st ++ [w])
  /\ sheetRowPtr st' !! "7" = Some 7.
Proof.
  cbv zeta.
  pose proof (C4_no_data_rows sample_libs sample_workbook
                (processFiles sample_libs sample_workbook initial
                   [lines_file "enavi202507(1).csv" 3])
                {| name := "enavi202507(3034).csv"; bytes := [] |}
                (empty_file_no_data _)) as H.
  cbv zeta in H. destruct H as (Hwarn & _ & Hkeep & _).
  split; [exact Hwarn|].
  destruct (Hkeep "7" ltac:(vm_compute; reflexivity)) as [Hptr _].
  rewrite Hptr. vm_compute. reflexivity.
Defined.

(** ** The warnings of an import *)

Lemma clearOnce_warnings (wb : Workbook) (st st1 : State) (month : string) :
  clearOnce wb st month = inl st1 -> warnings st1 = warnings st.
Proof.
  intros Hclear.
  destruct (clearOnce_shape _ _ _ _ Hclear) as [[_ ->] | (_ & _ & ->)]; reflexivity.
Qed.

Lemma labelled_intro (file : File) (m : string) :
  labelled file (file_label file ++ m)%string.
Proof. exists m. reflexivity. Qed.

(** What one turn adds to the warnings: lines that name the file, and none
    at all exactly when the file was written in full. *)
Lemma processFile_warnings (libs : Libs) (wb : Workbook) (st : State) (file : File) :
  exists ws,
    warnings (processFile libs wb st file) = warnings st ++ ws
    /\ Forall (labelled file) ws
    /\ (ws = [] <-> written_in_full libs wb st file).
Proof.
  assert (Hnot : forall (w : string) ws', warnings st ++ w :: ws' = warnings st ->
                                         False).
  { intros w ws' H. apply (f_equal (@length string)) in H.
    rewrite length_app in H. cbn in H. lia. }
  assert (Hfull : forall ws,
            warnings (processFile libs wb st file) = warnings st ++ ws ->
            written_in_full libs wb st file -> ws = []).
  { intros ws Hws (month & st1 & decoded & parseResult & _ & Hclear & _ & _ & _ & _ & Heq).
    rewrite Heq in Hws. cbn in Hws. rewrite (clearOnce_warnings _ _ _ _ Hclear) in Hws.
    destruct ws as [|w ws']; [reflexivity|]. symmetry in Hws. destruct (Hnot _ _ Hws). }
  remember (processFile libs wb st file) as st' eqn:Hst'.
  pose proof (processFile_turn libs wb st file) as HT. rewrite <- Hst' in HT.
  destruct HT
    as [w Hl | month st1 w Hl Hroute Hw Hclear _
        | month st1 decoded parseResult e Hroute Hw Hclear Hread Hparse Hlen p st2 Hput
        | month st1 decoded parseResult Hroute Hw Hclear Hread Hparse Hlen p st2 Hput].
  - exists [w]. split; [reflexivity|]. split; [repeat constructor; exact Hl|].
    split; [discriminate|]. intros Hf. apply (Hfull [w]); [reflexivity|exact Hf].
  - exists [w]. split; [cbn; rewrite (clearOnce_warnings _ _ _ _ Hclear); reflexivity|].
    split; [repeat constructor; exact Hl|].
    split; [discriminate|]. intros Hf. apply (Hfull [w]); [|exact Hf].
    cbn. rewrite (clearOnce_warnings _ _ _ _ Hclear). reflexivity.
  - exists ((if truncated p then [(file_label file ++ msg_truncated)%string] else [])
            ++ [(file_label file ++ errorMessage e)%string]).
    assert (Hws : warnings (caught st2 file e) = warnings st ++
              ((if truncated p then [(file_label file ++ msg_truncated)%string] else [])
               ++ [(file_label file ++ errorMessage e)%string])).
    { subst st2. destruct (truncated p); cbn;
        rewrite (clearOnce_warnings _ _ _ _ Hclear), <- ?app_assoc; reflexivity. }
    split; [exact Hws|]. split.
    + apply Forall_app. split; [destruct (truncated p)|];
        repeat constructor; apply labelled_intro.
    + split; [destruct (truncated p); discriminate|].
      intros Hf. apply (Hfull _ Hws Hf).
  - assert (Hws : warnings (written_state st2 month file p) = warnings st ++
              (if truncated p then [(file_label file ++ msg_truncated)%string] else [])).
    { subst st2. destruct (truncated p); cbn;
        rewrite (clearOnce_warnings _ _ _ _ Hclear), ?app_nil_r; reflexivity. }
    exists (if truncated p then [(file_label file ++ msg_truncated)%string] else []).
    split; [exact Hws|]. split.
    + destruct (truncated p); repeat constructor; apply labelled_intro.
    + split; [|intros Hf; apply (Hfull _ Hws Hf)].
      intros Hnil. destruct (truncated p) eqn:Htr; [discriminate Hnil|].
      exists month, st1, decoded, parseResult.
      repeat (split; [assumption|]). symmetry. exact Hst'.
Qed.

Lemma processFiles_warnings (libs : Libs) (wb : Workbook) (files : list File) (st : State) :
  exists later, warnings (processFiles libs wb st files) = warnings st ++ later.
Proof.
  revert st. induction files as [|f files IH]; intros st.
  - exists []. cbn. rewrite app_nil_r. reflexivity.
  - change (processFiles libs wb st (f :: files))
      with (processFiles libs wb (processFile libs wb st f) files).
    destruct (IH (processFile libs wb st f)) as [later Hl].
    destruct (processFile_warnings libs wb st f) as (ws & Hws & _).
    exists (ws ++ later). rewrite Hl, Hws, app_assoc. reflexivity.
Qed.

(** C5 (counterexample): an import of a single file of 200 data rows.  The
    file is written (its name at row 4, 196 data rows below it), yet the
    import fails and the message names the file. *)
Lemma C5_counterexample :
  let file := lines_file "enavi202506(3034).csv" 200 in
  let out := importCsvQuick sample_libs sample_workbook (Ok [file]) in
  (exists rows,
      grid (fst out) = [ClearRange "6";
                        PutRows "6" 4 (text_of_string (name file) :: repeat [] (MAX_COLS - 1)) rows]
      /\ length rows = 196%nat)
  /\ warnings (fst out) = [(file_label file ++ msg_truncated)%string]
  /\ snd out = Throw (import_failed
                 (new_Error ("以下の警告がありました:" ++ newline
                             ++ file_label file ++ msg_truncated)%string))
  /\ ~ C5_only_failed_files_named.
Proof.
  cbv zeta. split; [|split; [|split]].
  - eexists. vm_compute. split; reflexivity.
  - vm_compute. reflexivity.
  - vm_compute. reflexivity.
  - intros H.
    apply (H sample_libs sample_workbook [lines_file "enavi202506(3034).csv" 200]
             (lines_file "enavi202506(3034).csv" 200)
             (file_label (lines_file "enavi202506(3034).csv" 200) ++ msg_truncated)%string
             (or_introl eq_refl)
             ltac:(vm_compute; left; reflexivity)
             (labelled_intro _ _)
             "6" 4 (take 196 (repeat (normalizeRow [[97]; [98]]) 200))).
    vm_compute. right. left. reflexivity.
Qed.

(** C5 (amended): every file of the selection is given its turn, whatever
    happened to the files before it: a file that cannot be routed, whose
    sheet is missing, that is empty or has no data rows, or whose reading,
    parsing or writing throws, ends its turn in a warning and the loop goes
    on.  The warnings of a file all start with its name and stand after
    those of the files before it and before those of the files after it.  A
    file adds no warning exactly when it was written in full; a file cut at
    row 200 is written and warned of.  After the last file the import
    succeeds when there is no warning, and otherwise fails with one error
    whose message holds all the warnings, in that order, separated by line
    feeds. *)
Theorem C5_batch_warnings (libs : Libs) (wb : Workbook)
    (files1 : list File) (file : File) (files2 : list File) :
  let files := files1 ++ file :: files2 in
  let before := processFiles libs wb initial files1 in
  let after := processFile libs wb before file in
  let out := importCsvQuick libs wb (Ok files) in
  fst out = processFiles libs wb after files2
  /\ (exists ws later,
        warnings after = warnings before ++ ws
        /\ warnings (fst out) = warnings before ++ ws ++ later
        /\ Forall (labelled file) ws
        /\ (ws = [] <-> written_in_full libs wb before file))
  /\ (warnings (fst out) = [] -> snd out = Ok tt)
  /\ (warnings (fst out) <> [] ->
      snd out = Throw (new_Error
                  ("CSVのインポートに失敗しました: " ++ "以下の警告がありました:" ++ newline
                   ++ join_lines (warnings (fst out)))%string)).
Proof.
  cbv zeta.
  assert (Hst : fst (importCsvQuick libs wb (Ok (files1 ++ file :: files2)))
                = processFiles libs wb
                    (processFile libs wb (processFiles libs wb initial files1) file) files2).
  { unfold importCsvQuick. rewrite processFiles_app. cbn [processFiles fold_left].
    destruct (0 <? _)%nat; reflexivity. }
  split; [exact Hst|]. split; [|split].
  - destruct (processFile_warnings libs wb (processFiles libs wb initial files1) file)
      as (ws & Hws & Hlab & Hfull).
    destruct (processFiles_warnings libs wb files2
                (processFile libs wb (processFiles libs wb initial files1) file))
      as [later Hlater].
    exists ws, later. split; [exact Hws|]. split; [|split; assumption].
    rewrite Hst, Hlater, Hws, app_assoc. reflexivity.
  - unfold importCsvQuick.
    destruct (warnings (processFiles libs wb initial (files1 ++ file :: files2))) eqn:E;
      cbn; [reflexivity|]. rewrite E. discriminate.
  - unfold importCsvQuick.
    destruct (warnings (processFiles libs wb initial (files1 ++ file :: files2))) eqn:E;
      cbn; [congruence|]. rewrite E. reflexivity.
Qed.

(** ** A Shift-JIS conversion that throws *)

(** C6 (evaluated on the code): when the bytes carry no mark, are not strict
    UTF-8, and the Shift-JIS conversion throws [e], [readCsvFile] of the card
    importer throws [e] as it came, and the loop records its bare message
    under the name of the file; the single-file importer throws a new error
    whose message names the failure as one of encoding detection. *)
Theorem C6_legacy_failure_not_identified (libs : Libs) (file : File) (e : Exn) :
  has_bom (bytes file) = false ->
  TextDecoder_decode true (bytes file) = None ->
  Encoding_Convert libs (bytes file) = Throw e ->
  readCsvFile libs file = Throw e
  /\ (forall wb st st1 month,
        extractMonthFromFileName (name file) = Some month ->
        In month (worksheets wb) ->
        clearOnce wb st month = inl st1 ->
        processFile libs wb st file
        = warn st1 (file_label file ++ errorMessage e)%string)
  /\ Simple.decode libs (bytes file) =
       Throw (new_Error (Simple.msg_encoding ++ String_of_exn e)%string)
  /\ (forall host, Simple.importCsvQuick libs host (Ok file) =
        Throw (new_Error ("CSVのインポートに失敗しました: " ++ Simple.msg_encoding
                          ++ String_of_exn e)%string)).
Proof.
  intros Hb Hd Hc.
  assert (Hread : readCsvFile libs file = Throw e)
    by (unfold readCsvFile; rewrite Hb, Hd, Hc; reflexivity).
  split; [exact Hread|]. split.
  - intros wb st st1 month Hroute Hw Hclear.
    rewrite (processFile_front _ _ _ _ _ Hroute Hw), Hclear, Hread. reflexivity.
  - unfold Simple.importCsvQuick, Simple.decode. rewrite Hb, Hd, Hc. split; reflexivity.
Qed.

Lemma C6_legacy_failure_witness :
  let file := {| name := "enavi202506(3034).csv"; bytes := [0x82; 0xA0] |} in
  readCsvFile failing_libs file = Throw load_error
  /\ warnings (processFile failing_libs sample_workbook initial file)
     = ["ファイル「enavi202506(3034).csv」: Failed to fetch dynamically imported module"]
  /\ Simple.decode failing_libs (bytes file)
     = Throw (new_Error
                "文字エンコーディングの判定に失敗しました: TypeError: Failed to fetch dynamically imported module").
Proof.
  cbv zeta.
  destruct (C6_legacy_failure_not_identified failing_libs
              {| name := "enavi202506(3034).csv"; bytes := [0x82; 0xA0] |} load_error
              eq_refl eq_refl eq_refl) as (Hread & Hloop & Hsimple & _).
  split; [exact Hread|]. split; [|exact Hsimple].
  rewrite (Hloop sample_workbook initial (cleared_state initial "6") "6"
             eq_refl (or_introl eq_refl) eq_refl).
  reflexivity.
Defined.

(** ** What the parser reports as errors *)

(** The [errors] of a parse result are logged to the console and nothing
    else: a turn of the loop is the same with a parser that reports none. *)
Lemma parse_errors_ignored (libs : Libs) (wb : Workbook) (st : State) (file : File) :
  processFile (without_parse_errors libs) wb st file = processFile libs wb st file.
Proof.
  unfold processFile.
  destruct (extractMonthFromFileName (name file)) as [month|]; [|reflexivity].
  destruct (String.eqb month ""); [reflexivity|].
  destruct (negb (sheetExists wb month)); [reflexivity|].
  destruct (clearOnce wb st month) as [st1|e]; [|reflexivity].
  replace (readCsvFile (without_parse_errors libs) file) with (readCsvFile libs file)
    by reflexivity.
  destruct (readCsvFile libs file) as [decoded|e]; [|reflexivity].
  cbn [Papa_parse without_parse_errors].
  destruct (Papa_parse libs SkipGreedy (text decoded)) as [r|e]; reflexivity.
Qed.

(** ** Further properties of the card importer *)

Lemma or_empty_id (x : Text) : or_empty x = x.
Proof. destruct x; reflexivity. Qed.

Lemma normalizeRow_take_pad (row : list Text) :
  normalizeRow row = take MAX_COLS row ++ replicate (MAX_COLS - length row) []
  /\ length (normalizeRow row) = MAX_COLS.
Proof.
  assert (Heq : normalizeRow row
                = take MAX_COLS row ++ replicate (MAX_COLS - length row) []).
  { apply list_eq. intros i. unfold normalizeRow. rewrite list_lookup_fmap.
    destruct (decide (i < MAX_COLS)%nat) as [Hi|Hi].
    - rewrite lookup_seq_lt by exact Hi. cbn [fmap option_fmap option_map Nat.add].
      rewrite or_empty_id.
      destruct (i <? length row)%nat eqn:E.
      + apply Nat.ltb_lt in E.
        rewrite lookup_app_l by (rewrite length_take; lia).
        rewrite lookup_take_lt by exact Hi.
        destruct (lookup_lt_is_Some_2 row i E) as [x Hx].
        rewrite Hx. f_equal. apply nth_lookup_Some with (d := []) in Hx. exact Hx.
      + apply Nat.ltb_ge in E.
        rewrite lookup_app_r by (rewrite length_take; lia).
        symmetry. apply lookup_replicate_2. rewrite length_take. lia.
    - rewrite lookup_seq_ge by lia. symmetry. apply lookup_ge_None_2.
      rewrite length_app, length_take, length_replicate. lia. }
  split; [exact Heq|].
  rewrite Heq, length_app, length_take, length_replicate. unfold MAX_COLS. lia.
Qed.

Lemma place_rows_subset (P : list Text -> Prop) (rowPtr : Z) (rows : list (list Text)) :
  Forall P rows -> Forall P (actualDataRows (place rowPtr rows)).
Proof.
  intros H. unfold place. destruct (_ >? MAX_ROW); cbn; [|exact H].
  unfold slice0. apply Forall_take, H.
Qed.

Lemma data_rows_twelve (parseResult : ParseResult) :
  Forall (fun r => length r = MAX_COLS) (data_rows parseResult).
Proof.
  unfold data_rows. apply Forall_forall. intros r Hr.
  apply list_elem_of_In, in_map_iff in Hr as (row & <- & _).
  apply normalizeRow_take_pad.
Qed.

(** X1: the normalisation of a row (lines 238-244) keeps its first twelve
    cells as they are, drops the cells past the twelfth and fills a shorter
    row up to twelve cells with empty strings. *)
Theorem X1_normalizeRow_cut_and_pad (row : list Text) :
  normalizeRow row = take MAX_COLS row ++ replicate (MAX_COLS - length row) []
  /\ length (normalizeRow row) = MAX_COLS.
Proof. apply normalizeRow_take_pad. Qed.


(** *** Invariants of the log of batches *)

Lemma split_snoc {A : Type} (pre post l : list A) (c x : A) :
  pre ++ c :: post = l ++ [x] ->
  (post = [] /\ pre = l /\ c = x)
  \/ (exists post', post = post' ++ [x] /\ l = pre ++ c :: post').
Proof.
  intros H. destruct post as [|y post _] using rev_ind.
  - apply app_inj_tail in H as [-> ->]. left. repeat split.
  - right. exists post.
    change (pre ++ c :: post ++ [y]) with (pre ++ (c :: post) ++ [y]) in H.
    rewrite app_assoc in H. apply app_inj_tail in H as [<- ->]. split; reflexivity.
Qed.

Lemma log_ok_clearOnce (wb : Workbook) (st st1 : State) (month : string) :
  clearOnce wb st month = inl st1 -> log_ok st ->
  log_ok st1 /\ In (ClearRange month) (grid st1).
Proof.
  intros Hclear [Hord Hiff].
  destruct (clearOnce_shape _ _ _ _ Hclear) as [[Hn ->] | (Hn & _ & ->)].
  - split; [split; assumption|]. apply Hiff, Hn.
  - split; [|cbn; apply in_or_app; right; left; reflexivity].
    split.
    + intros pre c post Heq. cbn in Heq. symmetry in Heq.
      apply split_snoc in Heq as [(_ & -> & ->) | (post' & _ & Hl)].
      * intros Hin. apply Hiff in Hin. congruence.
      * apply (Hord pre c post' Hl).
    + intros s. cbn. unfold not_cleared. cbn.
      destruct (decide (month = s)) as [<-|Hne].
      * rewrite lookup_insert_eq. cbn. split; [reflexivity|].
        intros _. apply in_or_app. right. left. reflexivity.
      * rewrite lookup_insert_ne by assumption. fold (not_cleared st s).
        rewrite <- Hiff. split.
        -- intros Hin. apply in_app_or in Hin as [Hin|[Hin|[]]]; [exact Hin|].
           injection Hin as ->. contradiction.
        -- intros Hin. apply in_or_app. left. exact Hin.
Qed.

Lemma log_ok_written (st : State) (month : string) (file : File) (p : Placement) :
  In (ClearRange month) (grid st) -> log_ok st ->
  log_ok (written_state st month file p).
Proof.
  intros Hin [Hord Hiff]. split.
  - intros pre c post Heq. cbn in Heq. symmetry in Heq.
    apply split_snoc in Heq as [(_ & -> & ->) | (post' & _ & Hl)].
    + exact Hin.
    + apply (Hord pre c post' Hl).
  - intros s. cbn. unfold not_cleared. cbn. fold (not_cleared st s).
    rewrite <- Hiff. split.
    + intros H. apply in_app_or in H as [H|[H|[]]]; [exact H|discriminate H].
    + intros H. apply in_or_app. left. exact H.
Qed.

Lemma processFile_log_ok (libs : Libs) (wb : Workbook) (st : State) (file : File) :
  log_ok st -> log_ok (processFile libs wb st file).
Proof.
  intros HJ.
  destruct (processFile_turn libs wb st file)
    as [w _ | month st1 w _ _ _ Hclear _
        | month st1 decoded parseResult e _ _ Hclear _ _ _ p st2 _
        | month st1 decoded parseResult _ _ Hclear _ _ _ p st2 _].
  - exact HJ.
  - exact (proj1 (log_ok_clearOnce wb _ _ _ Hclear HJ)).
  - subst st2. destruct (truncated p);
      exact (proj1 (log_ok_clearOnce wb _ _ _ Hclear HJ)).
  - destruct (log_ok_clearOnce wb _ _ _ Hclear HJ) as [HJ1 Hin].
    subst st2. destruct (truncated p);
      apply log_ok_written; assumption.
Qed.

Lemma processFiles_log_ok (libs : Libs) (wb : Workbook) (files : list File) (st : State) :
  log_ok st -> log_ok (processFiles libs wb st files).
Proof.
  revert st. induction files as [|f files IH]; intros st HJ; [exact HJ|].
  apply IH, processFile_log_ok, HJ.
Qed.

Lemma initial_log_ok : log_ok initial.
Proof.
  split.
  - intros pre c post Heq. destruct pre; discriminate Heq.
  - intros s. cbn. unfold not_cleared. cbn. rewrite lookup_empty. cbn.
    split; [intros []|discriminate].
Qed.

(** X2: in the log of an import, a sheet is cleared at most once, and every
    write to a sheet comes after the clear of that sheet (lines 187-201:
    one clear per sheet, before its first write). *)
Theorem X2_one_clear_before_writes (libs : Libs) (wb : Workbook) (files : list File) :
  clears_first (grid (processFiles libs wb initial files)).
Proof. apply (processFiles_log_ok libs wb files initial initial_log_ok). Qed.

Lemma processFile_twelve_wide (libs : Libs) (wb : Workbook) (st : State) (file : File) :
  Forall twelve_wide (grid st) ->
  Forall twelve_wide (grid (processFile libs wb st file)).
Proof.
  intros HT.
  assert (Hclr : forall month st1, clearOnce wb st month = inl st1 ->
                                   Forall twelve_wide (grid st1)).
  { intros month st1 Hclear.
    destruct (clearOnce_shape _ _ _ _ Hclear) as [[_ ->] | (_ & _ & ->)]; [exact HT|].
    cbn. apply Forall_app. split; [exact HT|]. repeat constructor. }
  destruct (processFile_turn libs wb st file)
    as [w _ | month st1 w _ _ _ Hclear _
        | month st1 decoded parseResult e _ _ Hclear _ _ _ p st2 _
        | month st1 decoded parseResult _ _ Hclear _ _ _ p st2 _].
  - exact HT.
  - exact (Hclr _ _ Hclear).
  - subst st2. destruct (truncated p); exact (Hclr _ _ Hclear).
  - assert (Hnew : twelve_wide (PutRows month (fileNameRowNum p)
                     (text_of_string (name file) :: repeat [] (MAX_COLS - 1))
                     (actualDataRows p))).
    { split; [reflexivity|].
      apply place_rows_subset, data_rows_twelve. }
    subst st2. destruct (truncated p); cbn; apply Forall_app;
      (split; [exact (Hclr _ _ Hclear)|constructor; [exact Hnew|constructor]]).
Qed.

(** X3: every write of an import fills exactly the twelve columns A to L:
    the file-name row and each data row written have twelve cells, whatever
    the width of the rows the parser returned. *)
Theorem X3_writes_twelve_columns (libs : Libs) (wb : Workbook) (files : list File) :
  Forall twelve_wide (grid (processFiles libs wb initial files)).
Proof.
  unfold processFiles.
  assert (H : forall st, Forall twelve_wide (grid st) ->
                         Forall twelve_wide (grid (fold_left (processFile libs wb) files st))).
  { induction files as [|f files IH]; intros st HT; [exact HT|].
    apply IH, processFile_twelve_wide, HT. }
  apply H. constructor.
Qed.

Lemma place_fileNameRowNum (rowPtr : Z) (rows : list (list Text)) :
  fileNameRowNum (place rowPtr rows) = rowPtr.
Proof. unfold place. destruct (_ >? MAX_ROW); reflexivity. Qed.

(** What a write leaves in its own rows. *)
Lemma written_row_content (st : State) (month : string) (file : File) (p : Placement) :
  row_content (grid (written_state st month file p)) month (fileNameRowNum p) None
  = Some (text_of_string (name file) :: repeat [] (MAX_COLS - 1))
  /\ ((1 <= length (actualDataRows p))%nat ->
      row_content (grid (written_state st month file p)) month (lastRowWritten p) None
      = last (actualDataRows p)).
Proof.
  cbn [written_state grid]. rewrite !row_content_app. cbn [row_content].
  rewrite String.eqb_refl. split.
  - rewrite Z.eqb_refl. reflexivity.
  - intros Hn. unfold lastRowWritten.
    destruct (_ =? fileNameRowNum p) eqn:E; [apply Z.eqb_eq in E; lia|].
    replace ((fileNameRowNum p <? _) && (_ <=? _)) with true
      by (symmetry; apply andb_true_iff; split; [apply Z.ltb_lt|apply Z.leb_le]; lia).
    rewrite last_lookup. f_equal. lia.
Qed.

(** X4: when two files of an import go to the same sheet one after the
    other, and the first is written from a row below 200, the file-name row
    of the second is written in the very row that holds the last data row
    written of the first: the row pointer is left on the last row written
    (line 291) and the next file starts there (line 254). *)
Theorem X4_next_file_overwrites_last_row (libs : Libs) (wb : Workbook)
    (earlier : list File) (a b : File) (month : string) (st1 : State)
    (decA decB : Decoded) (parA parB : ParseResult) :
  let st0 := processFiles libs wb initial earlier in
  extractMonthFromFileName (name a) = Some month ->
  extractMonthFromFileName (name b) = Some month ->
  In month (worksheets wb) ->
  clearOnce wb st0 month = inl st1 ->
  readCsvFile libs a = Ok decA ->
  Papa_parse libs SkipGreedy (text decA) = Ok parA ->
  (2 <= length (data parA))%nat ->
  readCsvFile libs b = Ok decB ->
  Papa_parse libs SkipGreedy (text decB) = Ok parB ->
  (2 <= length (data parB))%nat ->
  rowPtr_of st1 month < MAX_ROW ->
  (forall c, Excel_run wb c = None) ->
  let pa := place (rowPtr_of st1 month) (data_rows parA) in
  let sta := processFile libs wb st0 a in
  let pb := place (rowPtr_of sta month) (data_rows parB) in
  let stb := processFile libs wb sta b in
  let row := lastRowWritten pa in
  fileNameRowNum pa < row
  /\ fileNameRowNum pb = row
  /\ (exists r, last (actualDataRows pa) = Some r
                /\ row_content (grid sta) month row None = Some r)
  /\ row_content (grid stb) month row None
     = Some (text_of_string (name b) :: repeat [] (MAX_COLS - 1)).
Proof.
  intros st0 HrA HrB Hw Hclear HreadA HparA HlenA HreadB HparB HlenB Hlt Hhost
         pa sta pb stb row.
  pose proof (extract_month_names _ _ HrA) as Hm.
  assert (HI0 : Inv wb st0) by apply processFiles_ok, initial_ok.
  destruct (clearOnce_ok wb _ _ _ Hm Hw Hclear HI0) as [Hc1 _].
  pose proof (rowPtr_of_range wb st1 month Hc1) as Hr.
  assert (Hn : (1 <= length (data_rows parA))%nat)
    by (rewrite data_rows_length; lia).
  destruct (place_bounds _ (data_rows parA) Hr Hn) as (Hf & _ & _ & Hnt & Htr).
  fold pa in Hf, Hnt, Htr.
  assert (Hsta : sta = written_state
                         (if truncated pa
                          then warn st1 (file_label a ++ msg_truncated)%string
                          else st1) month a pa).
  { unfold sta. apply (processFile_placed libs wb st0 st1 a month decA parA);
      try assumption. apply Hhost. }
  assert (Hnext : nextRowPtr pa = row /\ (1 <= length (actualDataRows pa))%nat).
  { unfold row. destruct (truncated pa) eqn:E.
    - destruct (Htr eq_refl) as [Hl Hx]. split; [lia|].
      unfold lastRowWritten in Hl. lia.
    - destruct (Hnt eq_refl) as (Hrows & Hx & _). split; [exact Hx|].
      rewrite Hrows. exact Hn. }
  destruct Hnext as [Hnext Hlen].
  assert (HIa : Inv wb sta) by apply processFile_ok, HI0.
  assert (Hptr : sheetRowPtr sta !! month = Some (nextRowPtr pa)).
  { rewrite Hsta. cbn. apply lookup_insert_eq. }
  assert (Hrpa : rowPtr_of sta month = row).
  { rewrite (rowPtr_of_Some wb _ _ _ (proj1 HIa) Hptr). exact Hnext. }
  assert (Hcla : clearOnce wb sta month = inl sta).
  { destruct (proj1 HIa _ _ Hptr) as (_ & Hcl & _).
    unfold clearOnce, not_cleared. rewrite Hcl. reflexivity. }
  assert (Hstb : stb = written_state
                         (if truncated pb
                          then warn sta (file_label b ++ msg_truncated)%string
                          else sta) month b pb).
  { unfold stb. apply (processFile_placed libs wb sta sta b month decB parB);
      try assumption. apply Hhost. }
  split; [unfold row, lastRowWritten; lia|].
  split; [unfold pb; rewrite place_fileNameRowNum; exact Hrpa|].
  split.
  - destruct (last (actualDataRows pa)) as [r|] eqn:Elast.
    + exists r. split; [reflexivity|]. rewrite Hsta.
      rewrite (proj2 (written_row_content _ month a pa) Hlen). exact Elast.
    + apply last_None in Elast. rewrite Elast in Hlen. cbn in Hlen. lia.
  - rewrite Hstb. replace row with (fileNameRowNum pb)
      by (unfold pb; rewrite place_fileNameRowNum; exact Hrpa).
    apply written_row_content.
Qed.

Lemma X4_overwrite_witness :
  let a := lines_file "enavi202506(3034).csv" 2 in
  let b := lines_file "enavi202506(9999).csv" 1 in
  let sta := processFile sample_libs sample_workbook initial a in
  let stb := processFile sample_libs sample_workbook sta b in
  row_content (grid sta) "6" 6 None = Some (normalizeRow [[97]; [98]])
  /\ row_content (grid stb) "6" 6 None
     = Some (text_of_string (name b) :: repeat [] (MAX_COLS - 1)).
Proof.
  cbv zeta.
  pose proof (X4_next_file_overwrites_last_row sample_libs sample_workbook []
                (lines_file "enavi202506(3034).csv" 2)
                (lines_file "enavi202506(9999).csv" 1) "6"
                (cleared_state initial "6")
                (lines_decoded 2) (lines_decoded 1) (lines_parsed 2) (lines_parsed 1)
                eq_refl eq_refl (or_introl eq_refl) eq_refl
                ltac:(vm_compute; reflexivity) ltac:(vm_compute; reflexivity)
                ltac:(vm_compute; lia)
                ltac:(vm_compute; reflexivity) ltac:(vm_compute; reflexivity)
                ltac:(vm_compute; lia)
                ltac:(vm_compute; reflexivity) (fun _ => eq_refl)) as H.
  cbv zeta in H. destruct H as (_ & _ & _ & Hb).
  split; [vm_compute; reflexivity|exact Hb].
Defined.

(** X5: [readCsvFile] throws in three cases and no other: the read of the
    file is rejected; or the bytes carry no mark, are not strict UTF-8, and
    either the Shift-JIS conversion throws or it returns codes and
    [codeToString] throws.  What it throws is the error of the cause as it
    is.  Once the bytes are read, a mark or strict UTF-8 bytes give a
    UTF-8 text whatever the Shift-JIS library does; the encoding reported
    is UTF-8 or SJIS; and where neither the read nor [codeToString] fails
    the result is that of the function taken from the bytes. *)
Theorem X5_readCsvFile_failure (rt : Runtime) (libs : Libs) (file : File) :
  (forall e, readCsvFile_in rt libs file = Throw e <->
             arrayBuffer_rejects rt file = Some e
             \/ (arrayBuffer_rejects rt file = None
                 /\ has_bom (bytes file) = false
                 /\ TextDecoder_decode true (bytes file) = None
                 /\ (Encoding_Convert libs (bytes file) = Throw e
                     \/ exists codes,
                          Encoding_Convert libs (bytes file) = Ok (ResCodes codes)
                          /\ codeToString_throws rt codes = Some e)))
  /\ (forall libs',
        arrayBuffer_rejects rt file = None ->
        has_bom (bytes file) = true \/ TextDecoder_decode true (bytes file) <> None ->
        readCsvFile_in rt libs' file = readCsvFile_in rt libs file
        /\ exists t, readCsvFile_in rt libs file = Ok {| text := t; encoding := "UTF-8" |})
  /\ (forall d, readCsvFile_in rt libs file = Ok d ->
                encoding d = "UTF-8" \/ encoding d = "SJIS")
  /\ (arrayBuffer_rejects rt file = None ->
      (forall codes, codeToString_throws rt codes = None) ->
      readCsvFile_in rt libs file = readCsvFile libs file).
Proof.
  unfold readCsvFile_in, readCsvFile. split; [|split; [|split]].
  - intros e. destruct (arrayBuffer_rejects rt file) as [e0|].
    { split; [intros [= ->]; left; reflexivity|].
      intros [[= ->]|(H & _)]; [reflexivity|discriminate H]. }
    cbv zeta. destruct (has_bom (bytes file)).
    + destruct (TextDecoder_replace_total (drop 3 (bytes file))) as [t ->].
      split; [discriminate|]. intros [H|(_ & H & _)]; discriminate H.
    + destruct (TextDecoder_decode true (bytes file)).
      * split; [discriminate|]. intros [H|(_ & _ & H & _)]; discriminate H.
      * destruct (Encoding_Convert libs (bytes file)) as [[s|codes]|e'].
        -- split; [discriminate|].
           intros [H|(_ & _ & _ & [H|(codes & H & _)])]; discriminate H.
        -- destruct (codeToString_throws rt codes) as [e1|] eqn:Ec.
           ++ split.
              ** intros [= ->]. right. repeat split. right. exists codes.
                 split; [reflexivity|exact Ec].
              ** intros [H|(_ & _ & _ & [H|(codes' & [= <-] & H)])];
                   [discriminate H|discriminate H|congruence].
           ++ split; [discriminate|].
              intros [H|(_ & _ & _ & [H|(codes' & [= <-] & H)])];
                [discriminate H|discriminate H|congruence].
        -- split.
           ++ intros [= ->]. right. repeat split. left. reflexivity.
           ++ intros [H|(_ & _ & _ & [[= ->]|(codes & H & _)])];
                [discriminate H|reflexivity|discriminate H].
  - intros libs' -> H. cbv zeta. destruct (has_bom (bytes file)).
    + split; [reflexivity|].
      destruct (TextDecoder_replace_total (drop 3 (bytes file))) as [t ->]. eauto.
    + destruct H as [H|H]; [discriminate H|].
      destruct (TextDecoder_decode true (bytes file)) as [t|]; [|congruence].
      split; [reflexivity|eauto].
  - intros d. destruct (arrayBuffer_rejects rt file); [discriminate|].
    cbv zeta. destruct (has_bom (bytes file)).
    + destruct (TextDecoder_decode false _); [|discriminate].
      intros [= <-]. left. reflexivity.
    + destruct (TextDecoder_decode true (bytes file)).
      * intros [= <-]. left. reflexivity.
      * destruct (Encoding_Convert libs (bytes file)) as [[s|codes]|e']; [| |discriminate].
        -- intros [= <-]. right. reflexivity.
        -- destruct (codeToString_throws rt codes); [discriminate|].
           intros [= <-]. right. reflexivity.
  - intros -> Hc. cbv zeta. destruct (has_bom (bytes file)); [reflexivity|].
    destruct (TextDecoder_decode true (bytes file)); [reflexivity|].
    destruct (Encoding_Convert libs (bytes file)) as [[s|codes]|e']; try reflexivity.
    rewrite Hc. reflexivity.
Qed.

(** X6: the two layouts of the six digits are told apart by the two-digit
    year alone.  When the first two digits read 20 or more, the name is
    taken as YYYYMM and the key comes from the last two digits, so a
    YYMMDD name of the years 20 to 99 is routed by its day, or not at all
    when the day is past 12; the YYMMDD reading (third and fourth digit)
    applies to the years 00 to 19 only. *)
Theorem X6_layout_by_two_digit_year (fileName : string) (d : list ascii) :
  enavi_shape (strip_csv fileName) d ->
  let v (i : nat) := digit_value (nth i d "0"%char) in
  let yy := 10 * v 0%nat + v 1%nat in
  let mm := 10 * v 2%nat + v 3%nat in
  let dd := 10 * v 4%nat + v 5%nat in
  (20 <= yy ->
   extractMonthFromFileName fileName =
     if (1 <=? dd) && (dd <=? 12) then Some (Number_toString dd) else None)
  /\ (yy < 20 ->
      extractMonthFromFileName fileName =
        if (1 <=? mm) && (mm <=? 12) then Some (Number_toString mm) else None).
Proof.
  intros Hs v yy mm dd.
  rewrite (extract_of_shape _ _ Hs).
  destruct Hs as (_ & Hd & _).
  assert (Hv : forall i, 0 <= v i <= 9).
  { intros i. apply digit_value_range.
    destruct (nth_in_or_default i d "0"%char) as [Hin| ->]; [|reflexivity].
    rewrite List.Forall_forall in Hd. apply Hd, Hin. }
  pose proof (Hv 0%nat). pose proof (Hv 1%nat). pose proof (Hv 2%nat). pose proof (Hv 3%nat).
  unfold month_of_digits. subst yy mm dd. unfold v in *. cbv beta in *.
  split; intros Hy.
  - replace (2000 <=? _) with true by (symmetry; apply Z.leb_le; lia). reflexivity.
  - replace (2000 <=? _) with false by (symmetry; apply Z.leb_gt; lia). reflexivity.
Qed.

Lemma shape_250615 :
  enavi_shape (strip_csv "enavi250615(3034).csv")
    ["2"; "5"; "0"; "6"; "1"; "5"]%char.
Proof.
  split; [reflexivity|]. split.
  - repeat constructor.
  - exists "3034)". reflexivity.
Defined.

Lemma X6_layout_witness :
  extractMonthFromFileName "enavi250615(3034).csv" = None
  /\ extractMonthFromFileName "enavi250612(3034).csv" = Some "12".
Proof.
  split; [|reflexivity].
  exact (proj1 (X6_layout_by_two_digit_year "enavi250615(3034).csv" _ shape_250615)
           ltac:(vm_compute; discriminate)).
Defined.

(** ** The single-file importer: column names and the table written *)

Lemma string_app_assoc (a b c : string) : ((a ++ b) ++ c = a ++ (b ++ c))%string.
Proof.
  induction a as [|x a IH]; [reflexivity|].
  change (String x ((a ++ b) ++ c) = String x (a ++ (b ++ c)))%string.
  f_equal. exact IH.
Qed.

Lemma column_number_app (a b : string) (acc : Z) :
  column_number (a ++ b) acc = column_number b (column_number a acc).
Proof.
  revert acc. induction a as [|x a IH]; intros acc; [reflexivity|].
  change (column_number (a ++ b) (26 * acc + (Z.of_nat (nat_of_ascii x) - 64))
          = column_number b (column_number (String x a) acc)).
  apply IH.
Qed.

Lemma forallb_upper_app (a b : string) :
  forallb is_upper (list_ascii_of_string (a ++ b))
  = forallb is_upper (list_ascii_of_string a) && forallb is_upper (list_ascii_of_string b).
Proof.
  induction a as [|x a IH]; [reflexivity|].
  change (is_upper x && forallb is_upper (list_ascii_of_string (a ++ b))
          = is_upper x && forallb is_upper (list_ascii_of_string a)
            && forallb is_upper (list_ascii_of_string b)).
  rewrite IH, andb_assoc. reflexivity.
Qed.

(** The loop of [getColumnName] puts before [result] the name of the
    number [colIndex]. *)
Lemma getColumnName_loop_spec (turns : nat) :
  forall (colIndex : Z) (result : string),
    0 <= colIndex <= Z.of_nat turns ->
    exists s,
      Simple.getColumnName_loop turns colIndex result = (s ++ result)%string
      /\ column_number s 0 = colIndex
      /\ forallb is_upper (list_ascii_of_string s) = true
      /\ (0 < colIndex -> s <> EmptyString).
Proof.
  induction turns as [|turns IH]; intros colIndex result Hc.
  - exists EmptyString. assert (colIndex = 0) as -> by lia.
    repeat split. intros H. lia.
  - cbn [Simple.getColumnName_loop].
    destruct (0 <? colIndex) eqn:E.
    + apply Z.ltb_lt in E.
      set (c1 := colIndex - 1).
      set (ch := ascii_of_nat (Z.to_nat (65 + c1 mod 26))).
      assert (Hm : 0 <= c1 mod 26 < 26) by (apply Z.mod_pos_bound; lia).
      assert (Hch : Z.of_nat (nat_of_ascii ch) = 65 + c1 mod 26).
      { unfold ch. rewrite nat_ascii_embedding by lia. lia. }
      assert (Hq : 0 <= c1 / 26 <= Z.of_nat turns).
      { split; [apply Z.div_pos; lia|].
        assert (c1 / 26 <= c1) by (apply Z.div_le_upper_bound; lia). lia. }
      destruct (IH (c1 / 26) (String ch result) Hq) as (s & Hs & Hv & Hu & _).
      exists (s ++ String ch EmptyString)%string.
      split; [rewrite Hs, string_app_assoc; reflexivity|].
      split; [|split].
      * rewrite column_number_app, Hv. cbn [column_number]. rewrite Hch.
        pose proof (Z.div_mod c1 26 ltac:(lia)). unfold c1 in *. lia.
      * rewrite forallb_upper_app, Hu. cbn. unfold is_upper.
        rewrite andb_true_r. apply andb_true_iff.
        split; apply Nat.leb_le; lia.
      * intros _ Hnil. destruct s; discriminate Hnil.
    + apply Z.ltb_ge in E. exists EmptyString. assert (colIndex = 0) as -> by lia.
      repeat split. intros H. lia.
Qed.

Lemma getColumnName_number (colIndex : Z) :
  0 <= colIndex ->
  column_number (Simple.getColumnName colIndex) 0 = colIndex + 1
  /\ forallb is_upper (list_ascii_of_string (Simple.getColumnName colIndex)) = true
  /\ Simple.getColumnName colIndex <> EmptyString.
Proof.
  intros H. unfold Simple.getColumnName.
  destruct (getColumnName_loop_spec (Z.to_nat (colIndex + 1)) (colIndex + 1) EmptyString
              ltac:(lia)) as (s & Hs & Hv & Hu & Hne).
  assert (Hnil : forall x : string, (x ++ EmptyString)%string = x).
  { induction x as [|c x IHx]; [reflexivity|].
    change (String c (x ++ EmptyString)%string = String c x). f_equal. exact IHx. }
  rewrite Hs, Hnil. split; [exact Hv|]. split; [exact Hu|]. apply Hne. lia.
Qed.

(** X7: [getColumnName] writes a column index (from 0) in the letters A to
    Z, as the bijective base-26 numeral of the index plus one: reading the
    name back gives the index, so two columns never share a name, and the
    name is never empty.  For the index -1 (a table without columns) the
    name is the empty string. *)
Theorem X7_getColumnName_round_trip (colIndex other : Z) :
  0 <= colIndex ->
  column_number (Simple.getColumnName colIndex) 0 = colIndex + 1
  /\ forallb is_upper (list_ascii_of_string (Simple.getColumnName colIndex)) = true
  /\ Simple.getColumnName colIndex <> EmptyString
  /\ (0 <= other -> Simple.getColumnName other = Simple.getColumnName colIndex ->
      other = colIndex)
  /\ Simple.getColumnName (-1) = EmptyString
  /\ Ribbon.getColumnName colIndex = Simple.getColumnName colIndex.
Proof.
  intros H. destruct (getColumnName_number colIndex H) as (Hv & Hu & Hne).
  repeat (split; [assumption|]). split; [|split; reflexivity].
  intros Ho Heq. destruct (getColumnName_number other Ho) as (Hv' & _).
  rewrite Heq, Hv in Hv'. lia.
Qed.

Lemma X7_getColumnName_witness :
  Simple.getColumnName 0 = "A" /\ Simple.getColumnName 25 = "Z"
  /\ Simple.getColumnName 26 = "AA" /\ Simple.getColumnName 701 = "ZZ"
  /\ column_number (Simple.getColumnName 702) 0 = 703.
Proof.
  repeat (split; [reflexivity|]).
  exact (proj1 (X7_getColumnName_round_trip 702 0 ltac:(lia))).
Defined.

(** The widest row decides the number of columns. *)
Lemma colCount_bounds (rows : list (list Text)) :
  let colCount := fold_right Z.max 0 (List.map (fun row => Z.of_nat (length row)) rows) in
  0 <= colCount /\ Forall (fun row => Z.of_nat (length row) <= colCount) rows.
Proof.
  induction rows as [|row rows IH]; cbn.
  - split; [lia|constructor].
  - destruct IH as [H0 Hall]. split; [lia|]. constructor; [lia|].
    eapply Forall_impl; [exact Hall|]. cbn. intros r Hr. lia.
Qed.

Lemma pad_row (row : list Text) (n : nat) :
  (length row <= n)%nat ->
  List.map (fun i => or_empty (nth i row [])) (seq 0 n)
  = row ++ replicate (n - length row) [].
Proof.
  intros Hle. apply list_eq. intros i. rewrite list_lookup_fmap.
  destruct (decide (i < n)%nat) as [Hi|Hi].
  - rewrite lookup_seq_lt by exact Hi. cbn [fmap option_fmap option_map Nat.add].
    rewrite or_empty_id.
    destruct (decide (i < length row)%nat) as [E|E].
    + rewrite lookup_app_l by exact E.
      destruct (lookup_lt_is_Some_2 row i E) as [x Hx].
      rewrite Hx. f_equal. apply nth_lookup_Some with (d := []) in Hx. exact Hx.
    + rewrite lookup_app_r by lia.
      rewrite nth_overflow by lia.
      symmetry. apply lookup_replicate_2. lia.
  - rewrite lookup_seq_ge by lia. symmetry. apply lookup_ge_None_2.
    rewrite length_app, length_replicate. lia.
Qed.

(** X8: when the single-file import succeeds, the table written has one row
    for every row the parser returned, none dropped, and as many columns as
    the widest of them: each row is written whole, followed by empty
    strings up to that width (no cell is cut, unlike the twelve columns of
    the card import).  The parser returned at least one row, and the host
    carried the write out. *)
Theorem X8_simple_table_rectangular (libs : Libs)
    (host : Simple.TableWrite -> option Exn) (file : File) (w : Simple.TableWrite) :
  Simple.importCsvQuick libs host (Ok file) = Ok w ->
  exists decoded parseResult,
    Simple.decode libs (bytes file) = Ok decoded
    /\ Papa_parse libs SkipNone (text decoded) = Ok parseResult
    /\ data parseResult <> []
    /\ host w = None
    /\ let width := Z.to_nat (fold_right Z.max 0
                       (List.map (fun row => Z.of_nat (length row)) (data parseResult))) in
       Simple.values w
       = List.map (fun row => row ++ replicate (width - length row) []) (data parseResult)
       /\ Forall (fun row => length row = width) (Simple.values w)
       /\ Simple.rangeAddress w
          = ("A1:" ++ Simple.getColumnName (Z.of_nat width - 1)
             ++ Number_toString (Z.of_nat (length (data parseResult))))%string.
Proof.
  unfold Simple.importCsvQuick.
  destruct (Simple.decode libs (bytes file)) as [decoded|e] eqn:Hd; [|discriminate].
  destruct (Papa_parse libs SkipNone (text decoded)) as [parseResult|e] eqn:Hp;
    [|discriminate].
  destruct (length (data parseResult) =? 0)%nat eqn:Hlen; [discriminate|].
  apply Nat.eqb_neq in Hlen.
  set (colCount := fold_right Z.max 0 _).
  destruct (colCount_bounds (data parseResult)) as [H0 Hall]. fold colCount in H0, Hall.
  destruct (host _) eqn:Hhost; [discriminate|].
  intros [= <-]. exists decoded, parseResult.
  split; [reflexivity|]. split; [exact Hp|].
  split; [intros Hnil; rewrite Hnil in Hlen; apply Hlen; reflexivity|].
  split; [exact Hhost|]. cbv zeta. cbn [Simple.values Simple.rangeAddress].
  assert (Hvals : List.map (fun row => List.map (fun i => or_empty (nth i row []))
                                          (seq 0 (Z.to_nat colCount))) (data parseResult)
                  = List.map (fun row => row ++ replicate (Z.to_nat colCount - length row) [])
                             (data parseResult)).
  { apply map_ext_in. intros row Hin. apply pad_row.
    rewrite List.Forall_forall in Hall. specialize (Hall row Hin). lia. }
  split; [exact Hvals|]. split.
  - rewrite Hvals. apply Forall_forall. intros r Hr.
    apply list_elem_of_In, in_map_iff in Hr as (row & <- & Hin).
    rewrite List.Forall_forall in Hall. specialize (Hall row Hin).
    rewrite length_app, length_replicate. lia.
  - rewrite Z2Nat.id by exact H0. reflexivity.
Qed.

Lemma X8_simple_table_witness :
  exists w,
    Simple.importCsvQuick sample_libs (fun _ => None)
      (Ok {| name := "a.csv"; bytes := [97; 44; 98; 44; 99; 10; 100] |}) = Ok w
    /\ Simple.values w = [[[97]; [98]; [99]]; [[100]; []; []]]
    /\ Simple.rangeAddress w = "A1:C2".
Proof.
  eexists. split; [reflexivity|].
  destruct (X8_simple_table_rectangular sample_libs (fun _ => None)
              {| name := "a.csv"; bytes := [97; 44; 98; 44; 99; 10; 100] |} _ eq_refl)
    as (decoded & parseResult & _ & _ & _ & _ & _).
  split; reflexivity.
Defined.

(** ** The ribbon importer *)



(** *** The parser *)

Lemma drop_white_incl (t : Text) : incl (Ribbon.drop_white t) t.
Proof.
  induction t as [|c t IH]; [apply incl_refl|]. cbn.
  destruct (Ribbon.is_white c); [apply incl_tl, IH|apply incl_refl].
Qed.

Lemma rev_incl {A : Type} (l : list A) : incl (rev l) l.
Proof. intros x Hx. apply in_rev. exact Hx. Qed.

Lemma incl_rev_r {A : Type} (l : list A) : incl l (rev l).
Proof. intros x Hx. apply in_rev in Hx. exact Hx. Qed.

Lemma js_trim_incl (t : Text) : incl (Ribbon.js_trim t) t.
Proof.
  unfold Ribbon.js_trim.
  eapply incl_tran; [apply rev_incl|].
  eapply incl_tran; [apply drop_white_incl|].
  eapply incl_tran; [apply rev_incl|apply drop_white_incl].
Qed.

Lemma tail_rev_incl (t : Text) (c : Z) (r : Text) :
  rev t = c :: r -> incl (rev r) t.
Proof.
  intros H x Hx. apply in_rev. rewrite H. right. apply in_rev. exact Hx.
Qed.

Lemma strip_cr_incl (t : Text) : incl (Ribbon.strip_cr t) t.
Proof.
  unfold Ribbon.strip_cr. destruct (rev t) as [|c r] eqn:E; [apply incl_refl|].
  destruct (c =? 13); [exact (tail_rev_incl t c r E)|apply incl_refl].
Qed.

Lemma strip_quotes_incl (t : Text) : incl (Ribbon.strip_quotes t) t.
Proof.
  unfold Ribbon.strip_quotes.
  set (t1 := match t with c :: r => if c =? 34 then r else t | [] => t end).
  assert (H1 : incl t1 t).
  { unfold t1. destruct t as [|c r]; [apply incl_refl|].
    destruct (c =? 34); [apply incl_tl, incl_refl|apply incl_refl]. }
  destruct (rev t1) as [|c r] eqn:E; [exact H1|].
  destruct (c =? 34); [|exact H1].
  eapply incl_tran; [exact (tail_rev_incl t1 c r E)|exact H1].
Qed.

Lemma split_char_pieces (sep : Z) (t : Text) :
  forall cur, ~ In sep cur ->
    Forall (fun p => ~ In sep p /\ incl p (cur ++ t)) (Ribbon.split_char sep t cur).
Proof.
  induction t as [|c t IH]; intros cur Hcur; cbn [Ribbon.split_char].
  - constructor; [|constructor]. split; [exact Hcur|]. rewrite app_nil_r. apply incl_refl.
  - destruct (c =? sep) eqn:E.
    + constructor.
      * split; [exact Hcur|]. apply incl_appl, incl_refl.
      * eapply Forall_impl; [apply (IH [])|]; [intros []|].
        cbn. intros p [Hp Hi]. split; [exact Hp|].
        apply incl_appr, incl_tl, Hi.
    + apply Z.eqb_neq in E.
      eapply Forall_impl; [apply (IH (cur ++ [c]))|].
      * intros Hin. apply in_app_or in Hin as [Hin|[Hin|[]]]; [exact (Hcur Hin)|congruence].
      * cbn. intros p [Hp Hi]. split; [exact Hp|].
        rewrite <- app_assoc in Hi. exact Hi.
Qed.

Lemma split_char_length (sep : Z) (t : Text) :
  forall cur, length (Ribbon.split_char sep t cur)
              = S (length (List.filter (fun c => c =? sep) t)).
Proof.
  induction t as [|c t IH]; intros cur; cbn [Ribbon.split_char List.filter]; [reflexivity|].
  destruct (c =? sep); cbn [length]; rewrite IH; reflexivity.
Qed.

Lemma split_lines_pieces (t : Text) :
  forall cur, ~ In 10 cur ->
    Forall (fun p => ~ In 10 p) (Ribbon.split_lines t cur).
Proof.
  induction t as [|c t IH]; intros cur Hcur; cbn [Ribbon.split_lines].
  - constructor; [exact Hcur|constructor].
  - destruct (c =? 10) eqn:E.
    + constructor.
      * intros Hin. apply Hcur. apply (strip_cr_incl cur), Hin.
      * apply IH. intros [].
    + apply Z.eqb_neq in E. apply IH.
      intros Hin. apply in_app_or in Hin as [Hin|[Hin|[]]]; [exact (Hcur Hin)|congruence].
Qed.

Lemma parse_line_cells (line : Text) :
  ~ In 10 line ->
  Ribbon.parse_line line <> []
  /\ Forall (fun cell => ~ In 44 cell /\ ~ In 10 cell) (Ribbon.parse_line line).
Proof.
  intros Hlf. unfold Ribbon.parse_line. split.
  - intros H. apply (f_equal (@length _)) in H.
    rewrite length_map, split_char_length in H. discriminate H.
  - apply Forall_forall. intros cell Hc.
    apply list_elem_of_In, in_map_iff in Hc as (piece & <- & Hp).
    pose proof (split_char_pieces 44 line [] ltac:(intros [])) as Hall.
    rewrite List.Forall_forall in Hall. destruct (Hall piece Hp) as [Hsep Hincl].
    assert (Hsub : incl (Ribbon.strip_quotes (Ribbon.js_trim piece)) piece)
      by (eapply incl_tran; [apply strip_quotes_incl|apply js_trim_incl]).
    split; intros Hin; apply Hsub in Hin; [exact (Hsep Hin)|].
    apply Hincl in Hin. exact (Hlf Hin).
Qed.

Lemma ribbon_parse_rows (text : Text) :
  Forall (fun row => row <> []
                     /\ Forall (fun cell => ~ In 44 cell /\ ~ In 10 cell) row)
         (Ribbon.parse text)
  /\ (Forall (fun line => Ribbon.js_trim line = []) (Ribbon.split_lines text [])
      -> Ribbon.parse text = []).
Proof.
  unfold Ribbon.parse. split.
  - apply Forall_forall. intros row Hr.
    apply list_elem_of_In, in_map_iff in Hr as (line & <- & Hl).
    apply filter_In in Hl as [Hl _].
    pose proof (split_lines_pieces text [] ltac:(intros [])) as Hall.
    rewrite List.Forall_forall in Hall.
    apply parse_line_cells, Hall, Hl.
  - intros Hblank.
    replace (List.filter _ (Ribbon.split_lines text [])) with (@nil Text); [reflexivity|].
    symmetry. induction Hblank as [|line ls Hl _ IH]; [reflexivity|].
    cbn. rewrite Hl. cbn. exact IH.
Qed.

(** X10: every row the ribbon parser returns has at least one cell, and no
    cell holds a comma or a line feed; a text of blank lines only gives no
    row at all. *)
Theorem X10_ribbon_parse_rows (text : Text) :
  Forall (fun row => row <> []
                     /\ Forall (fun cell => ~ In 44 cell /\ ~ In 10 cell) row)
         (Ribbon.parse text)
  /\ (Forall (fun line => Ribbon.js_trim line = []) (Ribbon.split_lines text [])
      -> Ribbon.parse text = []).
Proof. apply ribbon_parse_rows. Qed.

(** X11: the ribbon parser cuts a line at every comma, quoted or not: a
    line gives one cell more than it has commas. *)
Theorem X11_ribbon_commas_always_split (line : Text) :
  length (Ribbon.parse_line line) = S (length (List.filter (fun c => c =? 44) line)).
Proof. unfold Ribbon.parse_line. rewrite length_map. apply split_char_length. Qed.

(** The line ["a,b",c], quotes included, gives the three cells a, b and c. *)
Example ribbon_quoted_comma :
  Ribbon.parse [34; 97; 44; 98; 34; 44; 99] = [[[97]; [98]; [99]]].
Proof. reflexivity. Qed.

(** *** Blank lines *)

Lemma drop_white_nil (t : Text) :
  Ribbon.drop_white t = [] <-> forallb Ribbon.is_white t = true.
Proof.
  induction t as [|c t IH]; cbn; [tauto|].
  destruct (Ribbon.is_white c); cbn; [exact IH|]. split; discriminate.
Qed.

Lemma js_trim_blank (t : Text) :
  (length (Ribbon.js_trim t) =? 0)%nat = forallb Ribbon.is_white t.
Proof.
  unfold Ribbon.js_trim. rewrite length_rev.
  destruct (forallb Ribbon.is_white t) eqn:E.
  - apply drop_white_nil in E. rewrite E. reflexivity.
  - apply Nat.eqb_neq. intros Hlen. apply length_zero_iff_nil, drop_white_nil in Hlen.
    rewrite forallb_forall in Hlen.
    assert (Hall : forallb Ribbon.is_white (Ribbon.drop_white t) = true).
    { apply forallb_forall. intros x Hx. apply Hlen, in_rev. rewrite rev_involutive. exact Hx. }
    assert (Hnil : Ribbon.drop_white t = []).
    { clear -Hall. induction t as [|c t IH]; [reflexivity|]. cbn in *.
      destruct (Ribbon.is_white c) eqn:Ec; [exact (IH Hall)|].
      cbn in Hall. rewrite Ec in Hall. discriminate Hall. }
    apply drop_white_nil in Hnil. congruence.
Qed.

Lemma strip_cr_blank (t : Text) :
  forallb Ribbon.is_white (Ribbon.strip_cr t) = forallb Ribbon.is_white t.
Proof.
  unfold Ribbon.strip_cr. destruct (rev t) as [|c r] eqn:E; [reflexivity|].
  destruct (c =? 13) eqn:Ec; [|reflexivity].
  apply Z.eqb_eq in Ec. subst c.
  apply (f_equal (@rev Z)) in E. rewrite rev_involutive in E. subst t.
  cbn [rev]. rewrite forallb_app. cbn. rewrite andb_true_r. reflexivity.
Qed.

(** The rows of the parser are the lines of the text that are not blank. *)
Lemma split_lines_nonblank (t : Text) :
  forall cur,
    length (List.filter (fun line => negb (length (Ribbon.js_trim line) =? 0)%nat)
                        (Ribbon.split_lines t cur))
    = nonblank_lines t (negb (forallb Ribbon.is_white cur)).
Proof.
  induction t as [|c t IH]; intros cur; cbn [Ribbon.split_lines nonblank_lines List.filter].
  - rewrite js_trim_blank. destruct (forallb Ribbon.is_white cur); reflexivity.
  - destruct (c =? 10) eqn:Ec.
    + cbn [List.filter]. rewrite js_trim_blank, strip_cr_blank.
      specialize (IH []). cbn [forallb negb] in IH.
      destruct (forallb Ribbon.is_white cur); cbn [negb length]; rewrite IH; reflexivity.
    + rewrite IH, forallb_app. cbn [forallb]. rewrite andb_true_r, negb_andb. reflexivity.
Qed.

Lemma parse_length (t : Text) :
  length (Ribbon.parse t) = nonblank_lines t false.
Proof. unfold Ribbon.parse. rewrite length_map. apply (split_lines_nonblank t []). Qed.

Lemma decode_in_total (rt : Runtime) (libs : Libs) (uint8Array : Bytes) :
  exists d, Ribbon.decode_in rt libs uint8Array = Ok d.
Proof.
  unfold Ribbon.decode_in.
  destruct (TextDecoder_replace_total uint8Array) as [t Ht].
  destruct (has_bom uint8Array).
  - destruct (TextDecoder_replace_total (drop 3 uint8Array)) as [t3 ->]. eauto.
  - destruct (TextDecoder_decode true uint8Array); [eauto|].
    rewrite Ht. cbv zeta.
    destruct (Encoding_Convert libs uint8Array) as [[s|codes]|e']; eauto.
    destruct (codeToString_throws rt codes); eauto.
Qed.

Lemma colCount_attained (rows : list (list Text)) :
  rows <> [] ->
  Exists (fun row => Z.of_nat (length row)
                     = fold_right Z.max 0 (List.map (fun row => Z.of_nat (length row)) rows))
         rows.
Proof.
  induction rows as [|row rows IH]; [congruence|]. intros _.
  cbn [List.map fold_right].
  destruct rows as [|row' rows'].
  - constructor. cbn. lia.
  - specialize (IH ltac:(discriminate)).
    set (m := fold_right Z.max 0 (List.map (fun row => Z.of_nat (length row)) (row' :: rows')))
      in *.
    destruct (Z_le_gt_dec m (Z.of_nat (length row))) as [Hle|Hgt].
    + constructor. lia.
    + apply Exists_cons_tl. eapply Exists_impl; [exact IH|].
      intros r Hr. cbv beta in Hr. clearbody m. lia.
Qed.

(** X12: an import from the ribbon, once a file is chosen, ends in one of
    five ways and no other.  The read of the file is rejected: that error
    is thrown as it is.  Otherwise the bytes come to a text, whatever the
    libraries do.  The text has no line that is not blank: the error of an
    empty CSV file is thrown.  Spreading the row widths into [Math.max]
    throws: that error is thrown as it is.  Otherwise the table to write
    has one row for every line that is not blank, as many columns as the
    widest row, at least one, each row followed by empty strings up to that
    width; the import returns it when the host carries the write out, and
    throws the error of the host as it is when not.  No error is wrapped
    and none comes from the encoding. *)
Theorem X12_ribbon_import_outcomes (rt : Runtime) (libs : Libs)
    (host : Simple.TableWrite -> option Exn) (file : File) :
  let outcome := Ribbon.importCsvFromRibbon rt libs host (Ok file) in
  match arrayBuffer_rejects rt file with
  | Some e => outcome = Throw e
  | None =>
      exists d,
        Ribbon.decode_in rt libs (bytes file) = Ok d
        /\ let n := nonblank_lines (text d) false in
           length (Ribbon.parse (text d)) = n
           /\ match n with
              | O => outcome = Throw (new_Error "CSVファイルが空です")
              | S _ =>
                  match spread_throws rt (S n) with
                  | Some e => outcome = Throw e
                  | None =>
                      exists w width,
                        (1 <= width)%nat
                        /\ Forall (fun row => (length row <= width)%nat)
                                  (Ribbon.parse (text d))
                        /\ Exists (fun row => length row = width) (Ribbon.parse (text d))
                        /\ Simple.values w
                           = List.map (fun row => row ++ replicate (width - length row) [])
                                      (Ribbon.parse (text d))
                        /\ Forall (fun row => length row = width) (Simple.values w)
                        /\ Simple.rangeAddress w
                           = ("A1:" ++ Ribbon.getColumnName (Z.of_nat width - 1)
                              ++ Number_toString (Z.of_nat n))%string
                        /\ match host w with
                           | None => outcome = Ok w
                           | Some e => outcome = Throw e
                           end
                  end
              end
  end.
Proof.
  cbv zeta. unfold Ribbon.importCsvFromRibbon.
  destruct (arrayBuffer_rejects rt file) as [e|]; [reflexivity|].
  destruct (decode_in_total rt libs (bytes file)) as [d Hd].
  exists d. split; [exact Hd|]. rewrite Hd.
  pose proof (parse_length (text d)) as Hn. split; [exact Hn|].
  rewrite <- Hn.
  destruct (Ribbon.parse (text d)) as [|row0 rows] eqn:Hrows; [reflexivity|].
  cbn [length Nat.eqb].
  set (all := row0 :: rows) in *.
  change (S (length rows)) with (length all).
  destruct (spread_throws rt (S (length all))) as [e|]; [reflexivity|].
  set (colCount := fold_right Z.max 0 _).
  destruct (colCount_bounds all) as [H0 Hall]. fold colCount in H0, Hall.
  pose proof (colCount_attained all ltac:(discriminate)) as Hmax. fold colCount in Hmax.
  assert (H1 : 1 <= colCount).
  { pose proof (proj1 (ribbon_parse_rows (text d))) as Hp. rewrite Hrows in Hp.
    apply Forall_cons_1 in Hp as [[Hne _] _].
    apply Forall_cons_1 in Hall as [Hle _].
    destruct row0; [congruence|]. cbn [length] in Hle. lia. }
  assert (Hvals : List.map (fun row => List.map (fun i => or_empty (nth i row []))
                                          (seq 0 (Z.to_nat colCount))) all
                  = List.map (fun row => row ++ replicate (Z.to_nat colCount - length row) [])
                             all).
  { apply map_ext_in. intros row Hin. apply pad_row.
    rewrite List.Forall_forall in Hall. specialize (Hall row Hin). lia. }
  cbv zeta.
  set (w := {| Simple.rangeAddress := _; Simple.values := _ |}).
  exists w, (Z.to_nat colCount).
  split; [lia|]. split.
  { eapply Forall_impl; [exact Hall|]. intros r Hr. cbv beta in Hr |- *. lia. }
  split.
  { eapply Exists_impl; [exact Hmax|]. intros r Hr. cbv beta in Hr |- *. lia. }
  unfold w. cbn [Simple.values Simple.rangeAddress].
  split; [exact Hvals|]. split.
  { rewrite Hvals. apply Forall_forall. intros r Hr.
    apply list_elem_of_In, in_map_iff in Hr as (row & <- & Hin).
    rewrite List.Forall_forall in Hall. specialize (Hall row Hin).
    rewrite length_app, length_replicate. lia. }
  split; [rewrite Z2Nat.id by exact H0; reflexivity|].
  destruct (host _); reflexivity.
Qed.

(** Two lines with a blank one between them, read and written without a
    failure: a table of two rows and three columns. *)
Example ribbon_import_two_lines :
  let rt := {| arrayBuffer_rejects := fun _ => None;
               codeToString_throws := fun _ => None;
               spread_throws := fun _ => None |} in
  Ribbon.importCsvFromRibbon rt sample_libs (fun _ => None)
    (Ok {| name := "a.csv"; bytes := [97; 44; 98; 44; 99; 13; 10; 32; 10; 100] |})
  = Ok {| Simple.rangeAddress := "A1:C2";
          Simple.values := [[[97]; [98]; [99]]; [[100]; []; []]] |}.
Proof. vm_compute. reflexivity. Qed.

(** ** The feature registry *)

Lemma findIndex_spec {A : Type} (pred : A -> bool) (l : list A) :
  (Registry.findIndex pred l = -1 /\ Forall (fun x => pred x = false) l)
  \/ (exists (i : nat) (x : A),
        Registry.findIndex pred l = Z.of_nat i
        /\ l !! i = Some x /\ pred x = true
        /\ Forall (fun y => pred y = false) (take i l)).
Proof.
  induction l as [|a l IH]; cbn [Registry.findIndex].
  - left. split; [reflexivity|constructor].
  - destruct (pred a) eqn:Ea.
    + right. exists 0%nat, a. repeat split; [exact Ea|constructor].
    + destruct IH as [[-> Hall] | (i & x & -> & Hx & Hp & Hall)].
      * left. split; [reflexivity|]. constructor; assumption.
      * right. exists (S i), x.
        replace (Z.of_nat i <? 0) with false by (symmetry; apply Z.ltb_ge; lia).
        split; [lia|]. split; [exact Hx|]. split; [exact Hp|].
        cbn. constructor; assumption.
Qed.

Section RegistryFacts.

Context {E : Type}.
Implicit Types (f g : Registry.Feature E) (fs : list (Registry.Feature E)).

(** The two ways [registerFeature] goes. *)
Lemma registerFeature_cases f fs :
  (Forall (fun g => Registry.id g <> Registry.id f) fs
   /\ Registry.registerFeature f fs = fs ++ [f])
  \/ (exists (i : nat) g,
        fs !! i = Some g /\ Registry.id g = Registry.id f
        /\ Forall (fun h => Registry.id h <> Registry.id f) (take i fs)
        /\ Registry.registerFeature f fs = <[i := f]> fs).
Proof.
  unfold Registry.registerFeature.
  destruct (findIndex_spec (fun g => String.eqb (Registry.id g) (Registry.id f)) fs)
    as [[-> Hall] | (i & g & -> & Hg & Hp & Hall)].
  - left. split; [|reflexivity].
    eapply Forall_impl; [exact Hall|]. cbn. intros g Hg. apply String.eqb_neq, Hg.
  - right. exists i, g.
    replace (0 <=? Z.of_nat i) with true by (symmetry; apply Z.leb_le; lia).
    rewrite Nat2Z.id. split; [exact Hg|]. split; [apply String.eqb_eq, Hp|].
    split; [|reflexivity].
    eapply Forall_impl; [exact Hall|]. cbn. intros h Hh. apply String.eqb_neq, Hh.
Qed.

Lemma registerFeature_ids f fs :
  (Forall (fun g => Registry.id g <> Registry.id f) fs
   /\ List.map Registry.id (Registry.registerFeature f fs)
      = List.map Registry.id fs ++ [Registry.id f])
  \/ (In (Registry.id f) (List.map Registry.id fs)
      /\ List.map Registry.id (Registry.registerFeature f fs) = List.map Registry.id fs).
Proof.
  destruct (registerFeature_cases f fs) as [[Hall ->] | (i & g & Hg & Hid & _ & ->)].
  - left. split; [exact Hall|]. rewrite map_app. reflexivity.
  - right. split.
    + apply in_map_iff. exists g. split; [exact Hid|].
      apply list_elem_of_In, list_elem_of_lookup. eauto.
    + change (List.map Registry.id (<[i:=f]> fs)) with (Registry.id <$> <[i:=f]> fs).
      rewrite list_fmap_insert. rewrite <- Hid.
      apply list_insert_id. rewrite list_lookup_fmap, Hg. reflexivity.
Qed.

Lemma registerFeature_NoDup f fs :
  List.NoDup (List.map Registry.id fs) ->
  List.NoDup (List.map Registry.id (Registry.registerFeature f fs)).
Proof.
  intros Hnd. destruct (registerFeature_ids f fs) as [[Hall ->] | [_ ->]]; [|exact Hnd].
  apply NoDup_ListNoDup, NoDup_app. split; [apply NoDup_ListNoDup, Hnd|].
  split; [|apply NoDup_singleton].
  intros x Hx Hx'. apply list_elem_of_singleton in Hx'. subst x.
  apply list_elem_of_In, in_map_iff in Hx as (g & Hg & Hin).
  rewrite List.Forall_forall in Hall. exact (Hall g Hin Hg).
Qed.

Lemma registerFeature_idem f fs :
  Registry.registerFeature f (Registry.registerFeature f fs)
  = Registry.registerFeature f fs.
Proof.
  destruct (registerFeature_cases f fs) as [[Hall Heq] | (i & g & Hg & Hid & Hbefore & Heq)];
    rewrite Heq.
  - (* appended: the second call finds it at the end *)
    destruct (registerFeature_cases f (fs ++ [f]))
      as [[Hall' _] | (j & h & Hh & Hidh & Hbefore' & ->)].
    + apply Forall_app in Hall' as [_ Hf]. apply Forall_cons_1 in Hf as [Hf _].
      congruence.
    + destruct (decide (j < length fs)%nat) as [Hj|Hj].
      * rewrite lookup_app_l in Hh by exact Hj.
        rewrite List.Forall_forall in Hall.
        destruct (Hall h); [|exact Hidh].
        apply list_elem_of_In, list_elem_of_lookup. eauto.
      * assert (j = length fs).
        { apply lookup_lt_Some in Hh. rewrite length_app in Hh. cbn in Hh. lia. }
        subst j. rewrite insert_app_r_alt by lia.
        rewrite Nat.sub_diag. reflexivity.
  - (* replaced at [i]: the second call finds [i] again *)
    assert (Hi : (i < length fs)%nat) by (eapply lookup_lt_Some; exact Hg).
    destruct (registerFeature_cases f (<[i:=f]> fs))
      as [[Hall' _] | (j & h & Hh & Hidh & Hbefore' & ->)].
    + rewrite List.Forall_forall in Hall'. destruct (Hall' f); [|reflexivity].
      apply list_elem_of_In, list_elem_of_lookup. exists i.
      apply list_lookup_insert_eq. exact Hi.
    + assert (j = i) as ->.
      { destruct (Nat.lt_trichotomy j i) as [Hlt|[Heqj|Hgt]]; [|exact Heqj|].
        - rewrite list_lookup_insert_ne in Hh by lia.
          rewrite List.Forall_forall in Hbefore. destruct (Hbefore h); [|exact Hidh].
          apply list_elem_of_In, list_elem_of_lookup. exists j.
          rewrite lookup_take_lt by lia. exact Hh.
        - rewrite List.Forall_forall in Hbefore'. destruct (Hbefore' f); [|reflexivity].
          apply list_elem_of_In, list_elem_of_lookup. exists i.
          rewrite lookup_take_lt by lia. apply list_lookup_insert_eq. exact Hi. }
      apply list_insert_insert_eq.
Qed.

End RegistryFacts.

Section RegistryTheorems.

Context {E : Type}.
Implicit Types (f g : Registry.Feature E) (fs : list (Registry.Feature E)).

(** X13: [registerFeature] keeps one entry per id.  A feature whose id is
    not in the registry is added at the end; one whose id is there takes
    the place of the first entry with that id, the others staying where
    they are.  So the feature registered is in the registry afterwards,
    nothing else comes in, entries with another id stay, ids that were
    distinct stay distinct, and registering the same feature twice is the
    same as registering it once. *)
Theorem X13_registerFeature_one_entry_per_id f fs :
  ((forall g, In g fs -> Registry.id g <> Registry.id f) ->
   Registry.registerFeature f fs = fs ++ [f])
  /\ (forall pre g post,
        fs = pre ++ g :: post ->
        Registry.id g = Registry.id f ->
        (forall h, In h pre -> Registry.id h <> Registry.id f) ->
        Registry.registerFeature f fs = pre ++ f :: post)
  /\ In f (Registry.registerFeature f fs)
  /\ (forall g, In g fs -> Registry.id g <> Registry.id f ->
                In g (Registry.registerFeature f fs))
  /\ (forall g, In g (Registry.registerFeature f fs) -> g = f \/ In g fs)
  /\ length (Registry.registerFeature f fs)
     = (if existsb (fun g => String.eqb (Registry.id g) (Registry.id f)) fs
        then length fs else S (length fs))
  /\ (List.NoDup (List.map Registry.id fs) ->
      List.NoDup (List.map Registry.id (Registry.registerFeature f fs)))
  /\ Registry.registerFeature f (Registry.registerFeature f fs)
     = Registry.registerFeature f fs.
Proof.
  split; [|split; [|split; [|split; [|split; [|split; [|split]]]]]];
    [| | | | | |apply registerFeature_NoDup|apply registerFeature_idem].
  - intros Hnew.
    destruct (registerFeature_cases f fs) as [[_ Heq] | (i & g & Hg & Hid & _ & _)];
      [exact Heq|].
    exfalso. apply (Hnew g); [|exact Hid].
    apply list_elem_of_In, list_elem_of_lookup. eauto.
  - intros pre g post Hfs Hid Hpre.
    destruct (registerFeature_cases f fs) as [[Hall _] | (i & h & Hh & Hhid & Htake & Heq)].
    + exfalso. rewrite List.Forall_forall in Hall. apply (Hall g); [|exact Hid].
      rewrite Hfs. apply in_or_app. right. left. reflexivity.
    + assert (Hi : i = length pre).
      { destruct (Nat.lt_trichotomy i (length pre)) as [Hlt|[Heq'|Hgt]]; [|exact Heq'|].
        - exfalso. rewrite Hfs, lookup_app_l in Hh by exact Hlt.
          apply (Hpre h); [|exact Hhid].
          apply list_elem_of_In, list_elem_of_lookup. eauto.
        - exfalso. rewrite List.Forall_forall in Htake. apply (Htake g); [|exact Hid].
          apply list_elem_of_In, list_elem_of_lookup. exists (length pre).
          rewrite lookup_take_lt by exact Hgt.
          rewrite Hfs, lookup_app_r, Nat.sub_diag by lia. reflexivity. }
      rewrite Heq, Hi, Hfs, insert_app_r_alt, Nat.sub_diag by lia. reflexivity.
  - destruct (registerFeature_cases f fs) as [[_ ->] | (i & g & Hg & _ & _ & ->)].
    + apply in_or_app. right. left. reflexivity.
    + apply list_elem_of_In, list_elem_of_lookup. exists i.
      apply list_lookup_insert_eq. eapply lookup_lt_Some. exact Hg.
  - intros g Hin Hne.
    destruct (registerFeature_cases f fs) as [[_ ->] | (i & h & Hh & Hid & _ & ->)].
    + apply in_or_app. left. exact Hin.
    + apply list_elem_of_In, list_elem_of_lookup in Hin as [j Hj].
      apply list_elem_of_In, list_elem_of_lookup. exists j.
      rewrite list_lookup_insert_ne; [exact Hj|].
      intros ->. rewrite Hh in Hj. injection Hj as ->. congruence.
  - intros g Hin.
    destruct (registerFeature_cases f fs) as [[_ Heq] | (i & h & Hh & _ & _ & Heq)];
      rewrite Heq in Hin.
    + apply in_app_or in Hin as [Hin|[Hin|[]]]; [right; exact Hin|left; congruence].
    + apply list_elem_of_In, list_elem_of_lookup in Hin as [j Hj].
      destruct (decide (i = j)) as [->|Hne].
      * rewrite list_lookup_insert_eq in Hj by (eapply lookup_lt_Some; exact Hh).
        left. congruence.
      * rewrite list_lookup_insert_ne in Hj by exact Hne.
        right. apply list_elem_of_In, list_elem_of_lookup. eauto.
  - destruct (registerFeature_cases f fs) as [[Hall ->] | (i & h & Hh & Hid & _ & ->)].
    + replace (existsb _ fs) with false.
      * rewrite length_app. cbn. lia.
      * symmetry. apply not_true_is_false. intros Hex.
        apply existsb_exists in Hex as (g & Hg & Hgid).
        rewrite List.Forall_forall in Hall. apply (Hall g Hg). apply String.eqb_eq, Hgid.
    + replace (existsb _ fs) with true; [apply length_insert|].
      symmetry. apply existsb_exists. exists h. split.
      * apply list_elem_of_In, list_elem_of_lookup. eauto.
      * apply String.eqb_eq, Hid.
Qed.

Lemma category_eqb_eq (a b : Registry.FeatureCategory) :
  Registry.category_eqb a b = true <-> a = b.
Proof. destruct a, b; cbn; split; congruence. Qed.

Lemma collect_distinct fs :
  forall (seen : gset string) (result : Registry.FeatureCategory -> list (Registry.Feature E)),
    List.NoDup (List.map Registry.id fs) ->
    (forall f, In f fs -> Registry.id f ∉ seen) ->
    forall c, Registry.collect fs seen result c
              = result c ++ List.filter (fun f => Registry.category_eqb c (Registry.category f)) fs.
Proof.
  induction fs as [|feature rest IH]; intros seen result Hnd Hseen c;
    cbn [Registry.collect List.filter].
  - rewrite app_nil_r. reflexivity.
  - destruct (decide (Registry.id feature ∈ seen)) as [Hin|_].
    + destruct (Hseen feature (or_introl eq_refl) Hin).
    + cbn in Hnd. apply List.NoDup_cons_iff in Hnd as [Hnotin Hnd].
      rewrite IH; [| exact Hnd |].
      * destruct (Registry.category_eqb c (Registry.category feature));
          [rewrite <- app_assoc|]; reflexivity.
      * intros f Hf Hin. apply elem_of_union in Hin as [Hin|Hin].
        -- apply elem_of_singleton in Hin. apply Hnotin. rewrite <- Hin.
           apply in_map. exact Hf.
        -- exact (Hseen f (or_intror Hf) Hin).
Qed.

Lemma registerAll_NoDup (calls : list (Registry.Feature E)) :
  List.NoDup (List.map Registry.id (registerAll calls)).
Proof.
  unfold registerAll.
  assert (H : forall fs, List.NoDup (List.map Registry.id fs) ->
            List.NoDup (List.map Registry.id
              (fold_left (fun features feature => Registry.registerFeature feature features)
                         calls fs))).
  { induction calls as [|f calls IH]; intros fs Hnd; [exact Hnd|].
    cbn. apply IH, registerFeature_NoDup, Hnd. }
  apply H. constructor.
Qed.

(** X14: after any run of registrations, the ids in the registry are
    distinct, and [getFeaturesByCategory] gives under each category the
    registered features of that category, each once, in the order of the
    registry; every feature of the registry is found under its own
    category and under no other. *)
Theorem X14_features_by_category (calls : list (Registry.Feature E))
    (c : Registry.FeatureCategory) :
  let features := registerAll calls in
  List.NoDup (List.map Registry.id features)
  /\ Registry.getFeaturesByCategory features c
     = List.filter (fun f => Registry.category_eqb c (Registry.category f)) features
  /\ (forall f, In f (Registry.getFeaturesByCategory features c) <->
                In f features /\ Registry.category f = c).
Proof.
  cbv zeta. pose proof (registerAll_NoDup calls) as Hnd.
  assert (Heq : Registry.getFeaturesByCategory (registerAll calls) c
                = List.filter (fun f => Registry.category_eqb c (Registry.category f))
                              (registerAll calls)).
  { unfold Registry.getFeaturesByCategory.
    rewrite collect_distinct; [reflexivity|exact Hnd|].
    intros f _. apply not_elem_of_empty. }
  split; [exact Hnd|]. split; [exact Heq|].
  intros f. rewrite Heq, filter_In, category_eqb_eq. split; intros [H1 H2]; split; congruence.
Qed.

End RegistryTheorems.

(** The four registrations of [App.tsx], made twice over (as when the
    effect runs again): four features, one under each category. *)
Example registry_app_twice :
  let mk i c := {| Registry.id := i; Registry.name := i; Registry.category := c;
                   Registry.description := ""; Registry.execute := tt |} in
  let four := [mk "remove-blank-rows" Registry.sheet; mk "to-hankaku" Registry.text;
               mk "regex-replace" Registry.search; mk "csv-import" Registry.csv] in
  registerAll (four ++ four) = four
  /\ Registry.getFeaturesByCategory (registerAll (four ++ four)) Registry.csv
     = [mk "csv-import" Registry.csv].
Proof. split; reflexivity. Qed.

(** ** A file reads and changes the entries of its own sheet only *)

Lemma own_view_lookup (k : string) (st : State) :
  sheetRowPtr (own_view k st) !! k = sheetRowPtr st !! k
  /\ sheetCleared (own_view k st) !! k = sheetCleared st !! k.
Proof.
  unfold own_view. cbn. split.
  - destruct (sheetRowPtr st !! k); [apply lookup_singleton_eq|apply lookup_empty].
  - destruct (sheetCleared st !! k); [apply lookup_singleton_eq|apply lookup_empty].
Qed.

Lemma own_view_below (k : string) (st : State) :
  sheetRowPtr (own_view k st) ∪ sheetRowPtr st = sheetRowPtr st
  /\ sheetCleared (own_view k st) ∪ sheetCleared st = sheetCleared st.
Proof.
  unfold own_view. cbn. split.
  - destruct (sheetRowPtr st !! k) as [v|] eqn:E; [|apply (left_id ∅ _)].
    apply map_eq. intros i. rewrite lookup_union.
    destruct (decide (k = i)) as [<-|Hne].
    + rewrite lookup_singleton_eq, E. reflexivity.
    + rewrite lookup_singleton_ne by exact Hne. destruct (sheetRowPtr st !! i); reflexivity.
  - destruct (sheetCleared st !! k) as [v|] eqn:E; [|apply (left_id ∅ _)].
    apply map_eq. intros i. rewrite lookup_union.
    destruct (decide (k = i)) as [<-|Hne].
    + rewrite lookup_singleton_eq, E. reflexivity.
    + rewrite lookup_singleton_ne by exact Hne. destruct (sheetCleared st !! i); reflexivity.
Qed.

Lemma merged_warn (st r : State) (w : string) :
  merged st (warn r w) = warn (merged st r) w.
Proof. unfold merged, warn. cbn. rewrite app_assoc. reflexivity. Qed.

Lemma merged_own_view (k : string) (st : State) : merged st (own_view k st) = st.
Proof.
  destruct (own_view_below k st) as [H1 H2].
  unfold merged. rewrite H1, H2. cbn. rewrite !app_nil_r. destruct st; reflexivity.
Qed.

Lemma merged_cleared_state (k : string) (st : State) :
  merged st (cleared_state (own_view k st) k) = cleared_state st k.
Proof.
  destruct (own_view_below k st) as [H1 H2].
  unfold merged, cleared_state. cbn [sheetRowPtr sheetCleared warnings grid].
  rewrite <- !insert_union_l. fold (sheetRowPtr (own_view k st)).
  fold (sheetCleared (own_view k st)). rewrite H1, H2.
  cbn. rewrite app_nil_r. reflexivity.
Qed.

Lemma merged_written_state (st r : State) (k : string) (file : File) (p : Placement) :
  merged st (written_state r k file p) = written_state (merged st r) k file p.
Proof.
  unfold merged, written_state. cbn [sheetRowPtr sheetCleared warnings grid].
  rewrite <- insert_union_l, app_assoc. reflexivity.
Qed.

Lemma not_cleared_own_view (k : string) (st : State) :
  not_cleared (own_view k st) k = not_cleared st k.
Proof. unfold not_cleared. rewrite (proj2 (own_view_lookup k st)). reflexivity. Qed.

Lemma rowPtr_of_merged (st r : State) (k : string) :
  sheetRowPtr r !! k = sheetRowPtr (merged st r) !! k ->
  rowPtr_of r k = rowPtr_of (merged st r) k.
Proof. intros H. unfold rowPtr_of. rewrite H. reflexivity. Qed.

(** The turn of a file on the whole state is its turn on the view of its
    own sheet, merged back. *)
Lemma processFile_own_view (libs : Libs) (wb : Workbook) (st : State) (file : File) :
  processFile libs wb st file
  = merged st (processFile libs wb (own_view (key_of file) st) file).
Proof.
  unfold key_of.
  destruct (extractMonthFromFileName (name file)) as [k|] eqn:Hroute;
    cbv [from_option id].
  2:{ unfold processFile. rewrite Hroute, merged_warn, merged_own_view. reflexivity. }
  destruct (in_dec String.string_dec k (worksheets wb)) as [Hw|Hw].
  2:{ unfold processFile. rewrite Hroute.
      rewrite (month_not_empty _ (extract_month_names _ _ Hroute)).
      destruct (sheetExists wb k) eqn:E; [apply sheetExists_In in E; contradiction|].
      cbn [negb]. rewrite merged_warn, merged_own_view. reflexivity. }
  rewrite !(processFile_front _ _ _ _ _ Hroute Hw).
  unfold clearOnce. rewrite not_cleared_own_view.
  assert (Hstep : forall r s : State,
            merged st r = s ->
            rowPtr_of r k = rowPtr_of s k ->
            match readCsvFile libs file with
            | Ok decoded =>
                match Papa_parse libs SkipGreedy (text decoded) with
                | Ok parseResult =>
                    if (length (data parseResult) =? 0)%nat
                    then warn s (file_label file ++ msg_empty)
                    else if (length (data parseResult) <? 2)%nat
                    then warn s (file_label file ++ msg_no_data)
                    else
                      let p := place (rowPtr_of s k) (data_rows parseResult) in
                      let st2 := if truncated p
                                 then warn s (file_label file ++ msg_truncated) else s in
                      match Excel_run wb (PutRows k (fileNameRowNum p)
                               (text_of_string (name file) :: repeat [] (MAX_COLS - 1))
                               (actualDataRows p)) with
                      | Some e => caught st2 file e
                      | None => written_state st2 k file p
                      end
                | Throw e => caught s file e
                end
            | Throw e => caught s file e
            end
            = merged st
                match readCsvFile libs file with
                | Ok decoded =>
                    match Papa_parse libs SkipGreedy (text decoded) with
                    | Ok parseResult =>
                        if (length (data parseResult) =? 0)%nat
                        then warn r (file_label file ++ msg_empty)
                        else if (length (data parseResult) <? 2)%nat
                        then warn r (file_label file ++ msg_no_data)
                        else
                          let p := place (rowPtr_of r k) (data_rows parseResult) in
                          let st2 := if truncated p
                                     then warn r (file_label file ++ msg_truncated) else r in
                          match Excel_run wb (PutRows k (fileNameRowNum p)
                                   (text_of_string (name file) :: repeat [] (MAX_COLS - 1))
                                   (actualDataRows p)) with
                          | Some e => caught st2 file e
                          | None => written_state st2 k file p
                          end
                    | Throw e => caught r file e
                    end
                | Throw e => caught r file e
                end).
  { intros r s <- Hrp. unfold caught.
    destruct (readCsvFile libs file) as [decoded|e]; [|rewrite merged_warn; reflexivity].
    destruct (Papa_parse libs SkipGreedy (text decoded)) as [parseResult|e];
      [|rewrite merged_warn; reflexivity].
    destruct (length (data parseResult) =? 0)%nat; [rewrite merged_warn; reflexivity|].
    destruct (length (data parseResult) <? 2)%nat; [rewrite merged_warn; reflexivity|].
    cbv zeta. rewrite <- Hrp.
    destruct (truncated _); destruct (Excel_run wb _);
      rewrite ?merged_written_state, ?merged_warn; reflexivity. }
  destruct (not_cleared st k) eqn:Hn.
  - destruct (Excel_run wb (ClearRange k)) as [e|].
    + unfold caught. rewrite merged_warn, merged_own_view. reflexivity.
    + apply Hstep; [apply merged_cleared_state|].
      unfold rowPtr_of, cleared_state. cbn. rewrite !lookup_insert_eq. reflexivity.
  - apply Hstep; [apply merged_own_view|].
    unfold rowPtr_of. rewrite (proj1 (own_view_lookup k st)). reflexivity.
Qed.


Lemma own_view_after_other (libs : Libs) (wb : Workbook) (st : State) (file : File)
    (k : string) :
  k <> key_of file ->
  own_view k (processFile libs wb st file) = own_view k st.
Proof.
  intros Hk. destruct (proj1 (processFile_own_sheet libs wb st file) k Hk) as [H1 H2].
  unfold own_view. rewrite H1, H2. reflexivity.
Qed.

Lemma row_content_other_sheet (cs : list HostCall) (k sheet : string) (row : Z)
    (acc : option (list Text)) :
  Forall (on_sheet k) cs -> sheet <> k -> row_content cs sheet row acc = acc.
Proof.
  intros Hon Hne. revert acc. induction Hon as [|c cs Hc _ IH]; intros acc; [reflexivity|].
  destruct c as [s|s r fr rows]; cbn in Hc; subst s; cbn [row_content];
    (replace (String.eqb k sheet) with false
       by (symmetry; apply String.eqb_neq; congruence));
    cbn; apply IH.
Qed.

Lemma own_view_keys (k : string) (st : State) (j : string) :
  j <> k ->
  sheetRowPtr (own_view k st) !! j = None /\ sheetCleared (own_view k st) !! j = None.
Proof.
  intros Hj. unfold own_view. cbn. split.
  - destruct (sheetRowPtr st !! k); [apply lookup_singleton_ne; congruence|apply lookup_empty].
  - destruct (sheetCleared st !! k); [apply lookup_singleton_ne; congruence|apply lookup_empty].
Qed.

Lemma union_swap {V : Type} (ma mb m : gmap string V) (ka kb : string) :
  ka <> kb ->
  (forall j, j <> ka -> ma !! j = None) ->
  (forall j, j <> kb -> mb !! j = None) ->
  mb ∪ (ma ∪ m) = ma ∪ (mb ∪ m).
Proof.
  intros Hne Ha Hb. apply map_eq. intros i. rewrite !lookup_union.
  destruct (decide (i = ka)) as [->|Hia].
  - rewrite (Hb ka Hne). destruct (ma !! ka), (m !! ka); reflexivity.
  - rewrite (Ha i Hia). destruct (mb !! i), (m !! i); reflexivity.
Qed.

(** X15: two files for different sheets can be taken in either order.  The
    turn of a file reads and changes the row pointer and the cleared mark
    of its own sheet only and asks the host for that sheet only; so after
    both files the row pointers and cleared marks are the same in both
    orders, every row of every sheet holds the same, and the warnings and
    the batches are the same up to their order. *)
Theorem X15_files_of_different_sheets_commute (libs : Libs) (wb : Workbook)
    (st : State) (a b : File) :
  extractMonthFromFileName (name a) <> extractMonthFromFileName (name b) ->
  let sab := processFile libs wb (processFile libs wb st a) b in
  let sba := processFile libs wb (processFile libs wb st b) a in
  sheetRowPtr sab = sheetRowPtr sba
  /\ sheetCleared sab = sheetCleared sba
  /\ (forall sheet row acc,
        row_content (grid sab) sheet row acc = row_content (grid sba) sheet row acc)
  /\ warnings sab ≡ₚ warnings sba
  /\ grid sab ≡ₚ grid sba.
Proof.
  intros Hdiff sab sba.
  assert (Hk : key_of a <> key_of b).
  { unfold key_of.
    destruct (extractMonthFromFileName (name a)) as [ka|] eqn:Ea;
      destruct (extractMonthFromFileName (name b)) as [kb|] eqn:Eb; cbn.
    - congruence.
    - intros ->. pose proof (month_not_empty _ (extract_month_names _ _ Ea)) as H.
      discriminate H.
    - intros <-. pose proof (month_not_empty _ (extract_month_names _ _ Eb)) as H.
      discriminate H.
    - congruence. }
  set (ra := processFile libs wb (own_view (key_of a) st) a).
  set (rb := processFile libs wb (own_view (key_of b) st) b).
  assert (Hab : sab = merged (merged st ra) rb).
  { unfold sab. rewrite (processFile_own_view libs wb _ b).
    rewrite own_view_after_other by congruence.
    rewrite (processFile_own_view libs wb st a). reflexivity. }
  assert (Hba : sba = merged (merged st rb) ra).
  { unfold sba. rewrite (processFile_own_view libs wb _ a).
    rewrite own_view_after_other by congruence.
    rewrite (processFile_own_view libs wb st b). reflexivity. }
  destruct (processFile_own_sheet libs wb (own_view (key_of a) st) a)
    as [Hoa (ca & Hca & Hona)].
  destruct (processFile_own_sheet libs wb (own_view (key_of b) st) b)
    as [Hob (cb & Hcb & Honb)].
  fold ra in Hoa, Hca. fold rb in Hob, Hcb. cbn in Hca, Hcb.
  assert (Hra : forall j, j <> key_of a ->
                  sheetRowPtr ra !! j = None /\ sheetCleared ra !! j = None).
  { intros j Hj. destruct (Hoa j Hj) as [-> ->]. apply own_view_keys, Hj. }
  assert (Hrb : forall j, j <> key_of b ->
                  sheetRowPtr rb !! j = None /\ sheetCleared rb !! j = None).
  { intros j Hj. destruct (Hob j Hj) as [-> ->]. apply own_view_keys, Hj. }
  rewrite Hab, Hba. unfold merged. cbn [sheetRowPtr sheetCleared warnings grid].
  split; [|split; [|split; [|split]]].
  - apply (union_swap _ _ _ (key_of a) (key_of b) Hk);
      intros j Hj; [apply Hra|apply Hrb]; exact Hj.
  - apply (union_swap _ _ _ (key_of a) (key_of b) Hk);
      intros j Hj; [apply Hra|apply Hrb]; exact Hj.
  - intros sheet row acc. rewrite Hca, Hcb, !row_content_app.
    destruct (decide (sheet = key_of a)) as [->|Hsa].
    + rewrite !(row_content_other_sheet cb (key_of b)) by assumption. reflexivity.
    + rewrite !(row_content_other_sheet ca (key_of a)) by assumption. reflexivity.
  - rewrite <- !app_assoc. apply Permutation_app_head, Permutation_app_comm.
  - rewrite <- !app_assoc. apply Permutation_app_head, Permutation_app_comm.
Qed.

Lemma X15_commute_witness :
  let a := lines_file "enavi202506(3034).csv" 3 in
  let b := lines_file "enavi202507(3034).csv" 2 in
  let sab := processFile sample_libs sample_workbook
               (processFile sample_libs sample_workbook initial a) b in
  let sba := processFile sample_libs sample_workbook
               (processFile sample_libs sample_workbook initial b) a in
  sheetRowPtr sab = sheetRowPtr sba
  /\ sheetRowPtr sab !! "6" = Some 7 /\ sheetRowPtr sab !! "7" = Some 6.
Proof.
  cbv zeta.
  split; [|split; vm_compute; reflexivity].
  apply (X15_files_of_different_sheets_commute sample_libs sample_workbook initial
           (lines_file "enavi202506(3034).csv" 3) (lines_file "enavi202507(3034).csv" 2)).
  vm_compute. discriminate.
Defined.

(** ** Full width to half width *)

Lemma replace_all_app (z : Z) (h a b : Text) :
  Hankaku.replace_all z h (a ++ b) = Hankaku.replace_all z h a ++ Hankaku.replace_all z h b.
Proof. unfold Hankaku.replace_all. apply flat_map_app. Qed.

Lemma replace_all_flat_map (z : Z) (h : Text) (g : Z -> Text) (t : Text) :
  Hankaku.replace_all z h (flat_map g t)
  = flat_map (fun c => Hankaku.replace_all z h (g c)) t.
Proof.
  induction t as [|c t IH]; [reflexivity|].
  cbn [flat_map]. rewrite replace_all_app, IH. reflexivity.
Qed.

(** The replacements, made one after the other on the whole string, act on
    each character apart. *)
Lemma fold_kana_flat_map (table : list (Z * Text)) :
  forall (g : Z -> Text) (t : Text),
    fold_left kana_step table (flat_map g t)
    = flat_map (fun c => fold_left kana_step table (g c)) t.
Proof.
  induction table as [|[z h] table IH]; intros g t; [reflexivity|].
  cbn [fold_left]. unfold kana_step at 2 4. cbn [fst snd].
  rewrite replace_all_flat_map. apply IH.
Qed.

Lemma kanaMap_keys_outputs :
  forallb (fun entry => in_kana_block (fst entry)
                        && forallb (in_range 0xFF61 0xFF9F) (snd entry))
          Hankaku.kanaMap = true.
Proof. vm_compute. reflexivity. Qed.

(** Characters outside the katakana block pass every replacement. *)
Lemma fold_kana_outside (table : list (Z * Text)) :
  forallb (fun entry => in_kana_block (fst entry)) table = true ->
  forall acc, forallb (fun x => negb (in_kana_block x)) acc = true ->
              fold_left kana_step table acc = acc.
Proof.
  induction table as [|[z h] table IH]; intros Hk acc Hacc; [reflexivity|].
  cbn [forallb fst] in Hk. apply andb_true_iff in Hk as [Hz Hk].
  cbn [fold_left]. unfold kana_step at 2. cbn [fst snd].
  replace (Hankaku.replace_all z h acc) with acc; [apply IH; assumption|].
  clear IH. induction acc as [|x acc IHa]; [reflexivity|].
  cbn [forallb] in Hacc. apply andb_true_iff in Hacc as [Hx Hacc].
  unfold Hankaku.replace_all. cbn [flat_map].
  destruct (x =? z) eqn:E.
  - apply Z.eqb_eq in E. subst x. rewrite Hz in Hx. discriminate Hx.
  - cbn. f_equal. apply IHa, Hacc.
Qed.

Lemma fold_kana_single (table : list (Z * Text)) (c : Z) :
  forallb (fun entry => in_kana_block (fst entry)
                        && forallb (in_range 0xFF61 0xFF9F) (snd entry)) table = true ->
  fold_left kana_step table [c]
  = match assoc c table with
    | Some h => h
    | None => [c]
    end.
Proof.
  induction table as [|[z h] table IH]; intros Hk; [reflexivity|].
  cbn [forallb fst snd] in Hk. apply andb_true_iff in Hk as [Hzh Hk].
  apply andb_true_iff in Hzh as [Hz Hh].
  cbn [fold_left assoc]. unfold kana_step at 2. cbn [fst snd].
  unfold Hankaku.replace_all. cbn [flat_map]. rewrite app_nil_r.
  destruct (c =? z); [|apply IH, Hk].
  apply fold_kana_outside.
  - clear -Hk. induction table as [|e table IH]; [reflexivity|].
    cbn [forallb] in *. apply andb_true_iff in Hk as [He Hk].
    apply andb_true_iff in He as [He _]. rewrite He. cbn. apply IH, Hk.
  - clear -Hh. induction h as [|x h IH]; [reflexivity|].
    cbn [forallb] in *. apply andb_true_iff in Hh as [Hx Hh].
    rewrite (IH Hh), andb_true_r. unfold in_kana_block, in_range in *.
    apply andb_true_iff in Hx as [H1 H2]. apply Z.leb_le in H1, H2.
    apply negb_true_iff, andb_false_iff. right. apply Z.leb_gt. lia.
Qed.

Lemma assoc_outside (c : Z) :
  in_kana_block c = false -> assoc c Hankaku.kanaMap = None.
Proof.
  intros Hc. pose proof kanaMap_keys_outputs as Hk.
  induction Hankaku.kanaMap as [|[z h] table IH]; [reflexivity|].
  cbn [forallb fst snd] in Hk. apply andb_true_iff in Hk as [Hzh Hk].
  apply andb_true_iff in Hzh as [Hz _]. cbn [assoc].
  destruct (c =? z) eqn:E; [|apply IH, Hk].
  apply Z.eqb_eq in E. subst c. congruence.
Qed.

Lemma assoc_outputs (c : Z) (h : Text) :
  assoc c Hankaku.kanaMap = Some h ->
  in_kana_block c = true /\ forallb (in_range 0xFF61 0xFF9F) h = true
  /\ (1 <= length h <= 2)%nat.
Proof.
  pose proof kanaMap_keys_outputs as Hk.
  assert (Hlen : forallb (fun entry => (1 <=? length (snd entry))%nat
                                       && (length (snd entry) <=? 2)%nat)
                         Hankaku.kanaMap = true) by (vm_compute; reflexivity).
  induction Hankaku.kanaMap as [|[z h'] table IH]; [discriminate|].
  cbn [forallb fst snd] in Hk, Hlen.
  apply andb_true_iff in Hk as [Hzh Hk]. apply andb_true_iff in Hzh as [Hz Hh].
  apply andb_true_iff in Hlen as [Hl Hlen]. apply andb_true_iff in Hl as [Hl1 Hl2].
  cbn [assoc]. destruct (c =? z) eqn:E; [|apply IH; assumption].
  apply Z.eqb_eq in E. subst c. intros [= <-].
  apply Nat.leb_le in Hl1, Hl2. repeat split; assumption.
Qed.

Lemma convert_by_char (cell : Text) :
  Hankaku.convert cell = flat_map convert_char cell.
Proof.
  unfold Hankaku.convert.
  rewrite map_map.
  replace (List.map (fun c => Hankaku.narrow_space (Hankaku.shift_ascii c)) cell)
    with (flat_map (fun c => [Hankaku.narrow_space (Hankaku.shift_ascii c)]) cell)
    by (induction cell as [|c cell IH]; [reflexivity|]; cbn; f_equal; exact IH).
  change (fold_left _ Hankaku.kanaMap ?x) with (fold_left kana_step Hankaku.kanaMap x).
  rewrite fold_kana_flat_map.
  apply flat_map_ext. intros c.
  rewrite (fold_kana_single _ _ kanaMap_keys_outputs).
  unfold convert_char, Hankaku.shift_ascii, Hankaku.narrow_space, in_range.
  destruct ((0xFF01 <=? c) && (c <=? 0xFF5E)) eqn:E.
  - apply andb_true_iff in E as [E1 E2]. apply Z.leb_le in E1, E2.
    destruct (c - 0xFEE0 =? 0x3000) eqn:E3; [apply Z.eqb_eq in E3; lia|].
    rewrite assoc_outside; [reflexivity|].
    unfold in_kana_block, in_range. apply andb_false_iff. left. apply Z.leb_gt. lia.
  - destruct (c =? 0x3000) eqn:E3; [|reflexivity].
    rewrite assoc_outside; reflexivity.
Qed.

Lemma convert_char_settled (c : Z) : Forall settled (convert_char c).
Proof.
  assert (Hout : forall x, in_kana_block x = false -> in_range 0xFF01 0xFF5E x = false ->
                           x <> 0x3000 -> settled x).
  { intros x Hk Hr Hs. unfold settled, convert_char. rewrite Hr.
    replace (x =? 0x3000) with false by (symmetry; apply Z.eqb_neq; exact Hs).
    rewrite (assoc_outside _ Hk). reflexivity. }
  unfold convert_char. destruct (in_range 0xFF01 0xFF5E c) eqn:Er.
  - unfold in_range in Er. apply andb_true_iff in Er as [E1 E2]. apply Z.leb_le in E1, E2.
    constructor; [|constructor]. apply Hout; unfold in_kana_block, in_range;
      [apply andb_false_iff; left; apply Z.leb_gt; lia
      |apply andb_false_iff; left; apply Z.leb_gt; lia|lia].
  - destruct (c =? 0x3000) eqn:Es.
    + constructor; [|constructor]. apply Hout; [reflexivity|reflexivity|lia].
    + apply Z.eqb_neq in Es.
      destruct (assoc c Hankaku.kanaMap) as [h|] eqn:Ea.
      * destruct (assoc_outputs _ _ Ea) as (_ & Hh & _).
        apply Forall_forall. intros x Hx. apply list_elem_of_In in Hx.
        rewrite forallb_forall in Hh. specialize (Hh x Hx).
        unfold in_range in Hh. apply andb_true_iff in Hh as [H1 H2].
        apply Z.leb_le in H1, H2.
        apply Hout; unfold in_kana_block, in_range;
          [apply andb_false_iff; right; apply Z.leb_gt; lia
          |apply andb_false_iff; right; apply Z.leb_gt; lia|lia].
      * constructor; [|constructor]. unfold settled, convert_char. rewrite Er.
        replace (c =? 0x3000) with false by (symmetry; apply Z.eqb_neq; exact Es).
        rewrite Ea. reflexivity.
Qed.

Lemma flat_map_settled (t : Text) : Forall settled t -> flat_map convert_char t = t.
Proof.
  induction 1 as [|c t Hc _ IH]; [reflexivity|].
  cbn [flat_map]. rewrite Hc, IH. reflexivity.
Qed.

(** X16: the conversion of a string acts on each character apart, though
    the source makes eighty-three replacements one after the other over the
    whole string: a full-width ASCII character (U+FF01 to U+FF5E) goes
    down by FEE0, the ideographic space becomes a space, a katakana of the
    table becomes its half-width form (two characters for a voiced one),
    and every other character stays.  So the string never gets shorter and
    at most doubles in length. *)
Theorem X16_convert_char_by_char (cell : Text) :
  Hankaku.convert cell = flat_map convert_char cell
  /\ (length cell <= length (Hankaku.convert cell) <= 2 * length cell)%nat.
Proof.
  split; [apply convert_by_char|].
  rewrite convert_by_char.
  induction cell as [|c cell IH]; [cbn; lia|].
  cbn [flat_map]. rewrite length_app. cbn [length].
  assert (Hc : (1 <= length (convert_char c) <= 2)%nat).
  { unfold convert_char. destruct (in_range 0xFF01 0xFF5E c); [cbn; lia|].
    destruct (c =? 0x3000); [cbn; lia|].
    destruct (assoc c Hankaku.kanaMap) as [h|] eqn:Ea; [|cbn; lia].
    apply (assoc_outputs _ _ Ea). }
  lia.
Qed.

(** X17: converting twice is the same as converting once: what the
    conversion returns holds no full-width ASCII character, no ideographic
    space and no katakana of the table.  On a range of cells the rows and
    columns stay as they are and the cells that are not strings are passed
    on untouched. *)
Theorem X17_toHankaku_idempotent (V : Type) (cell : Text)
    (values : list (list (Hankaku.CellValue V))) :
  Hankaku.convert (Hankaku.convert cell) = Hankaku.convert cell
  /\ Forall settled (Hankaku.convert cell)
  /\ Hankaku.toHankaku (Hankaku.toHankaku values) = Hankaku.toHankaku values
  /\ List.map (@length _) (Hankaku.toHankaku values) = List.map (@length _) values
  /\ (forall i j v, values !! i ≫= (.!! j) = Some (Hankaku.CellOther v) ->
                    Hankaku.toHankaku values !! i ≫= (.!! j) = Some (Hankaku.CellOther v)).
Proof.
  assert (Hs : forall t, Forall settled (Hankaku.convert t)).
  { intros t. rewrite convert_by_char.
    induction t as [|c t IH]; [constructor|].
    cbn [flat_map]. apply Forall_app. split; [apply convert_char_settled|exact IH]. }
  assert (Hi : forall t, Hankaku.convert (Hankaku.convert t) = Hankaku.convert t).
  { intros t. rewrite (convert_by_char (Hankaku.convert t)).
    apply flat_map_settled, Hs. }
  split; [apply Hi|]. split; [apply Hs|]. split; [|split].
  - unfold Hankaku.toHankaku. rewrite map_map. apply map_ext. intros row.
    rewrite map_map. apply map_ext. intros [s|v]; [rewrite Hi|]; reflexivity.
  - unfold Hankaku.toHankaku. rewrite map_map. apply map_ext. intros row.
    apply length_map.
  - intros i j v H. unfold Hankaku.toHankaku.
    change (List.map ?f values) with (f <$> values). rewrite list_lookup_fmap.
    destruct (values !! i) as [row|]; [|discriminate H]. cbn in *.
    change (List.map ?f row) with (f <$> row). rewrite list_lookup_fmap, H. reflexivity.
Qed.

(** The prolonged sound mark and the sound marks are not in the table: the
    word for "data", in full-width katakana, keeps its long vowel mark. *)
Example hankaku_data :
  Hankaku.convert [0x30C7; 0x30FC; 0x30BF; 0x3000; 0xFF21; 0xFF11]
  = [0xFF83; 0xFF9E; 0x30FC; 0xFF80; 0x20; 0x41; 0x31].
Proof. reflexivity. Qed.

(** ** Blank rows *)

Section BlankRows.
Context {Num : Type}.
Implicit Types (sheet : Sheet Num) (values : list (list (Cell Num))).

(** Deleting from the bottom up: each deletion leaves the rows above it,
    so the indices collected before still point at the blank rows. *)
Lemma deletes_bottom_up (startRow startCol colCount : Z) :
  forall values i sheet r c,
    fold_left (delete_row startRow startCol colCount)
              (rev (BlankOps.blankRowIndices_from i values)) sheet r c
    = if (startCol <=? c) && (c <? startCol + colCount) && (startRow + i <=? r)
      then sheet (startRow + i
                  + Z.of_nat (src_pos (List.map BlankOps.isEmpty values)
                                      (Z.to_nat (r - (startRow + i))))) c
      else sheet r c.
Proof.
  induction values as [|v vs IH]; intros i sheet r c.
  - cbn. destruct ((startCol <=? c) && (c <? startCol + colCount) && (startRow + i <=? r)) eqn:E;
      [|reflexivity].
    apply andb_true_iff in E as [_ E]. apply Z.leb_le in E. f_equal. lia.
  - cbn [BlankOps.blankRowIndices_from List.map src_pos].
    destruct (BlankOps.isEmpty v) eqn:Ev.
    + cbn [rev]. rewrite fold_left_app. cbn [fold_left].
      unfold delete_row at 1. unfold BlankOps.delete_up.
      destruct ((startCol <=? c) && (c <? startCol + colCount)) eqn:Ec; cbn [andb].
      * destruct (startRow + i <=? r) eqn:Er.
        -- apply Z.leb_le in Er. rewrite IH, Ec. cbn [andb].
           replace (startRow + (i + 1) <=? r + 1) with true by (symmetry; apply Z.leb_le; lia).
           f_equal. replace (r + 1 - (startRow + (i + 1))) with (r - (startRow + i)) by lia. lia.
        -- apply Z.leb_gt in Er. rewrite IH, Ec. cbn [andb].
           replace (startRow + (i + 1) <=? r) with false by (symmetry; apply Z.leb_gt; lia).
           reflexivity.
      * rewrite IH, Ec. reflexivity.
    + rewrite IH.
      destruct ((startCol <=? c) && (c <? startCol + colCount)) eqn:Ec; cbn [andb];
        [|reflexivity].
      destruct (startRow + i <=? r) eqn:Er.
      * apply Z.leb_le in Er. destruct (Z.eq_dec r (startRow + i)) as [->|Hne].
        -- replace (startRow + (i + 1) <=? startRow + i) with false
             by (symmetry; apply Z.leb_gt; lia).
           rewrite Z.sub_diag. change (Z.to_nat 0) with O. cbv iota. f_equal. lia.
        -- replace (startRow + (i + 1) <=? r) with true by (symmetry; apply Z.leb_le; lia).
           replace (Z.to_nat (r - (startRow + i)))
             with (S (Z.to_nat (r - (startRow + (i + 1))))) by lia.
           f_equal. lia.
      * apply Z.leb_gt in Er.
        replace (startRow + (i + 1) <=? r) with false by (symmetry; apply Z.leb_gt; lia).
        reflexivity.
Qed.

Lemma removeBlankRows_cells (range : BlankOps.Selection) sheet (r c : Z) :
  let startRow := BlankOps.rowIndex range in
  let startCol := BlankOps.columnIndex range in
  let colCount := BlankOps.columnCount range in
  let values := range_values sheet startRow startCol (BlankOps.rowCount range) colCount in
  BlankOps.removeBlankRowsInSelection range sheet r c
  = if (startCol <=? c) && (c <? startCol + colCount) && (startRow <=? r)
    then sheet (startRow + Z.of_nat (src_pos (List.map BlankOps.isEmpty values)
                                             (Z.to_nat (r - startRow)))) c
    else sheet r c.
Proof.
  intros startRow startCol colCount values.
  pose proof (deletes_bottom_up startRow startCol colCount values 0 sheet r c) as H.
  rewrite !Z.add_0_r in H.
  unfold BlankOps.removeBlankRowsInSelection.
  fold startRow startCol colCount. fold values. cbv zeta.
  unfold BlankOps.blankRowIndices.
  destruct (length (BlankOps.blankRowIndices_from 0 values) =? 0)%nat eqn:E.
  - apply Nat.eqb_eq in E.
    destruct (BlankOps.blankRowIndices_from 0 values); [|discriminate E].
    exact H.
  - exact H.
Qed.

Lemma kept_lookup values (k : nat) :
  List.filter not_blank values !! k
  = values !! src_pos (List.map BlankOps.isEmpty values) k.
Proof.
  revert k. induction values as [|v vs IH]; intros k; [destruct k; reflexivity|].
  cbn [List.filter List.map src_pos]. unfold not_blank at 1.
  destruct (BlankOps.isEmpty v); cbn [negb].
  - apply IH.
  - destruct k as [|k]; [reflexivity|]. cbn. apply IH.
Qed.

Lemma src_pos_beyond values (k : nat) :
  (length (List.filter not_blank values) <= k)%nat ->
  src_pos (List.map BlankOps.isEmpty values) k
  = (k + (length values - length (List.filter not_blank values)))%nat.
Proof.
  revert k. induction values as [|v vs IH]; intros k Hk; [cbn; lia|].
  pose proof (filter_length_le not_blank vs) as Hle.
  cbn [List.filter List.map src_pos length] in *.
  assert (Hv : BlankOps.isEmpty v = negb (not_blank v))
    by (unfold not_blank; rewrite negb_involutive; reflexivity).
  rewrite Hv. destruct (not_blank v); cbn [negb length] in *.
  - destruct k as [|k]; [lia|]. rewrite IH by lia. lia.
  - rewrite IH by exact Hk. lia.
Qed.

Lemma range_values_lookup sheet (rowIndex columnIndex rowCount columnCount : Z) (k : nat) :
  Z.of_nat k < rowCount ->
  range_values sheet rowIndex columnIndex rowCount columnCount !! k
  = Some (List.map (fun j => sheet (rowIndex + Z.of_nat k) (columnIndex + j))
                   (seqZ 0 columnCount)).
Proof.
  intros Hk. unfold range_values.
  change (List.map ?f (seqZ 0 rowCount)) with (f <$> seqZ 0 rowCount).
  rewrite list_lookup_fmap, lookup_seqZ_lt by exact Hk. reflexivity.
Qed.

Lemma range_values_length sheet (rowIndex columnIndex rowCount columnCount : Z) :
  length (range_values sheet rowIndex columnIndex rowCount columnCount) = Z.to_nat rowCount.
Proof. unfold range_values. rewrite length_map. apply length_seqZ. Qed.

(** X18: removing the blank rows of a selection packs its other rows, in
    their order, at the top of the selection: read again over as many rows
    as were kept, the selection holds exactly the rows that had a cell
    other than [null] and the empty string.  In the selected columns all
    that lay further down has moved up by the number of rows removed; the
    cells above the selection and those of the other columns are as they
    were. *)
Theorem X18_blank_rows_removed (range : BlankOps.Selection) (sheet : Sheet Num) :
  let startRow := BlankOps.rowIndex range in
  let startCol := BlankOps.columnIndex range in
  let colCount := BlankOps.columnCount range in
  let values := range_values sheet startRow startCol (BlankOps.rowCount range) colCount in
  let kept := List.filter not_blank values in
  let removed := Z.of_nat (length values - length kept) in
  let sheet' := BlankOps.removeBlankRowsInSelection range sheet in
  range_values sheet' startRow startCol (Z.of_nat (length kept)) colCount = kept
  /\ (forall r c, startCol <= c < startCol + colCount ->
                  startRow + Z.of_nat (length kept) <= r ->
                  sheet' r c = sheet (r + removed) c)
  /\ (forall r c, r < startRow \/ c < startCol \/ startCol + colCount <= c ->
                  sheet' r c = sheet r c).
Proof.
  intros startRow startCol colCount values kept removed sheet'.
  assert (Hcells : forall r c,
             sheet' r c
             = if (startCol <=? c) && (c <? startCol + colCount) && (startRow <=? r)
               then sheet (startRow + Z.of_nat (src_pos (List.map BlankOps.isEmpty values)
                                                        (Z.to_nat (r - startRow)))) c
               else sheet r c)
    by (intros r c; apply removeBlankRows_cells).
  split; [|split].
  - apply list_eq. intros k.
    destruct (decide (k < length kept)%nat) as [Hk|Hk].
    + rewrite range_values_lookup by lia.
      unfold kept in Hk |- *. rewrite kept_lookup.
      set (p := src_pos (List.map BlankOps.isEmpty values) k).
      assert (Hp : (p < length values)%nat).
      { apply lookup_lt_is_Some. unfold p. rewrite <- kept_lookup.
        apply lookup_lt_is_Some. exact Hk. }
      unfold values in Hp |- *. rewrite range_values_length in Hp.
      rewrite range_values_lookup by lia. f_equal.
      apply map_ext_in. intros j Hj. apply list_elem_of_In, elem_of_seqZ in Hj.
      rewrite Hcells.
      replace ((startCol <=? startCol + j) && (startCol + j <? startCol + colCount)
               && (startRow <=? startRow + Z.of_nat k)) with true.
      * replace (Z.to_nat (startRow + Z.of_nat k - startRow)) with k by lia. reflexivity.
      * symmetry. rewrite !andb_true_iff, !Z.leb_le, Z.ltb_lt. lia.
    + rewrite !lookup_ge_None_2; [reflexivity|lia|].
      rewrite range_values_length. lia.
  - intros r c Hc Hr. rewrite Hcells.
    replace ((startCol <=? c) && (c <? startCol + colCount) && (startRow <=? r)) with true
      by (symmetry; rewrite !andb_true_iff, !Z.leb_le, Z.ltb_lt; lia).
    rewrite src_pos_beyond by (fold kept; lia).
    fold kept. unfold removed.
    pose proof (filter_length_le not_blank values) as Hle. fold kept in Hle.
    f_equal. lia.
  - intros r c Hrc. rewrite Hcells.
    replace ((startCol <=? c) && (c <? startCol + colCount) && (startRow <=? r)) with false;
      [reflexivity|].
    symmetry. rewrite !andb_false_iff, !Z.leb_gt, Z.ltb_ge. lia.
Qed.

End BlankRows.

(** Three rows of one column, the middle one blank: one deletion, and the
    third row comes second. *)
Example blank_rows_three :
  let sheet : Sheet Z := fun r c =>
    if (c =? 0) && ((r =? 0) || (r =? 2)) then CNumber r else CNull in
  let range := {| BlankOps.rowIndex := 0; BlankOps.rowCount := 3;
                  BlankOps.columnIndex := 0; BlankOps.columnCount := 1 |} in
  let sheet' := BlankOps.removeBlankRowsInSelection range sheet in
  (sheet' 0 0, sheet' 1 0, sheet' 2 0) = (CNumber 0, CNumber 2, CNull).
Proof. reflexivity. Qed.

(** ** The consumption category setter *)

Lemma text_eqb_eq (a b : Text) : Category.text_eqb a b = true <-> a = b.
Proof.
  revert b. induction a as [|x a IH]; intros [|y b]; cbn; try (split; congruence).
  rewrite andb_true_iff, Z.eqb_eq, IH. split; [intros [-> ->]; reflexivity|].
  intros [= -> ->]. split; reflexivity.
Qed.

Lemma text_eqb_refl (a : Text) : Category.text_eqb a a = true.
Proof. apply text_eqb_eq. reflexivity. Qed.

Lemma Map_set_keys (key value : Text) (m : Category.ConsumptionMap) :
  List.map fst (Category.Map_set key value m)
  = if existsb (fun k => Category.text_eqb k key) (List.map fst m)
    then List.map fst m
    else List.map fst m ++ [key].
Proof.
  induction m as [|[k v] m IH]; [reflexivity|].
  cbn [Category.Map_set List.map fst existsb].
  destruct (Category.text_eqb k key); cbn [orb List.map fst]; [reflexivity|].
  rewrite IH. destruct (existsb _ _); reflexivity.
Qed.

Lemma Map_set_NoDup (key value : Text) (m : Category.ConsumptionMap) :
  NoDup (List.map fst m) -> NoDup (List.map fst (Category.Map_set key value m)).
Proof.
  intros Hm. rewrite Map_set_keys.
  destruct (existsb _ _) eqn:E; [exact Hm|].
  apply NoDup_app. split; [exact Hm|]. split; [|apply NoDup_singleton].
  intros x Hx Hin. apply list_elem_of_singleton in Hin. subst x.
  apply list_elem_of_In in Hx.
  assert (existsb (fun k => Category.text_eqb k key) (List.map fst m) = true)
    by (apply existsb_exists; exists key; split; [exact Hx|apply text_eqb_refl]).
  congruence.
Qed.

Lemma Map_set_In (key value k v : Text) (m : Category.ConsumptionMap) :
  In (k, v) (Category.Map_set key value m) -> (k = key /\ v = value) \/ In (k, v) m.
Proof.
  induction m as [|[k' v'] m IH]; cbn [Category.Map_set].
  - intros [[= <- <-]|[]]. left. split; reflexivity.
  - destruct (Category.text_eqb k' key) eqn:E.
    + apply text_eqb_eq in E. subst k'. intros [[= <- <-]|Hin].
      * left. split; reflexivity.
      * right. right. exact Hin.
    + intros [Heq|Hin]; [right; left; exact Heq|].
      destruct (IH Hin) as [H|H]; [left; exact H|right; right; exact H].
Qed.

Lemma Map_get_set (key value k : Text) (m : Category.ConsumptionMap) :
  Map_get k (Category.Map_set key value m)
  = if Category.text_eqb key k then Some value else Map_get k m.
Proof.
  induction m as [|[k' v'] m IH]; cbn [Category.Map_set Map_get].
  - destruct (Category.text_eqb key k); reflexivity.
  - destruct (Category.text_eqb k' key) eqn:E.
    + apply text_eqb_eq in E. subst k'. cbn [Map_get].
      destruct (Category.text_eqb key k); reflexivity.
    + cbn [Map_get]. destruct (Category.text_eqb k' k) eqn:E'.
      * apply text_eqb_eq in E'. subst k'.
        destruct (Category.text_eqb key k) eqn:E2; [|reflexivity].
        apply text_eqb_eq in E2. subst key. rewrite text_eqb_refl in E. discriminate E.
      * exact IH.
Qed.

Lemma Map_get_In (k v : Text) (m : Category.ConsumptionMap) :
  Map_get k m = Some v -> In (k, v) m.
Proof.
  induction m as [|[k' v'] m IH]; cbn [Map_get]; [discriminate|].
  destruct (Category.text_eqb k' k) eqn:E.
  - apply text_eqb_eq in E. subst k'. intros [= ->]. left. reflexivity.
  - intros H. right. exact (IH H).
Qed.

Lemma buildMap_snoc (data : list Category.CsvRow) (row : Category.CsvRow) :
  Category.buildMap (data ++ [row]) = map_step (Category.buildMap data) row.
Proof. unfold Category.buildMap. rewrite fold_left_app. reflexivity. Qed.

Lemma buildMap_last_wins (pre post : list Category.CsvRow) (row : Category.CsvRow) :
  usable row = true ->
  (forall r, In r post -> usable r = true -> key_of_row r <> key_of_row row) ->
  Map_get (key_of_row row) (Category.buildMap (pre ++ row :: post)) = Some (type_of_row row).
Proof.
  intros Hu. induction post as [|r post IH] using rev_ind; intros Hpost.
  - rewrite buildMap_snoc. unfold map_step. rewrite Hu, Map_get_set, text_eqb_refl.
    reflexivity.
  - change (pre ++ row :: post ++ [r]) with (pre ++ (row :: post) ++ [r]).
    rewrite app_assoc, buildMap_snoc. unfold map_step.
    assert (IH' : Map_get (key_of_row row) (Category.buildMap (pre ++ row :: post))
                  = Some (type_of_row row)).
    { apply IH. intros r' Hin. apply Hpost, in_or_app. left. exact Hin. }
    destruct (usable r) eqn:Er; [|exact IH'].
    rewrite Map_get_set.
    destruct (Category.text_eqb (key_of_row r) (key_of_row row)) eqn:E; [|exact IH'].
    apply text_eqb_eq in E. exfalso.
    apply (Hpost r); [apply in_or_app; right; left; reflexivity|exact Er|exact E].
Qed.

Lemma existsb_text_In (key : Text) (keys : list Text) :
  existsb (fun k => Category.text_eqb k key) keys = true <-> In key keys.
Proof.
  rewrite existsb_exists. split.
  - intros (k & Hk & E). apply text_eqb_eq in E. subst k. exact Hk.
  - intros H. exists key. split; [exact H|apply text_eqb_refl].
Qed.

(** X19: the map built from the rows of [type.csv] has each keyword once;
    every entry comes from a row whose keyword and type are both present
    and not empty, trimmed; every such row has its trimmed keyword in the
    map; of the rows with the same trimmed keyword the last one gives the
    type; and the keywords stand in the order in which they first came: a
    row with a keyword not met yet puts it at the end, a row with a keyword
    already met leaves the order as it is, and a row that lacks a keyword
    or a type changes nothing. *)
Theorem X19_consumption_map (data : list Category.CsvRow) :
  let m := Category.buildMap data in
  NoDup (List.map fst m)
  /\ (forall k t, In (k, t) m ->
                  exists row, In row data /\ usable row = true
                              /\ k = key_of_row row /\ t = type_of_row row)
  /\ (forall row, In row data -> usable row = true ->
                  exists t, Map_get (key_of_row row) m = Some t)
  /\ (forall pre row post,
        data = pre ++ row :: post ->
        usable row = true ->
        (forall r, In r post -> usable r = true -> key_of_row r <> key_of_row row) ->
        Map_get (key_of_row row) m = Some (type_of_row row)
        /\ In (key_of_row row, type_of_row row) m)
  /\ (forall row,
        let m' := Category.buildMap (data ++ [row]) in
        (usable row = false -> m' = m)
        /\ (usable row = true -> In (key_of_row row) (List.map fst m) ->
            List.map fst m' = List.map fst m)
        /\ (usable row = true -> ~ In (key_of_row row) (List.map fst m) ->
            m' = m ++ [(key_of_row row, type_of_row row)])).
Proof.
  cbv zeta. split; [|split; [|split; [|split]]].
  - induction data as [|row data IH] using rev_ind; [constructor|].
    rewrite buildMap_snoc. unfold map_step.
    destruct (usable row); [apply Map_set_NoDup|]; exact IH.
  - induction data as [|row data IH] using rev_ind; [intros k t []|].
    intros k t. rewrite buildMap_snoc. unfold map_step.
    destruct (usable row) eqn:Eu.
    + intros Hin. apply Map_set_In in Hin as [[-> ->]|Hin].
      * exists row. rewrite in_app_iff. cbn. auto.
      * destruct (IH _ _ Hin) as (row' & Hr & Hrest).
        exists row'. rewrite in_app_iff. auto.
    + intros Hin. destruct (IH _ _ Hin) as (row' & Hr & Hrest).
      exists row'. rewrite in_app_iff. auto.
  - induction data as [|row data IH] using rev_ind; [intros row []|].
    intros row' Hin Hu. rewrite buildMap_snoc. unfold map_step.
    apply in_app_iff in Hin as [Hin|[<-|[]]].
    + destruct (IH _ Hin Hu) as [t Ht].
      destruct (usable row); [|exists t; exact Ht].
      rewrite Map_get_set. destruct (Category.text_eqb _ _); eauto.
    + rewrite Hu, Map_get_set, text_eqb_refl. eauto.
  - intros pre row post -> Hu Hpost.
    pose proof (buildMap_last_wins pre post row Hu Hpost) as H.
    split; [exact H|apply Map_get_In, H].
  - intros row. rewrite buildMap_snoc. unfold map_step. split; [|split].
    + intros ->. reflexivity.
    + intros -> Hin. rewrite Map_set_keys.
      rewrite (proj2 (existsb_text_In _ _) Hin). reflexivity.
    + intros -> Hnot.
      induction (Category.buildMap data) as [|[k v] m IH]; [reflexivity|].
      cbn [Category.Map_set].
      destruct (Category.text_eqb k (key_of_row row)) eqn:E.
      * apply text_eqb_eq in E. exfalso. apply Hnot. left. exact E.
      * cbn [app]. f_equal. apply IH. intros Hin. apply Hnot. right. exact Hin.
Qed.

(** The rows a to 1, a to 2, b to 3: the keyword a keeps the first place
    and takes the later type. *)
Example consumption_map_last_type :
  Category.buildMap
    [{| Category.keyword := Some [97]; Category.type := Some [49] |};
     {| Category.keyword := Some [97]; Category.type := Some [50] |};
     {| Category.keyword := Some [98]; Category.type := Some [51] |}]
  = [([97], [50]); ([98], [51])].
Proof. reflexivity. Qed.

Lemma includes_empty (s : Text) : Category.includes s [] = true.
Proof. destruct s; reflexivity. Qed.

Lemma matchedType_some (bValue : Text) (m : Category.ConsumptionMap) :
  (exists k t, In (k, t) m /\ Category.includes bValue k = true) ->
  exists t, Category.matchedType bValue m = Some t.
Proof.
  intros (k & t & Hin & Hk). induction m as [|[k' t'] m IH]; [destruct Hin|].
  cbn [Category.matchedType]. destruct (Category.includes bValue k') eqn:E; [eauto|].
  destruct Hin as [[= -> ->]|Hin]; [congruence|]. exact (IH Hin).
Qed.

Section SetterFacts.
Context {Num : Type}.
Variable Number_truthy : Num -> bool.
Variable Number_toString : Num -> Text.

Abbreviation classify := (Category.classify Number_truthy Number_toString).
Abbreviation batch := (Category.batch Number_truthy Number_toString).
Abbreviation setConsumptionCategory :=
  (Category.setConsumptionCategory Number_truthy Number_toString).

Lemma classify_unmatched (m : Category.ConsumptionMap) (b k : Cell Num) :
  snd (classify m b k) = false -> fst (classify m b k) = k.
Proof.
  unfold Category.classify. cbv zeta.
  destruct (Ribbon.js_trim _) as [|x bValue]; [reflexivity|].
  destruct (Category.matchedType _ m); [discriminate|reflexivity].
Qed.

Lemma classify_again (m : Category.ConsumptionMap) (b k : Cell Num) :
  classify m b (fst (classify m b k)) = classify m b k.
Proof.
  unfold Category.classify. cbv zeta.
  destruct (Ribbon.js_trim _) as [|x bValue]; [reflexivity|].
  destruct (Category.matchedType _ m); reflexivity.
Qed.

Lemma combine_map_same {A B C : Type} (f : A -> B) (g : A -> C) (l : list A) :
  combine (List.map f l) (List.map g l) = List.map (fun x => (f x, g x)) l.
Proof. induction l as [|x l IH]; [reflexivity|]. cbn. f_equal. exact IH. Qed.

Lemma filter_nil_all {A : Type} (p : A -> bool) (l : list A) :
  List.filter p l = [] -> forall x, In x l -> p x = false.
Proof.
  induction l as [|y l IH]; intros H x []; cbn in H; destruct (p y) eqn:E;
    try discriminate H; subst; auto.
Qed.

(** The cells of the worksheet after the batch. *)
Lemma batch_cells (m : Category.ConsumptionMap) (rowIndex rowCount : Z)
    (sheet : Sheet Num) (r c : Z) :
  batch m rowIndex rowCount sheet r c
  = if (c =? Category.column_K) && (3 <=? r) && (r <? rowIndex + rowCount - 1)
    then fst (classify m (sheet r Category.column_B) (sheet r Category.column_K))
    else sheet r c.
Proof.
  unfold Category.batch. cbv zeta.
  set (endRow := rowIndex + rowCount - 1).
  destruct (endRow <? 4) eqn:Eend.
  - apply Z.ltb_lt in Eend.
    replace ((c =? Category.column_K) && (3 <=? r) && (r <? endRow)) with false; [reflexivity|].
    symmetry. rewrite !andb_false_iff, Z.leb_gt, Z.ltb_ge. lia.
  - apply Z.ltb_ge in Eend. unfold Category.column_values.
    rewrite combine_map_same, map_map. cbn [fst snd].
    set (turn := fun n => classify m (sheet (n - 1) Category.column_B)
                                     (sheet (n - 1) Category.column_K)).
    set (turns := List.map turn (seqZ 4 (endRow - 4 + 1))).
    assert (Hturn : forall r, 3 <= r < endRow -> turns !! Z.to_nat (r - 3)
              = Some (classify m (sheet r Category.column_B) (sheet r Category.column_K))).
    { intros r' Hr. unfold turns.
      change (List.map turn ?l) with (turn <$> l).
      rewrite list_lookup_fmap, lookup_seqZ_lt by lia. cbn. unfold turn.
      replace (4 + Z.of_nat (Z.to_nat (r' - 3)) - 1) with r' by lia. reflexivity. }
    assert (Hlen : length turns = Z.to_nat (endRow - 3)).
    { unfold turns. rewrite length_map, length_seqZ. lia. }
    destruct (0 <? Z.of_nat (length (List.filter snd turns))) eqn:Ecount.
    + unfold Category.write_column.
      replace (4 - 1) with 3 by reflexivity.
      destruct ((c =? Category.column_K) && (3 <=? r)) eqn:Ecr; cbn [andb]; [|reflexivity].
      apply andb_true_iff in Ecr as [Ec Er]. apply Z.leb_le in Er.
      change (List.map fst turns) with (fst <$> turns). rewrite list_lookup_fmap.
      destruct (r <? endRow) eqn:Erow.
      * apply Z.ltb_lt in Erow. rewrite Hturn by lia. reflexivity.
      * apply Z.ltb_ge in Erow. rewrite lookup_ge_None_2 by lia. reflexivity.
    + destruct ((c =? Category.column_K) && (3 <=? r) && (r <? endRow)) eqn:Ecr; [|reflexivity].
      apply andb_true_iff in Ecr as [Ecr Erow]. apply andb_true_iff in Ecr as [Ec Er].
      apply Z.eqb_eq in Ec. apply Z.leb_le in Er. apply Z.ltb_lt in Erow. subst c.
      symmetry. apply classify_unmatched.
      apply Z.ltb_ge in Ecount.
      apply (filter_nil_all snd turns).
      * destruct (List.filter snd turns); [reflexivity|cbn in Ecount; lia].
      * apply list_elem_of_In. apply (list_elem_of_lookup_2 _ (Z.to_nat (r - 3))).
        apply Hturn. lia.
Qed.

(** X20: the setter changes nothing but column K, and there only the rows
    numbered four and up that lie before the last row of the used range:
    the last used row itself, whose number is [rowIndex + rowCount], keeps
    its value like the first three rows.  A row in between takes the type
    of the first keyword of the map found in its trimmed B value, and keeps
    its K value when that value is empty or holds no keyword. *)
Theorem X20_setter_cells (m : Category.ConsumptionMap) (rowIndex rowCount : Z)
    (sheet : Sheet Num) :
  let sheet' := batch m rowIndex rowCount sheet in
  (forall r c, c <> Category.column_K -> sheet' r c = sheet r c)
  /\ (forall r c, r < 3 \/ rowIndex + rowCount - 1 <= r -> sheet' r c = sheet r c)
  /\ (forall r, 3 <= r < rowIndex + rowCount - 1 ->
        sheet' r Category.column_K
        = match Ribbon.js_trim (Category.String_or_empty Number_truthy Number_toString
                                                         (sheet r Category.column_B)) with
          | [] => sheet r Category.column_K
          | bValue =>
              match Category.matchedType bValue m with
              | Some type => CString type
              | None => sheet r Category.column_K
              end
          end).
Proof.
  cbv zeta. split; [|split].
  - intros r c Hc. rewrite batch_cells.
    replace (c =? Category.column_K) with false by (symmetry; apply Z.eqb_neq; exact Hc).
    reflexivity.
  - intros r c Hr. rewrite batch_cells.
    replace ((c =? Category.column_K) && (3 <=? r) && (r <? rowIndex + rowCount - 1)) with false;
      [reflexivity|].
    symmetry. rewrite !andb_false_iff, Z.leb_gt, Z.ltb_ge. lia.
  - intros r Hr. rewrite batch_cells.
    replace ((Category.column_K =? Category.column_K) && (3 <=? r)
             && (r <? rowIndex + rowCount - 1)) with true
      by (symmetry; rewrite !andb_true_iff, Z.eqb_eq, Z.leb_le, Z.ltb_lt; lia).
    unfold Category.classify. cbv zeta.
    destruct (Ribbon.js_trim _) as [|x bValue]; [reflexivity|].
    destruct (Category.matchedType _ m); reflexivity.
Qed.

(** X21: run a second time on its own result, with the same map and used
    range, the setter changes no cell. *)
Theorem X21_setter_idempotent (m : Category.ConsumptionMap) (rowIndex rowCount : Z)
    (sheet : Sheet Num) (r c : Z) :
  batch m rowIndex rowCount (batch m rowIndex rowCount sheet) r c
  = batch m rowIndex rowCount sheet r c.
Proof.
  rewrite (batch_cells m rowIndex rowCount (batch m rowIndex rowCount sheet)).
  destruct ((c =? Category.column_K) && (3 <=? r) && (r <? rowIndex + rowCount - 1)) eqn:E;
    [|reflexivity].
  rewrite !batch_cells. rewrite E.
  apply andb_true_iff in E as [E Erow]. apply andb_true_iff in E as [Ec Er].
  apply Z.eqb_eq in Ec. subst c.
  replace ((Category.column_B =? Category.column_K) && (3 <=? r)
           && (r <? rowIndex + rowCount - 1)) with false by reflexivity.
  replace ((Category.column_K =? Category.column_K) && (3 <=? r)
           && (r <? rowIndex + rowCount - 1)) with true
    by (rewrite Er, Erow; reflexivity).
  rewrite classify_again. reflexivity.
Qed.

(** X22: a row of [type.csv] whose keyword is made of white space only is
    taken (the keyword is not empty before trimming) and gives the map the
    empty keyword, which every string holds: from then on no row of the
    sheet with a B value keeps its K value for want of a keyword. *)
Theorem X22_blank_keyword_matches_all (data : list Category.CsvRow)
    (row : Category.CsvRow) (b k : Cell Num) :
  In row data ->
  usable row = true ->
  key_of_row row = [] ->
  Ribbon.js_trim (Category.String_or_empty Number_truthy Number_toString b) <> [] ->
  exists t, classify (Category.buildMap data) b k = (CString t, true)
            /\ In t (List.map snd (Category.buildMap data)).
Proof.
  intros Hin Hu Hkey Hb.
  assert (Hget : exists t, Map_get (key_of_row row) (Category.buildMap data) = Some t).
  { clear Hkey Hb. induction data as [|row' data IH] using rev_ind; [destruct Hin|].
    rewrite buildMap_snoc. unfold map_step.
    apply in_app_iff in Hin as [Hin|[<-|[]]].
    - destruct (IH Hin) as [t Ht].
      destruct (usable row'); [|exists t; exact Ht].
      rewrite Map_get_set. destruct (Category.text_eqb _ _); eauto.
    - rewrite Hu, Map_get_set, text_eqb_refl. eauto. }
  destruct Hget as [t0 Hget]. rewrite Hkey in Hget. apply Map_get_In in Hget.
  unfold Category.classify. cbv zeta.
  destruct (Ribbon.js_trim _) as [|x bValue] eqn:Eb; [congruence|].
  destruct (matchedType_some (x :: bValue) (Category.buildMap data)) as [t Ht].
  { exists [], t0. split; [exact Hget|apply includes_empty]. }
  rewrite Ht. exists t. split; [reflexivity|].
  clear -Ht. induction (Category.buildMap data) as [|[k' t'] m IH]; [discriminate|].
  cbn [Category.matchedType] in Ht. destruct (Category.includes _ k').
  - injection Ht as ->. left. reflexivity.
  - right. exact (IH Ht).
Qed.

(** X23: the setter goes through its steps in order and stops at the
    first that fails; whatever fails, it throws an [Error] whose message is
    its own line, a colon, and the message of the cause.  The causes from
    the loader (the fetch fails, its answer is not ok, the text cannot be
    read, the parser cannot be loaded) come wrapped in the loader's line
    already, so an answer that is not ok is reported with that line twice;
    a map without entries gives the line of the missing mapping; a failure
    of the batch gives the message of the host.  When nothing fails the
    sheet is that of the batch run with the map of the parsed rows. *)
Theorem X23_setter_failures (env : Category.Env) (rowIndex rowCount : Z) (sheet : Sheet Num) :
  let outcome := setConsumptionCategory env rowIndex rowCount sheet in
  let failed (cause : string) : result (Sheet Num) :=
    Throw (ErrorObj "Error" (Category.msg_failed ++ ": " ++ cause)%string) in
  let load_failed (cause : string) : result (Sheet Num) :=
    failed (Category.msg_load ++ ": " ++ cause)%string in
  match Category.fetch env with
  | Throw e => outcome = load_failed (errorMessage e)
  | Ok response =>
      if negb (Category.ok response) then outcome = load_failed Category.msg_load
      else
        match Category.text response with
        | Throw e => outcome = load_failed (errorMessage e)
        | Ok text =>
            match Category.Papa_default env with
            | Throw e => outcome = load_failed (errorMessage e)
            | Ok parse =>
                match Category.buildMap (parse text) with
                | [] => outcome = failed Category.msg_no_mapping
                | m =>
                    match Category.Excel_run env with
                    | Some e => outcome = failed (errorMessage e)
                    | None => outcome = Ok (batch m rowIndex rowCount sheet)
                    end
                end
            end
        end
  end.
Proof.
  cbv zeta. unfold Category.setConsumptionCategory, Category.loadConsumptionMap,
    Category.load_failed, Category.set_failed, new_Error.
  destruct (Category.fetch env) as [response|e]; [|reflexivity].
  destruct (Category.ok response); cbn [negb]; [|reflexivity].
  destruct (Category.text response) as [text|e]; [|reflexivity].
  destruct (Category.Papa_default env) as [parse|e]; [|reflexivity].
  destruct (Category.buildMap (parse text)) as [|entry m]; [reflexivity|].
  cbn [length Nat.eqb].
  destruct (Category.Excel_run env); reflexivity.
Qed.

End SetterFacts.

(** The host refuses the batch: its message comes after the setter's line. *)
Example setter_host_failure :
  let env := {| Category.fetch := Ok {| Category.ok := true; Category.text := Ok [] |};
                Category.Papa_default :=
                  Ok (fun _ => [{| Category.keyword := Some [97];
                                   Category.type := Some [70] |}]);
                Category.Excel_run := Some (ErrorObj "Error" "busy") |} in
  Category.setConsumptionCategory (fun _ : Z => true) (fun _ : Z => []) env 0 5
    (fun _ _ => CNull)
  = Throw (ErrorObj "Error" (Category.msg_failed ++ ": busy")%string).
Proof. reflexivity. Qed.


(** A map with a keyword of one space, and a cell that holds "a". *)
Lemma X22_blank_keyword_witness :
  exists t,
    Category.classify (fun _ : Z => true) (fun _ : Z => [])
      (Category.buildMap [{| Category.keyword := Some [0x20]; Category.type := Some [0x46] |}])
      (CString [0x61]) CNull
    = (CString t, true)
    /\ In t (List.map snd
               (Category.buildMap
                  [{| Category.keyword := Some [0x20]; Category.type := Some [0x46] |}])).
Proof.
  apply (X22_blank_keyword_matches_all (fun _ : Z => true) (fun _ : Z => [])
           [{| Category.keyword := Some [0x20]; Category.type := Some [0x46] |}]
           {| Category.keyword := Some [0x20]; Category.type := Some [0x46] |}
           (CString [0x61]) CNull).
  - left. reflexivity.
  - reflexivity.
  - reflexivity.
  - vm_compute. discriminate.
Defined.

(** A used range of five rows from the top: the fourth row takes its type,
    the fifth, the last one, keeps its K value though its B value holds the
    keyword. *)
Example setter_last_row :
  let m := [([0x61], [0x46])] in
  let sheet : Sheet Z := fun r c => if c =? 1 then CString [0x61] else CNull in
  let sheet' := Category.batch (fun _ => true) (fun _ => []) m 0 5 sheet in
  sheet' 3 10 = CString [0x46] /\ sheet' 4 10 = CNull.
Proof. split; reflexivity. Qed.
